(** * RISC-V PMP shadow-register management (arch/riscv/core/pmp.c)

    A shallow embedding of the PMP region encoder, the register writer,
    the memory-domain synchronizer and the buffer validator, together with
    the properties of the design document that concern them. *)

From Stdlib Require Import ZArith ZifyNat Lia Bool List.
From stdpp Require Import base list.
Import ListNotations.

Local Open Scope Z_scope.

(** ** Faults and the result type

    The C code can leave its normal control flow in two ways: [k_panic()]
    (also reached through a failed [__ASSERT]), and an array access outside
    of the object it indexes, which the model records instead of giving it a
    meaning.  [OutOfFuel] belongs to the model alone: a loop modelled with
    an iteration bound has used it up (the bound given to the one such loop
    is shown to be enough). *)

Inductive fault : Type :=
| Panic
| OutOfBounds
| OutOfFuel.

Inductive res (A : Type) : Type :=
| Ret (a : A)
| Abort (f : fault).

Arguments Ret {A} a.
Arguments Abort {A} f.

Definition res_bind {A B : Type} (m : res A) (k : A -> res B) : res B :=
  match m with
  | Ret a => k a
  | Abort f => Abort f
  end.

Notation "x <- m ;; k" := (res_bind m (fun x => k))
  (at level 100, m at next level, right associativity).

(** [a[i]] as an rvalue and [a[i] = v] on a C array modelled as a list. *)
Definition load (a : list Z) (i : nat) : res Z :=
  match a !! i with
  | Some v => Ret v
  | None => Abort OutOfBounds
  end.

Definition store (a : list Z) (i : nat) (v : Z) : res (list Z) :=
  if decide (i < length a)%nat then Ret (<[i := v]> a) else Abort OutOfBounds.

(** ** Config-byte constants *)

(** Modelled from the spec: the pmpcfg bit assignments come from
    arch/riscv/csr.h, which is not part of the sources at hand; the values
    are those of the RISC-V privileged architecture (R, W, X permission
    bits, the two-bit address-matching field A with its modes off,
    top-of-range, naturally-aligned-4 and naturally-aligned-power-of-two,
    and the lock bit L). *)
Definition PMP_R : Z := 0x01.
Definition PMP_W : Z := 0x02.
Definition PMP_X : Z := 0x04.
Definition PMP_A : Z := 0x18.
Definition PMP_L : Z := 0x80.
Definition PMP_OFF : Z := 0x00.
Definition PMP_TOR : Z := 0x08.
Definition PMP_NA4 : Z := 0x10.
Definition PMP_NAPOT : Z := 0x18.
Definition PMP_NONE : Z := 0.

(** [uint8_t] truncation. *)
Definition u8 (x : Z) : Z := x mod 2 ^ 8.

(** [unsigned int] truncation (generation counters). *)
Definition u32 (x : Z) : Z := x mod 2 ^ 32.

(** One line of the debug dump produced by [print_pmp_entries]. *)
Inductive pmp_line : Type :=
| LineRaw (index : nat) (addr cfg : Z)
| LineRange (index : nat) (addr cfg : Z) (range_start range_end : Z)
            (r w x locked : bool).

(** What [print_pmp_entries] shows of a slot that it decodes to a range. *)
Record pmp_range : Type := Build_pmp_range {
  range_start : Z;
  range_end : Z;       (* inclusive *)
  range_r : bool;
  range_w : bool;
  range_x : bool;
  range_locked : bool
}.

Definition line_range (l : pmp_line) : option pmp_range :=
  match l with
  | LineRaw _ _ _ => None
  | LineRange _ _ _ s e r w x lk => Some (Build_pmp_range s e r w x lk)
  end.

(** ** Kernel structures *)

(** Modelled from the spec: [struct k_thread], [struct k_mem_domain] and
    [struct k_mem_partition] are declared in kernel headers that are not
    part of the sources at hand; the records hold the fields pmp.c reads
    and writes (a partition with start, size and permission attribute; a
    domain with its partitions and generation counter; the thread PMP state
    with its unprivileged store, end index, domain offset and last-synced
    generation).  The [pmpcfg] shadow arrays are kept as the byte arrays
    the code views them as (through the [uint8_t] pointer [pmp_n_cfg], on a
    little-endian machine). *)

Record k_mem_partition : Type := Build_k_mem_partition {
  part_start : Z;
  part_size : Z;
  part_pmp_attr : Z
}.

Record k_mem_domain : Type := Build_k_mem_domain {
  partitions : list k_mem_partition;
  num_partitions : nat;
  pmp_update_nr : Z
}.

Record k_thread : Type := Build_k_thread {
  stack_info_start : Z;
  stack_info_size : Z;
  u_mode_pmpaddr_regs : list Z;
  u_mode_pmpcfg_regs : list Z;
  u_mode_pmp_end_index : nat;
  u_mode_pmp_domain_offset : nat;
  u_mode_pmp_update_nr : Z
}.

(** The two file-scope variables of pmp.c. *)
Record pmp_globals : Type := Build_pmp_globals {
  global_pmp_cfg : Z;
  global_pmp_end_index : nat
}.

(** ** Observable events

    Calls that leave pmp.c ([z_riscv_write_pmp_entries] of pmp.S, with the
    arguments and the shadow arrays as they are at the call; [csr_clear] on
    [mstatus]), and the entry into [resync_pmp_domain], which the
    synchronization properties count. *)
Inductive event : Type :=
| EvHwWrite (start end_ : nat) (clear_trailing_entries : bool)
            (pmp_addr pmp_n_cfg : list Z)
| EvCsrClear (mask : Z)
| EvResync.

Definition is_resync (e : event) : bool :=
  match e with EvResync => true | _ => false end.

Definition is_hw_write (e : event) : bool :=
  match e with EvHwWrite _ _ _ _ _ => true | _ => false end.

Definition resync_count (log : list event) : nat :=
  length (List.filter is_resync log).

Definition hw_write_count (log : list event) : nat :=
  length (List.filter is_hw_write log).

(** Computations that may fault and that append to the event log; the log
    reached at a fault is kept. *)
Definition M (A : Type) : Type := list event -> res A * list event.

Definition M_ret {A : Type} (a : A) : M A := fun log => (Ret a, log).

Definition M_bind {A B : Type} (m : M A) (k : A -> M B) : M B :=
  fun log =>
    match m log with
    | (Ret a, log') => k a log'
    | (Abort f, log') => (Abort f, log')
    end.

Definition M_lift {A : Type} (r : res A) : M A := fun log => (r, log).

Definition emit (e : event) : M unit := fun log => (Ret tt, log ++ [e]).

Notation "x <~ m ;; k" := (M_bind m (fun x => k))
  (at level 100, m at next level, right associativity).

Definition nonempty (part : k_mem_partition) : bool :=
  negb (part_size part =? 0).

(** Modelled from the spec: the bypass bit of [mstatus], from
    arch/riscv/csr.h, with its value in the RISC-V privileged
    architecture. *)
Definition MSTATUS_MPRV : Z := 0x00020000.

Section Pmp.

(** Build configuration. *)
Variable CONFIG_64BIT : bool.
Variable CONFIG_PMP_SLOTS : nat.
(** Modelled from the spec: [__ASSERT] comes from sys/__assert.h, which is
    not part of the sources at hand.  With assertions compiled in, a failed
    assertion aborts; with assertions compiled out the macro expands to
    nothing. *)
Variable CONFIG_ASSERT : bool.

Definition XLEN : Z := if CONFIG_64BIT then 64 else 32.

(** [ulong_t], [uintptr_t] and [size_t] arithmetic wraps at [2 ^ XLEN]. *)
Definition ulong (x : Z) : Z := x mod 2 ^ XLEN.

(** [sizeof(ulong_t)] *)
Definition PMPCFG_STRIDE : nat := if CONFIG_64BIT then 8%nat else 4%nat.

(** Modelled from the spec: the assertion macro of sys/__assert.h, a
    defensive assertion that aborts when it fails and is compiled in. *)
Definition __ASSERT (test : bool) : res unit :=
  if CONFIG_ASSERT && negb test then Abort Panic else Ret tt.

Definition PMP_ADDR (addr : Z) : Z := Z.shiftr addr 2.
Definition NAPOT_RANGE (size : Z) : Z := Z.shiftr (ulong (size - 1)) 1.
Definition PMP_ADDR_NAPOT (addr size : Z) : Z :=
  PMP_ADDR (Z.lor addr (NAPOT_RANGE size)).

(** *** print_pmp_entries *)

(** The body of the [for] loop of [print_pmp_entries] for one [index]. *)
Definition print_pmp_entry (index : nat) (pmp_addr pmp_n_cfg : list Z)
  : res pmp_line :=
  cfg <- load pmp_n_cfg index ;;
  a <- load pmp_addr index ;;
  se <-
     (if Z.land cfg PMP_A =? PMP_TOR then
        start <- (if (index =? 0)%nat then Ret 0
                  else p <- load pmp_addr (index - 1) ;;
                       Ret (ulong (Z.shiftl p 2))) ;;
        Ret (start, ulong (ulong (Z.shiftl a 2) - 1))
      else if Z.land cfg PMP_A =? PMP_NA4 then
        let start := ulong (Z.shiftl a 2) in
        Ret (start, ulong (start + 3))
      else if Z.land cfg PMP_A =? PMP_NAPOT then
        let tmp := Z.lor (ulong (Z.shiftl a 2)) 0x3 in
        Ret (Z.land tmp (ulong (tmp + 1)), Z.lor tmp (ulong (tmp + 1)))
      else Ret (0, 0)) ;;
  let '(start, end_) := se in
  if end_ =? 0 then Ret (LineRaw index a cfg)
  else Ret (LineRange index a cfg start end_
              (negb (Z.land cfg PMP_R =? 0))
              (negb (Z.land cfg PMP_W =? 0))
              (negb (Z.land cfg PMP_X =? 0))
              (negb (Z.land cfg PMP_L =? 0))).

(** [for (index = start; index < end; index++)], as a recursion on the
    number [n] of indices left, [end = start + n]. *)
Fixpoint print_pmp_loop (index n : nat) (pmp_addr pmp_n_cfg : list Z)
  : res (list pmp_line) :=
  match n with
  | O => Ret []
  | S n' =>
      l <- print_pmp_entry index pmp_addr pmp_n_cfg ;;
      ls <- print_pmp_loop (S index) n' pmp_addr pmp_n_cfg ;;
      Ret (l :: ls)
  end.

Definition print_pmp_entries (start end_ : nat) (pmp_addr pmp_n_cfg : list Z)
  : res (list pmp_line) :=
  print_pmp_loop start (end_ - start) pmp_addr pmp_n_cfg.

(** The ranges shown by the dump for the slots [start, end_). *)
Definition decoded_ranges (start end_ : nat) (pmp_addr pmp_n_cfg : list Z)
  : res (list pmp_range) :=
  ls <- print_pmp_entries start end_ pmp_addr pmp_n_cfg ;;
  Ret (omap line_range ls).

(** *** set_pmp_entry

    [index_p] is passed in and handed back as the second component of the
    result; the two arrays are passed in and handed back likewise.  [index]
    stays below [index_limit], itself an [unsigned int], so that its
    increments never wrap. *)
Definition set_pmp_entry (index : nat) (perm : Z) (start size : Z)
    (pmp_addr pmp_n_cfg : list Z) (index_limit : nat)
  : res (bool * nat * list Z * list Z) :=
  _ <- __ASSERT (Z.land start 0x3 =? 0) ;;
  _ <- __ASSERT (Z.land size 0x3 =? 0) ;;
  if (index_limit <=? index)%nat then
    Ret (false, index, pmp_addr, pmp_n_cfg)
  else
    chain <- (if (index =? 0)%nat then Ret (start =? 0)
              else p <- load pmp_addr (index - 1) ;;
                   Ret (p =? PMP_ADDR start)) ;;
    if (chain : bool) then
      pmp_addr <- store pmp_addr index (PMP_ADDR (ulong (start + size))) ;;
      pmp_n_cfg <- store pmp_n_cfg index (u8 (Z.lor perm PMP_TOR)) ;;
      Ret (true, (index + 1)%nat, pmp_addr, pmp_n_cfg)
    else if (Z.land size (ulong (size - 1)) =? 0)
            && (Z.land start (ulong (size - 1)) =? 0) then
      pmp_addr <- store pmp_addr index (PMP_ADDR_NAPOT start size) ;;
      pmp_n_cfg <- store pmp_n_cfg index
                     (u8 (Z.lor perm (if size =? 4 then PMP_NA4 else PMP_NAPOT))) ;;
      Ret (true, (index + 1)%nat, pmp_addr, pmp_n_cfg)
    else if (index_limit <=? index + 1)%nat then
      Ret (false, index, pmp_addr, pmp_n_cfg)
    else
      pmp_addr <- store pmp_addr index (PMP_ADDR start) ;;
      pmp_n_cfg <- store pmp_n_cfg index 0 ;;
      pmp_addr <- store pmp_addr (index + 1) (PMP_ADDR (ulong (start + size))) ;;
      pmp_n_cfg <- store pmp_n_cfg (index + 1) (u8 (Z.lor perm PMP_TOR)) ;;
      Ret (true, (index + 2)%nat, pmp_addr, pmp_n_cfg).

(** *** write_pmp_entries *)

Definition k_panic {A : Type} : M A := M_lift (Abort Panic).

(** The assembly routine of pmp.S, seen from pmp.c as a call. *)
Definition z_riscv_write_pmp_entries (start end_ : nat)
    (clear_trailing_entries : bool) (pmp_addr pmp_n_cfg : list Z) : M unit :=
  emit (EvHwWrite start end_ clear_trailing_entries pmp_addr pmp_n_cfg).

(** [for (index = end; index % PMPCFG_STRIDE != 0; index++) pmp_n_cfg[index] = 0;]
    The loop runs until [index] reaches a multiple of the stride; [fuel]
    bounds the number of iterations of the model. *)
Fixpoint clear_trailing (fuel index : nat) (pmp_n_cfg : list Z)
  : res (list Z) :=
  if (index mod PMPCFG_STRIDE =? 0)%nat then Ret pmp_n_cfg
  else
    match fuel with
    | O => Abort OutOfFuel
    | S fuel' =>
        pmp_n_cfg <- store pmp_n_cfg index 0 ;;
        clear_trailing fuel' (index + 1) pmp_n_cfg
    end.

(** The debug dump [print_pmp_entries(start, end, ...)] made before the
    hardware write changes no state and is left out.  The function hands
    back the config bytes, which it may have changed. *)
Definition write_pmp_entries (start end_ : nat) (clear_trailing_entries : bool)
    (pmp_addr pmp_n_cfg : list Z) (index_limit : nat) : M (list Z) :=
  _ <~ M_lift (__ASSERT ((start <? end_)%nat && (end_ <=? index_limit)%nat
                         && (index_limit <=? CONFIG_PMP_SLOTS)%nat)) ;;
  if (end_ <=? start)%nat || (index_limit <? end_)%nat then k_panic
  else
    pmp_n_cfg <~ M_lift (if clear_trailing_entries
                         then clear_trailing PMPCFG_STRIDE end_ pmp_n_cfg
                         else Ret pmp_n_cfg) ;;
    _ <~ z_riscv_write_pmp_entries start end_ clear_trailing_entries
           pmp_addr pmp_n_cfg ;;
    M_ret pmp_n_cfg.

(** *** The memory-domain synchronizer *)

Variable CONFIG_PMP_STACK_GUARD : bool.

(** The bytes of a [ulong_t] in memory order. *)
Definition word_bytes (w : Z) : list Z :=
  map (fun i => Z.land (Z.shiftr w (8 * Z.of_nat i)) 0xff) (seq 0 PMPCFG_STRIDE).

(** [pmp_cfg[0] = w] on the byte view of the array. *)
Definition store_cfg_word0 (pmp_n_cfg : list Z) (w : Z) : res (list Z) :=
  if decide (PMPCFG_STRIDE <= length pmp_n_cfg)%nat
  then Ret (word_bytes w ++ drop PMPCFG_STRIDE pmp_n_cfg)
  else Abort OutOfBounds.

Definition z_riscv_pmp_usermode_init (thread : k_thread) : k_thread :=
  Build_k_thread (stack_info_start thread) (stack_info_size thread)
    (u_mode_pmpaddr_regs thread) (u_mode_pmpcfg_regs thread)
    0%nat (u_mode_pmp_domain_offset thread) (u_mode_pmp_update_nr thread).

(** [PMP_U_MODE(thread)] passes the two arrays of the thread and
    [ARRAY_SIZE(thread->arch.u_mode_pmpaddr_regs)], which is
    [CONFIG_PMP_SLOTS]. *)
Definition z_riscv_pmp_usermode_prepare (g : pmp_globals) (thread : k_thread)
  : res k_thread :=
  let index := global_pmp_end_index g in
  cfg <- store_cfg_word0 (u_mode_pmpcfg_regs thread) (global_pmp_cfg g) ;;
  r <- set_pmp_entry index (Z.lor PMP_R PMP_W)
         (stack_info_start thread) (stack_info_size thread)
         (u_mode_pmpaddr_regs thread) cfg CONFIG_PMP_SLOTS ;;
  let '(_, index, addr, cfg) := r in
  Ret (Build_k_thread (stack_info_start thread) (stack_info_size thread)
         addr cfg index index 0).

(** The body of the loop of [resync_pmp_domain] for a partition of nonzero
    size, after [remaining_partitions--]. *)
Definition resync_partition (part : k_mem_partition)
    (st : nat * list Z * list Z) : res (nat * list Z * list Z) :=
  let '(index, addr, cfg) := st in
  if part_size part <? 4 then
    _ <- __ASSERT false ;;
    Ret st
  else
    r <- set_pmp_entry index (part_pmp_attr part) (part_start part)
           (part_size part) addr cfg CONFIG_PMP_SLOTS ;;
    let '(ok, index, addr, cfg) := r in
    _ <- __ASSERT ok ;;
    Ret (index, addr, cfg).

(** [for (p_idx = 0; remaining_partitions > 0; p_idx++)]: [parts] is the
    part of [domain->partitions] from [p_idx] on; reading
    [domain->partitions[p_idx]] past the end of the array is recorded as
    [OutOfBounds]. *)
Fixpoint resync_loop (parts : list k_mem_partition) (remaining_partitions : nat)
    (st : nat * list Z * list Z) {struct parts} : res (nat * list Z * list Z) :=
  match remaining_partitions with
  | O => Ret st
  | S remaining' =>
      match parts with
      | [] => Abort OutOfBounds
      | part :: rest =>
          if part_size part =? 0 then
            resync_loop rest remaining_partitions st
          else
            st' <- resync_partition part st ;;
            resync_loop rest remaining' st'
      end
  end.

(** [z_mem_domain_lock] is taken around the loop; the model is sequential. *)
Definition resync_pmp_domain (thread : k_thread) (domain : k_mem_domain)
  : res k_thread :=
  let index := u_mode_pmp_domain_offset thread in
  st <- resync_loop (partitions domain) (num_partitions domain)
          (index, u_mode_pmpaddr_regs thread, u_mode_pmpcfg_regs thread) ;;
  let '(index, addr, cfg) := st in
  Ret (Build_k_thread (stack_info_start thread) (stack_info_size thread)
         addr cfg index (u_mode_pmp_domain_offset thread)
         (pmp_update_nr domain)).

Definition with_cfg (thread : k_thread) (cfg : list Z) : k_thread :=
  Build_k_thread (stack_info_start thread) (stack_info_size thread)
    (u_mode_pmpaddr_regs thread) cfg (u_mode_pmp_end_index thread)
    (u_mode_pmp_domain_offset thread) (u_mode_pmp_update_nr thread).

(** [domain] is [thread->mem_domain_info.mem_domain]. *)
Definition z_riscv_pmp_usermode_enable (g : pmp_globals) (thread : k_thread)
    (domain : k_mem_domain) : M k_thread :=
  if (u_mode_pmp_end_index thread =? 0)%nat then M_ret thread
  else
    thread <~ (if negb (u_mode_pmp_update_nr thread =? pmp_update_nr domain)
               then _ <~ emit EvResync ;;
                    M_lift (resync_pmp_domain thread domain)
               else M_ret thread) ;;
    _ <~ (if CONFIG_PMP_STACK_GUARD then emit (EvCsrClear MSTATUS_MPRV)
          else M_ret tt) ;;
    cfg <~ write_pmp_entries (global_pmp_end_index g)
             (u_mode_pmp_end_index thread) true
             (u_mode_pmpaddr_regs thread) (u_mode_pmpcfg_regs thread)
             CONFIG_PMP_SLOTS ;;
    M_ret (with_cfg thread cfg).

Definition arch_mem_domain_init (domain : k_mem_domain) : k_mem_domain :=
  Build_k_mem_domain (partitions domain) (num_partitions domain) 0.

Definition arch_mem_domain_partition_add (domain : k_mem_domain)
    (partition_id : Z) : k_mem_domain :=
  Build_k_mem_domain (partitions domain) (num_partitions domain)
    (u32 (pmp_update_nr domain + 1)).

Definition arch_mem_domain_partition_remove (domain : k_mem_domain)
    (partition_id : Z) : k_mem_domain :=
  Build_k_mem_domain (partitions domain) (num_partitions domain)
    (u32 (pmp_update_nr domain + 1)).

Definition arch_mem_domain_thread_add (thread : k_thread) : k_thread :=
  Build_k_thread (stack_info_start thread) (stack_info_size thread)
    (u_mode_pmpaddr_regs thread) (u_mode_pmpcfg_regs thread)
    (u_mode_pmp_end_index thread) (u_mode_pmp_domain_offset thread) 0.

(** *** arch_buffer_validate *)

Definition IS_WITHIN (inner_start inner_size outer_start outer_size : Z) : bool :=
  (outer_start <=? inner_start) && (inner_size <=? outer_size)
  && (ulong (inner_start - outer_start) <=? ulong (outer_size - inner_size)).

(** The partition loop of [arch_buffer_validate]; the value handed back is
    [ret], which starts at [-1]. *)
Fixpoint validate_loop (parts : list k_mem_partition)
    (remaining_partitions : nat) (start size write : Z) {struct parts} : res Z :=
  match remaining_partitions with
  | O => Ret (-1)
  | S remaining' =>
      match parts with
      | [] => Abort OutOfBounds
      | part :: rest =>
          if part_size part =? 0 then
            validate_loop rest remaining_partitions start size write
          else if negb (IS_WITHIN start size (part_start part) (part_size part)) then
            validate_loop rest remaining' start size write
          else if negb (Z.land (part_pmp_attr part)
                          (if negb (write =? 0) then PMP_W else PMP_R) =? 0)
          then Ret 0
          else Ret (-1)
      end
  end.

(** [current] is [_current], [domain] its memory domain, and [ro_start],
    [ro_size] the linker symbols [__rom_region_start], [__rom_region_size]. *)
Definition arch_buffer_validate (current : k_thread) (domain : k_mem_domain)
    (ro_start ro_size : Z) (addr size write : Z) : res Z :=
  let start := addr in
  if IS_WITHIN start size (stack_info_start current) (stack_info_size current)
  then Ret 0
  else if (write =? 0) && IS_WITHIN start size ro_start ro_size then Ret 0
  else validate_loop (partitions domain) (num_partitions domain)
         start size write.

(** ** Vocabulary of the properties *)

(** The condition of the first rule of [set_pmp_entry]: the entry is the
    very first one and starts at address 0, or the address register of the
    preceding slot holds this start address. *)
Definition chains (index : nat) (start : Z) (pmp_addr : list Z) : Prop :=
  (index = 0%nat /\ start = 0) \/
  (index <> 0%nat /\ pmp_addr !! (index - 1)%nat = Some (PMP_ADDR start)).

(** The test of the second rule, as the code computes it. *)
Definition napot_test (start size : Z) : bool :=
  (Z.land size (ulong (size - 1)) =? 0)
  && (Z.land start (ulong (size - 1)) =? 0).

Definition is_pow2 (n : Z) : Prop := exists k : Z, 0 <= k /\ n = 2 ^ k.

(** [size] is a power of two and [start] is a multiple of it. *)
Definition naturally_aligned (start size : Z) : Prop :=
  is_pow2 size /\ start mod size = 0.

(** The flags the dump shows for a config byte. *)
Definition perm_r (perm : Z) : bool := negb (Z.land perm PMP_R =? 0).
Definition perm_w (perm : Z) : bool := negb (Z.land perm PMP_W =? 0).
Definition perm_x (perm : Z) : bool := negb (Z.land perm PMP_X =? 0).
Definition perm_locked (perm : Z) : bool := negb (Z.land perm PMP_L =? 0).

(** The address-matching mode of a config byte. *)
Definition cfg_mode (cfg : Z) : Z := Z.land cfg PMP_A.

(** The number of config bytes between [index] and the next register-word
    boundary at or after it. *)
Definition trailing (index : nat) : nat :=
  ((PMPCFG_STRIDE - index mod PMPCFG_STRIDE) mod PMPCFG_STRIDE)%nat.

(** [i] is at or after [end_] and before the next register-word boundary:
    no index from [end_] to [i] is a multiple of the stride. *)
Definition before_boundary (end_ i : nat) : Prop :=
  (end_ <= i)%nat /\
  forall j : nat, (end_ <= j <= i)%nat -> (j mod PMPCFG_STRIDE)%nat <> 0%nat.

(** The partitions the two partition loops get to see when nothing stops
    them early: the first [n] partitions of nonzero size, in array order. *)
Definition counted (parts : list k_mem_partition) (n : nat)
  : list k_mem_partition :=
  take n (List.filter nonempty parts).

(** The loop body of [resync_pmp_domain] run over a list of partitions of
    nonzero size, one after the other. *)
Fixpoint resync_all (ps : list k_mem_partition) (st : nat * list Z * list Z)
  : res (nat * list Z * list Z) :=
  match ps with
  | [] => Ret st
  | part :: rest => st' <- resync_partition part st ;; resync_all rest st'
  end.

(** [start, start + size) lies inside [outer_start, outer_start + outer_size),
    over the integers. *)
Definition inside (start size outer_start outer_size : Z) : Prop :=
  outer_start <= start /\ start + size <= outer_start + outer_size.

Definition inside_part (start size : Z) (part : k_mem_partition) : Prop :=
  inside start size (part_start part) (part_size part).

Definition within_part (start size : Z) (part : k_mem_partition) : bool :=
  IS_WITHIN start size (part_start part) (part_size part).

(** The partition attribute has the bit of the requested access. *)
Definition grants (part : k_mem_partition) (write : Z) : bool :=
  negb (Z.land (part_pmp_attr part)
          (if negb (write =? 0) then PMP_W else PMP_R) =? 0).

Definition part_in_range (part : k_mem_partition) : Prop :=
  0 <= part_start part < 2 ^ XLEN /\ 0 <= part_size part < 2 ^ XLEN.

(** The first counted partition that contains the range decides. *)
Definition first_match_grants (ps : list k_mem_partition)
    (addr size write : Z) : Prop :=
  exists (i : nat) (part : k_mem_partition),
    ps !! i = Some part /\
    inside_part addr size part /\ grants part write = true /\
    forall (j : nat) (q : k_mem_partition), (j < i)%nat ->
      ps !! j = Some q -> ~ inside_part addr size q.

(** The configuration of the validation example of the design document:
    a read-write partition [0x1000, +0x1000), a read-only partition
    [0x2000, +0x800) and the thread's own stack [0x3000, +0x1000). *)
Definition example_rw : k_mem_partition :=
  Build_k_mem_partition 0x1000 0x1000 (Z.lor PMP_R PMP_W).
Definition example_ro : k_mem_partition :=
  Build_k_mem_partition 0x2000 0x800 PMP_R.
Definition example_domain : k_mem_domain :=
  Build_k_mem_domain [example_rw; example_ro] 2 0.
Definition example_thread : k_thread :=
  Build_k_thread 0x3000 0x1000 [] [] 0 0 0.

(** The tail of [z_riscv_pmp_usermode_enable], after the staleness check. *)
Definition enable_tail (g : pmp_globals) (thread : k_thread) : M k_thread :=
  _ <~ (if CONFIG_PMP_STACK_GUARD then emit (EvCsrClear MSTATUS_MPRV)
        else M_ret tt) ;;
  cfg <~ write_pmp_entries (global_pmp_end_index g)
           (u_mode_pmp_end_index thread) true
           (u_mode_pmpaddr_regs thread) (u_mode_pmpcfg_regs thread)
           CONFIG_PMP_SLOTS ;;
  M_ret (with_cfg thread cfg).

(** Concrete stores, partitions and threads used in the instances at the
    end of the development. *)
Definition slots8 : list Z := repeat 0 8.
Definition ones8 : list Z := repeat 1 8.
Definition overlap_ro : k_mem_partition :=
  Build_k_mem_partition 0x1000 0x1000 PMP_R.
Definition overlap_rw : k_mem_partition :=
  Build_k_mem_partition 0x1000 0x1000 (Z.lor PMP_R PMP_W).
Definition demo_globals : pmp_globals := Build_pmp_globals 0x8d 1.
Definition demo_thread : k_thread :=
  Build_k_thread 0x3000 0x1000 slots8 slots8 0 0 0.
Definition demo_synced : k_thread :=
  Build_k_thread 0x3000 0x1000 [0; 0xDFF; 0; 0; 0; 0; 0; 0]
    [0x8d; 0x1b; 0; 0; 0; 0; 0; 0] 2 2 0.

(** What the dump shows for the slots of a partition. *)
Definition part_range (part : k_mem_partition) : pmp_range :=
  Build_pmp_range (part_start part)
    (ulong (part_start part + part_size part - 1))
    (perm_r (part_pmp_attr part)) (perm_w (part_pmp_attr part))
    (perm_x (part_pmp_attr part)) (perm_locked (part_pmp_attr part)).

(** The fields of a partition are in the range of their C types, and the
    attribute is a permission byte. *)
Definition part_encodable (part : k_mem_partition) : Prop :=
  part_in_range part /\
  0 <= part_pmp_attr part < 256 /\ Z.land (part_pmp_attr part) PMP_A = 0.

(** [int] truncation (two's complement). *)
Definition s32 (x : Z) : Z := (x + 2 ^ 31) mod 2 ^ 32 - 2 ^ 31.

(** [available_pmp_slots] starts at [CONFIG_PMP_SLOTS], loses the global
    entries and then one slot for the stack of the user thread. *)
Definition arch_mem_domain_max_partitions_get (g : pmp_globals) : Z :=
  let available_pmp_slots := s32 (Z.of_nat CONFIG_PMP_SLOTS) in
  let available_pmp_slots :=
    s32 (available_pmp_slots - Z.of_nat (global_pmp_end_index g)) in
  let available_pmp_slots := s32 (available_pmp_slots - 1) in
  available_pmp_slots.

(** A sequence of partition additions ([true]) and removals ([false]) on a
    domain, as the kernel reports them through the two hooks. *)
Fixpoint domain_mutations (ms : list (bool * Z)) (domain : k_mem_domain)
  : k_mem_domain :=
  match ms with
  | [] => domain
  | (true, partition_id) :: rest =>
      domain_mutations rest (arch_mem_domain_partition_add domain partition_id)
  | (false, partition_id) :: rest =>
      domain_mutations rest (arch_mem_domain_partition_remove domain partition_id)
  end.

(** *** z_riscv_pmp_init *)

Variable CONFIG_SMP : bool.
(** Modelled from the spec: the size of the inaccessible guard region at
    the bottom of a stack, a constant of the architecture headers. *)
Variable Z_RISCV_STACK_GUARD_SIZE : Z.

(** The value of a [ulong_t] whose bytes in memory order are [bs]. *)
Fixpoint word_of_bytes (bs : list Z) : Z :=
  match bs with
  | [] => 0
  | b :: rest => Z.lor b (Z.shiftl (word_of_bytes rest) 8)
  end.

(** [pmp_cfg[0]] as an rvalue on the byte view of the array. *)
Definition load_cfg_word0 (pmp_n_cfg : list Z) : res Z :=
  if decide (PMPCFG_STRIDE <= length pmp_n_cfg)%nat
  then Ret (word_of_bytes (take PMPCFG_STRIDE pmp_n_cfg))
  else Abort OutOfBounds.

(** The entries [z_riscv_pmp_init] builds in its local arrays
    [pmp_addr[4]] and [pmp_cfg[1]]: the read-only area, and with
    [CONFIG_PMP_STACK_GUARD] the guard of the interrupt stack of this CPU
    ([irq_stack] is [z_interrupt_stacks[_current_cpu->id]]).  The results
    of [set_pmp_entry] are not looked at. *)
Definition init_entries (rom_region_start rom_region_size irq_stack : Z)
    (pmp_addr pmp_n_cfg : list Z) : res (nat * list Z * list Z) :=
  r <- set_pmp_entry 0 (Z.lor (Z.lor PMP_R PMP_X) PMP_L)
         rom_region_start rom_region_size pmp_addr pmp_n_cfg 4 ;;
  let '(_, index, pmp_addr, pmp_n_cfg) := r in
  r <- (if CONFIG_PMP_STACK_GUARD
        then set_pmp_entry index PMP_NONE irq_stack Z_RISCV_STACK_GUARD_SIZE
               pmp_addr pmp_n_cfg 4
        else Ret (true, index, pmp_addr, pmp_n_cfg)) ;;
  let '(_, index, pmp_addr, pmp_n_cfg) := r in
  Ret (index, pmp_addr, pmp_n_cfg).

(** [g] holds the two file-scope variables on entry, [pmp_addr] and
    [pmp_n_cfg] what the uninitialized local arrays happen to hold.  The
    register dump under [PMP_DEBUG_DUMP], which is 0, is left out. *)
Definition z_riscv_pmp_init (g : pmp_globals)
    (rom_region_start rom_region_size irq_stack : Z)
    (pmp_addr pmp_n_cfg : list Z) : M pmp_globals :=
  st <~ M_lift (init_entries rom_region_start rom_region_size irq_stack
                  pmp_addr pmp_n_cfg) ;;
  let '(index, pmp_addr, pmp_n_cfg) := st in
  pmp_n_cfg <~ write_pmp_entries 0 index true pmp_addr pmp_n_cfg 4 ;;
  _ <~ M_lift (if CONFIG_SMP && negb (global_pmp_end_index g =? 0)%nat
               then _ <- __ASSERT (global_pmp_end_index g =? index)%nat ;;
                    w <- load_cfg_word0 pmp_n_cfg ;;
                    __ASSERT (global_pmp_cfg g =? w)
               else Ret tt) ;;
  w <~ M_lift (load_cfg_word0 pmp_n_cfg) ;;
  M_ret (Build_pmp_globals w index).

(** *** The m-mode stack guard *)

Variable CONFIG_USERSPACE : bool.
Variable CONFIG_QEMU_TARGET : bool.
(** Modelled from the spec: the sizes reserved below the stack buffer of a
    kernel stack and of a user-capable thread stack, constants of the
    kernel headers. *)
Variable K_KERNEL_STACK_RESERVED : Z.
Variable K_THREAD_STACK_RESERVED : Z.

(** Modelled from the spec: the mask of the previous-privilege field of
    [mstatus], from arch/riscv/csr.h, with its value in the RISC-V
    privileged architecture. *)
Definition MSTATUS_MPP : Z := 0x00001800.

(** Modelled from the spec: the fields of [struct k_thread] that the two
    stack-guard functions read and write: [stack_info.start],
    [arch.priv_stack_start], the privileged shadow arrays (the config one
    as bytes) with their end index, and the answer of
    [z_stack_is_user_capable(thread->stack_obj)], a kernel function that
    is not part of the sources at hand. *)
Record m_mode_thread : Type := Build_m_mode_thread {
  m_stack_info_start : Z;
  priv_stack_start : Z;
  stack_is_user_capable : bool;
  m_mode_pmpaddr_regs : list Z;
  m_mode_pmpcfg_regs : list Z;
  m_mode_pmp_end_index : nat
}.

(** The value of the local [stack_bottom] of
    [z_riscv_pmp_stackguard_prepare] at the first [set_pmp_entry]. *)
Definition stack_bottom (thread : m_mode_thread) : Z :=
  let stack_bottom := ulong (m_stack_info_start thread - K_KERNEL_STACK_RESERVED) in
  if CONFIG_USERSPACE then
    if negb (priv_stack_start thread =? 0) then priv_stack_start thread
    else if stack_is_user_capable thread
         then ulong (m_stack_info_start thread - K_THREAD_STACK_RESERVED)
         else stack_bottom
  else stack_bottom.

(** [PMP_M_MODE(thread)] passes the two arrays of the thread and
    [ARRAY_SIZE(thread->arch.m_mode_pmpaddr_regs)], the length of the
    first.  The results of [set_pmp_entry] are not looked at.  [index - 1]
    is computed on [unsigned int]: at [index = 0] it is far beyond the
    array. *)
Definition z_riscv_pmp_stackguard_prepare (g : pmp_globals)
    (thread : m_mode_thread) : res m_mode_thread :=
  let index := global_pmp_end_index g in
  let index_limit := length (m_mode_pmpaddr_regs thread) in
  cfg <- store_cfg_word0 (m_mode_pmpcfg_regs thread) (global_pmp_cfg g) ;;
  r <- set_pmp_entry index PMP_NONE
         (stack_bottom thread) Z_RISCV_STACK_GUARD_SIZE
         (m_mode_pmpaddr_regs thread) cfg index_limit ;;
  let '(_, index, addr, cfg) := r in
  r <- set_pmp_entry index (Z.lor (Z.lor PMP_R PMP_W) PMP_X) 0 0
         addr cfg index_limit ;;
  let '(_, index, addr, cfg) := r in
  addr <- (if CONFIG_QEMU_TARGET
           then if (index =? 0)%nat then Abort OutOfBounds
                else store addr (index - 1) (ulong (-1))
           else Ret addr) ;;
  Ret (Build_m_mode_thread (m_stack_info_start thread)
         (priv_stack_start thread) (stack_is_user_capable thread)
         addr cfg index).

(** The events of [z_riscv_pmp_stackguard_enable]: those of the functions
    above, and [csr_set] on [mstatus]. *)
Inductive mstatus_event : Type :=
| EvPmp (e : event)
| EvCsrSet (mask : Z).

(** The register dump under [PMP_DEBUG_DUMP], which is 0, is left out.
    The events of [write_pmp_entries] are appended to the log as they
    come. *)
Definition z_riscv_pmp_stackguard_enable (g : pmp_globals)
    (thread : m_mode_thread) (log : list mstatus_event)
  : res m_mode_thread * list mstatus_event :=
  let log := log ++ [EvPmp (EvCsrClear (Z.lor MSTATUS_MPRV MSTATUS_MPP))] in
  match write_pmp_entries (global_pmp_end_index g)
          (m_mode_pmp_end_index thread) false
          (m_mode_pmpaddr_regs thread) (m_mode_pmpcfg_regs thread)
          (length (m_mode_pmpaddr_regs thread)) [] with
  | (Ret cfg, evs) =>
      (Ret (Build_m_mode_thread (m_stack_info_start thread)
              (priv_stack_start thread) (stack_is_user_capable thread)
              (m_mode_pmpaddr_regs thread) cfg (m_mode_pmp_end_index thread)),
       log ++ map EvPmp evs ++ [EvCsrSet MSTATUS_MPRV])
  | (Abort f, evs) => (Abort f, log ++ map EvPmp evs)
  end.

(** The guard and the fallback entry, as the dump shows them. *)
Definition guard_range (thread : m_mode_thread) : pmp_range :=
  Build_pmp_range (stack_bottom thread)
    (ulong (stack_bottom thread + Z_RISCV_STACK_GUARD_SIZE - 1))
    false false false false.

Definition fallback_range : pmp_range :=
  Build_pmp_range 0 (2 ^ XLEN - 1) true true true false.

(** Further concrete inputs of the instances: a domain two generations
    ahead of [demo_synced], a second thread at the same domain offset, the
    uninitialized locals and the globals before [z_riscv_pmp_init], and a
    privileged thread with its stack at [0x4000]. *)
Definition demo_domain : k_mem_domain :=
  Build_k_mem_domain [example_rw; example_ro] 2 3.
Definition demo_other : k_thread :=
  Build_k_thread 0x5000 0x1000 [7; 0xDFF; 9; 9; 9; 9; 9; 9] ones8 2 2 0.
Definition slots4 : list Z := repeat 0 4.
Definition ones4 : list Z := repeat 1 4.
Definition boot_globals : pmp_globals := Build_pmp_globals 0 0.
Definition demo_m_thread : m_mode_thread :=
  Build_m_mode_thread 0x4000 0 false slots8 slots8 0.

(** * Properties *)

(** ** Bit arithmetic *)

Lemma pow2_land_pred (n : Z) :
  0 < n -> Z.land n (n - 1) = 0 -> n = 2 ^ Z.log2 n.
Proof.
  intros Hn Hl.
  destruct (Z.log2_spec n Hn) as [Hlo Hhi].
  destruct (Z.eq_dec n (2 ^ Z.log2 n)) as [|Hne]; [assumption|exfalso].
  pose proof (Z.pow_pos_nonneg 2 (Z.log2 n) ltac:(lia) (Z.log2_nonneg n)) as Hp.
  assert (Hk : Z.log2 (n - 1) = Z.log2 n).
  { apply Z.log2_unique; [apply Z.log2_nonneg|].
    rewrite <- Z.add_1_r in Hhi |- *. lia. }
  assert (Hb : Z.testbit (Z.land n (n - 1)) (Z.log2 n) = true).
  { rewrite Z.land_spec, Z.bit_log2 by lia.
    rewrite <- Hk. rewrite Z.bit_log2 by lia. reflexivity. }
  rewrite Hl, Z.bits_0 in Hb. discriminate.
Qed.

Lemma land_pred_pow2_mod (a k : Z) :
  0 <= k -> Z.land a (2 ^ k - 1) = a mod 2 ^ k.
Proof.
  intros Hk. replace (2 ^ k - 1) with (Z.ones k) by (rewrite Z.ones_equiv; lia).
  apply Z.land_ones; lia.
Qed.

Lemma land_pow2_pred (k : Z) : 0 <= k -> Z.land (2 ^ k) (2 ^ k - 1) = 0.
Proof.
  intros Hk. rewrite land_pred_pow2_mod by lia. apply Z.mod_same.
  pose proof (Z.pow_pos_nonneg 2 k); lia.
Qed.

Lemma land_high_low (a k x : Z) :
  0 <= k -> 0 <= x < 2 ^ k -> Z.land (a * 2 ^ k) x = 0.
Proof.
  intros Hk Hx. apply Z.bits_inj'. intros i Hi.
  rewrite Z.land_spec, Z.bits_0.
  destruct (Z.lt_ge_cases i k) as [Hlt|Hge].
  - rewrite Z.mul_pow2_bits_low by lia. reflexivity.
  - rewrite <- (Z.mod_small x (2 ^ k)) by lia.
    rewrite Z.mod_pow2_bits_high by lia. apply andb_false_r.
Qed.

Lemma lor_high_low (a k x : Z) :
  0 <= k -> 0 <= x < 2 ^ k -> Z.lor (a * 2 ^ k) x = a * 2 ^ k + x.
Proof.
  intros Hk Hx. pose proof (land_high_low a k x Hk Hx) as H0.
  rewrite <- (Z.lxor_lor _ _ H0). symmetry. apply Z.add_nocarry_lxor. exact H0.
Qed.

Lemma land_3_mod4 (a : Z) : Z.land a 3 = a mod 4.
Proof. apply (land_pred_pow2_mod a 2). lia. Qed.

Lemma XLEN_ge : 32 <= XLEN.
Proof. unfold XLEN. destruct CONFIG_64BIT; lia. Qed.

Lemma pow2_XLEN : 2 ^ XLEN = 4 * 2 ^ (XLEN - 2) /\ 0 < 2 ^ (XLEN - 2).
Proof.
  pose proof XLEN_ge. split.
  - replace XLEN with (2 + (XLEN - 2)) at 1 by lia.
    rewrite Z.pow_add_r by lia. reflexivity.
  - apply Z.pow_pos_nonneg; lia.
Qed.

Lemma ulong_small (x : Z) : 0 <= x < 2 ^ XLEN -> ulong x = x.
Proof. apply Z.mod_small. Qed.

Lemma ulong_range (x : Z) : 0 <= ulong x < 2 ^ XLEN.
Proof. apply Z.mod_pos_bound. pose proof pow2_XLEN. lia. Qed.

Lemma ulong_mod4 (x : Z) : ulong x mod 4 = x mod 4.
Proof.
  unfold ulong. destruct pow2_XLEN as [HW Hp].
  apply Z.mod_mod_divide. exists (2 ^ (XLEN - 2)). lia.
Qed.

(** Shifting an aligned address right and left by two gives it back. *)
Lemma PMP_ADDR_shiftl (x : Z) :
  0 <= x < 2 ^ XLEN -> x mod 4 = 0 -> ulong (Z.shiftl (PMP_ADDR x) 2) = x.
Proof.
  intros Hx Ha. unfold PMP_ADDR.
  rewrite Z.shiftr_div_pow2, Z.shiftl_mul_pow2 by lia.
  change (2 ^ 2) with 4.
  replace (x / 4 * 4) with x by (pose proof (Z.div_mod x 4); lia).
  apply ulong_small; assumption.
Qed.

Lemma lor_lor_distr (a b c : Z) :
  Z.lor (Z.lor a b) (Z.lor a c) = Z.lor a (Z.lor b c).
Proof.
  apply Z.bits_inj'. intros i _. rewrite !Z.lor_spec.
  destruct (Z.testbit a i), (Z.testbit b i), (Z.testbit c i); reflexivity.
Qed.

(** A block aligned to its power-of-two size ends inside the address space. *)
Lemma aligned_block_fits (start k : Z) :
  0 <= k -> 0 <= start < 2 ^ XLEN -> 2 ^ k < 2 ^ XLEN ->
  start mod 2 ^ k = 0 -> start + 2 ^ k <= 2 ^ XLEN.
Proof.
  intros Hk Hs Hlt Hm. pose proof XLEN_ge as HX.
  assert (Hkx : k < XLEN) by (apply (Z.pow_lt_mono_r_iff 2); lia).
  assert (Hp : 0 < 2 ^ k) by (apply Z.pow_pos_nonneg; lia).
  assert (HW : 2 ^ XLEN = 2 ^ (XLEN - k) * 2 ^ k).
  { rewrite <- Z.pow_add_r by lia. f_equal. lia. }
  pose proof (Z.div_mod start (2 ^ k) ltac:(lia)) as Hd.
  rewrite Hm in Hd. rewrite HW in *.
  assert (start / 2 ^ k < 2 ^ (XLEN - k)) by nia. nia.
Qed.

(** The address register of a NAPOT entry, and what the dump reads back
    from it. *)
Lemma napot_roundtrip (start k : Z) :
  3 <= k -> 0 <= start < 2 ^ XLEN -> 2 ^ k < 2 ^ XLEN ->
  start mod 2 ^ k = 0 ->
  let tmp := Z.lor (ulong (Z.shiftl (PMP_ADDR_NAPOT start (2 ^ k)) 2)) 3 in
  Z.land tmp (ulong (tmp + 1)) = start /\
  Z.lor tmp (ulong (tmp + 1)) = start + 2 ^ k - 1.
Proof.
  intros Hk Hs Hlt Hm.
  pose proof (aligned_block_fits start k ltac:(lia) Hs Hlt Hm) as Hfit.
  set (h := 2 ^ (k - 1)).
  assert (Hh : 2 ^ k = 2 * h).
  { unfold h. replace k with (1 + (k - 1)) at 1 by lia.
    rewrite Z.pow_add_r by lia. reflexivity. }
  assert (Hh4 : h = 4 * 2 ^ (k - 3)).
  { unfold h. replace (k - 1) with (2 + (k - 3)) by lia.
    rewrite Z.pow_add_r by lia. reflexivity. }
  assert (Hq : 0 < 2 ^ (k - 3)) by (apply Z.pow_pos_nonneg; lia).
  pose proof (Z.div_mod start (2 ^ k) ltac:(lia)) as Hd. rewrite Hm in Hd.
  set (m := start / 2 ^ k) in *.
  assert (HA : start = m * 2 ^ k) by lia.
  assert (Hrange : NAPOT_RANGE (2 ^ k) = h - 1).
  { unfold NAPOT_RANGE. rewrite ulong_small by lia.
    rewrite Z.shiftr_div_pow2 by lia. change (2 ^ 1) with 2.
    rewrite Hh. symmetry. apply Z.div_unique with (r := 1); lia. }
  assert (Haddr : Z.shiftl (PMP_ADDR_NAPOT start (2 ^ k)) 2 = start + h - 4).
  { unfold PMP_ADDR_NAPOT, PMP_ADDR. rewrite Hrange.
    rewrite HA at 1. rewrite lor_high_low by lia. rewrite <- HA.
    rewrite Z.shiftr_div_pow2, Z.shiftl_mul_pow2 by lia. change (2 ^ 2) with 4.
    replace ((start + (h - 1)) / 4) with (m * (2 * 2 ^ (k - 3)) + 2 ^ (k - 3) - 1).
    - nia.
    - apply Z.div_unique with (r := 3); nia. }
  cbv zeta. rewrite Haddr. rewrite ulong_small by lia.
  assert (Htmp : Z.lor (start + h - 4) 3 = start + h - 1).
  { replace (start + h - 4) with
      ((m * (2 * 2 ^ (k - 3)) + 2 ^ (k - 3) - 1) * 2 ^ 2) by (change (2 ^ 2) with 4; nia).
    rewrite lor_high_low by lia. change (2 ^ 2) with 4. nia. }
  rewrite Htmp. replace (start + h - 1 + 1) with (start + h) by lia.
  rewrite ulong_small by lia.
  assert (H1 : start + h - 1 = Z.lor start (h - 1)).
  { rewrite HA at 2. rewrite lor_high_low by lia. lia. }
  assert (H2 : start + h = Z.lor start h).
  { rewrite HA at 2. rewrite lor_high_low by lia. lia. }
  rewrite H1, H2. split.
  - rewrite <- Z.lor_land_distr_r.
    rewrite (Z.land_comm (h - 1) h). unfold h.
    rewrite land_pow2_pred by lia. apply Z.lor_0_r.
  - rewrite lor_lor_distr.
    assert (H3 : Z.lor (h - 1) h = 2 ^ k - 1).
    { rewrite Z.lor_comm. replace h with (1 * 2 ^ (k - 1)) at 1 by (unfold h; lia).
      rewrite lor_high_low by (fold h; lia). fold h. lia. }
    rewrite H3. rewrite HA at 1. rewrite lor_high_low by lia. lia.
Qed.

(** The address register of an NA4 entry. *)
Lemma na4_addr (start : Z) :
  0 <= start < 2 ^ XLEN -> start mod 4 = 0 ->
  PMP_ADDR_NAPOT start 4 = PMP_ADDR start.
Proof.
  intros Hs Ha. unfold PMP_ADDR_NAPOT, NAPOT_RANGE, PMP_ADDR.
  pose proof pow2_XLEN as [HW Hp].
  rewrite ulong_small by lia. change (Z.shiftr (4 - 1) 1) with 1.
  pose proof (Z.div_mod start 4 ltac:(lia)) as Hd. rewrite Ha in Hd.
  replace start with ((start / 4) * 2 ^ 2) at 1 by (change (2 ^ 2) with 4; lia).
  rewrite lor_high_low by lia. rewrite !Z.shiftr_div_pow2 by lia.
  change (2 ^ 2) with 4. symmetry. apply Z.div_unique with (r := 1); lia.
Qed.

(** ** Inversion of the result monad *)

Lemma res_bind_Ret {A B : Type} (m : res A) (k : A -> res B) (b : B) :
  res_bind m k = Ret b -> exists a, m = Ret a /\ k a = Ret b.
Proof. destruct m as [a|f]; simpl; [eauto | discriminate]. Qed.

Lemma load_Ret (a : list Z) (i : nat) (v : Z) :
  load a i = Ret v -> a !! i = Some v.
Proof. unfold load. destruct (a !! i); congruence. Qed.

Lemma load_lookup (a : list Z) (i : nat) (v : Z) :
  a !! i = Some v -> load a i = Ret v.
Proof. unfold load. intros ->. reflexivity. Qed.

Lemma store_Ret (a : list Z) (i : nat) (v : Z) (a' : list Z) :
  store a i v = Ret a' -> (i < length a)%nat /\ a' = <[i := v]> a.
Proof. unfold store. destruct (decide (i < length a)%nat); [|discriminate].
  intros [= <-]. auto. Qed.

Lemma store_lt (a : list Z) (i : nat) (v : Z) :
  (i < length a)%nat -> store a i v = Ret (<[i := v]> a).
Proof. unfold store. intros H. destruct (decide (i < length a)%nat); [reflexivity | contradiction]. Qed.

Lemma ASSERT_true : __ASSERT true = Ret tt.
Proof. unfold __ASSERT. rewrite andb_false_r. reflexivity. Qed.

Ltac inv_res H :=
  repeat match type of H with
  | res_bind _ _ = Ret _ =>
      let x := fresh "x" in let Hx := fresh "Hx" in
      apply res_bind_Ret in H; destruct H as (x & Hx & H)
  end.

(** ** set_pmp_entry, case by case *)

Lemma chains_dec (index : nat) (start : Z) (pmp_addr : list Z) (b : bool) :
  (if (index =? 0)%nat then Ret (start =? 0)
   else p <- load pmp_addr (index - 1) ;; Ret (p =? PMP_ADDR start)) = Ret b ->
  (b = true <-> chains index start pmp_addr).
Proof.
  unfold chains. destruct (Nat.eqb_spec index 0) as [->|Hi].
  - intros [= <-]. rewrite Z.eqb_eq. intuition congruence.
  - intros H. inv_res H. apply load_Ret in Hx. injection H as <-.
    rewrite Z.eqb_eq. split.
    + intros <-. auto.
    + intros [[? _]|[_ Hl]]; congruence.
Qed.

Lemma set_pmp_entry_true (index : nat) (perm start size : Z)
    (pmp_addr pmp_n_cfg : list Z) (index_limit index' : nat)
    (pmp_addr' pmp_n_cfg' : list Z) :
  set_pmp_entry index perm start size pmp_addr pmp_n_cfg index_limit
    = Ret (true, index', pmp_addr', pmp_n_cfg') ->
  (index < index_limit)%nat /\ (index < length pmp_addr)%nat /\
  (index < length pmp_n_cfg)%nat /\
  ((chains index start pmp_addr /\ index' = (index + 1)%nat /\
    pmp_addr' = <[index := PMP_ADDR (ulong (start + size))]> pmp_addr /\
    pmp_n_cfg' = <[index := u8 (Z.lor perm PMP_TOR)]> pmp_n_cfg)
   \/
   (~ chains index start pmp_addr /\ napot_test start size = true /\
    index' = (index + 1)%nat /\
    pmp_addr' = <[index := PMP_ADDR_NAPOT start size]> pmp_addr /\
    pmp_n_cfg' = <[index := u8 (Z.lor perm (if size =? 4 then PMP_NA4
                                             else PMP_NAPOT))]> pmp_n_cfg)
   \/
   (~ chains index start pmp_addr /\ napot_test start size = false /\
    (index + 1 < index_limit)%nat /\ (index + 1 < length pmp_addr)%nat /\
    (index + 1 < length pmp_n_cfg)%nat /\ index' = (index + 2)%nat /\
    pmp_addr' = <[(index + 1)%nat := PMP_ADDR (ulong (start + size))]>
                  (<[index := PMP_ADDR start]> pmp_addr) /\
    pmp_n_cfg' = <[(index + 1)%nat := u8 (Z.lor perm PMP_TOR)]>
                   (<[index := 0]> pmp_n_cfg))).
Proof.
  unfold set_pmp_entry. intros H. inv_res H.
  destruct (Nat.leb_spec index_limit index) as [Hle|Hlt]; [discriminate|].
  inv_res H. pose proof (chains_dec _ _ _ _ Hx1) as Hch.
  destruct x1.
  - inv_res H. apply store_Ret in Hx2 as [? ->]. apply store_Ret in Hx3 as [? ->].
    injection H as <- <- <-. repeat split; try assumption.
    left. repeat split; try reflexivity. apply Hch. reflexivity.
  - assert (Hn : ~ chains index start pmp_addr)
      by (intros Hc; apply Hch in Hc; discriminate).
    fold (napot_test start size) in H.
    destruct (napot_test start size) eqn:Hnp.
    + inv_res H. apply store_Ret in Hx2 as [? ->]. apply store_Ret in Hx3 as [? ->].
      injection H as <- <- <-. repeat split; try assumption.
      right; left. repeat split; auto.
    + destruct (Nat.leb_spec index_limit (index + 1)) as [Hle'|Hlt']; [discriminate|].
      inv_res H.
      apply store_Ret in Hx2 as [? ->]. apply store_Ret in Hx3 as [? ->].
      apply store_Ret in Hx4 as [? ->]. apply store_Ret in Hx5 as [? ->].
      rewrite length_insert in *.
      injection H as <- <- <-. repeat split; try assumption.
      right; right. repeat split; auto.
Qed.

(** A failed call hands back what it was given. *)
Lemma set_pmp_entry_false (index : nat) (perm start size : Z)
    (pmp_addr pmp_n_cfg : list Z) (index_limit index' : nat)
    (pmp_addr' pmp_n_cfg' : list Z) :
  set_pmp_entry index perm start size pmp_addr pmp_n_cfg index_limit
    = Ret (false, index', pmp_addr', pmp_n_cfg') ->
  index' = index /\ pmp_addr' = pmp_addr /\ pmp_n_cfg' = pmp_n_cfg /\
  ((index_limit <= index)%nat \/
   (~ chains index start pmp_addr /\ napot_test start size = false /\
    (index_limit <= index + 1)%nat)).
Proof.
  unfold set_pmp_entry. intros H. inv_res H.
  destruct (Nat.leb_spec index_limit index) as [Hle|Hlt].
  { injection H as <- <- <-. auto. }
  inv_res H. pose proof (chains_dec _ _ _ _ Hx1) as Hch.
  destruct x1.
  - inv_res H. discriminate.
  - assert (Hn : ~ chains index start pmp_addr)
      by (intros Hc; apply Hch in Hc; discriminate).
    fold (napot_test start size) in H.
    destruct (napot_test start size) eqn:Hnp.
    + inv_res H. discriminate.
    + destruct (Nat.leb_spec index_limit (index + 1)) as [Hle'|Hlt'].
      * injection H as <- <- <-. auto 10.
      * inv_res H. discriminate.
Qed.

(** ** The test of the second rule *)

Lemma ulong_m1 : ulong (0 - 1) = 2 ^ XLEN - 1.
Proof.
  unfold ulong. pose proof pow2_XLEN as [HW Hp].
  symmetry. apply Z.mod_unique with (q := -1); lia.
Qed.

Lemma is_pow2_pos (n : Z) : is_pow2 n -> 0 < n.
Proof. intros (k & Hk & ->). apply Z.pow_pos_nonneg; lia. Qed.

Lemma napot_test_spec (start size : Z) :
  0 <= start < 2 ^ XLEN -> 0 <= size < 2 ^ XLEN ->
  napot_test start size = true <->
  naturally_aligned start size \/ (start = 0 /\ size = 0).
Proof.
  intros Hs Hz. unfold napot_test, naturally_aligned.
  rewrite andb_true_iff, !Z.eqb_eq. split.
  - intros [H1 H2]. destruct (Z.eq_dec size 0) as [->|Hnz].
    + right. split; [|reflexivity].
      rewrite ulong_m1, land_pred_pow2_mod in H2 by (pose proof XLEN_ge; lia).
      rewrite Z.mod_small in H2; lia.
    + left. rewrite ulong_small in H1, H2 by lia.
      pose proof (pow2_land_pred size ltac:(lia) H1) as Hp.
      pose proof (Z.log2_nonneg size) as Hk.
      remember (Z.log2 size) as k eqn:Ek. clear Ek. subst size.
      split.
      * exists k. split; [assumption | reflexivity].
      * rewrite land_pred_pow2_mod in H2 by assumption. exact H2.
  - intros [[Hp Hm]|[-> ->]].
    + pose proof (is_pow2_pos _ Hp) as Hpos. destruct Hp as (k & Hk & ->).
      rewrite ulong_small by lia. split.
      * apply land_pow2_pred; assumption.
      * rewrite land_pred_pow2_mod by assumption. exact Hm.
    + split; apply Z.land_0_l.
Qed.

(** An aligned power of two is 4 or at least 8, and its exponent is known. *)
Lemma pow2_aligned (size : Z) :
  is_pow2 size -> size mod 4 = 0 ->
  exists k, 2 <= k /\ size = 2 ^ k.
Proof.
  intros (k & Hk & ->) Hm. exists k. split; [|reflexivity].
  destruct (Z.lt_ge_cases k 2) as [Hlt|]; [exfalso|assumption].
  assert (k = 0 \/ k = 1) as [-> | ->] by lia; discriminate.
Qed.

(** ** Config bytes *)

Lemma u8_land (x : Z) : u8 x = Z.land x 255.
Proof. unfold u8. symmetry. apply (land_pred_pow2_mod x 8). lia. Qed.

Lemma u8_small (x : Z) : 0 <= x < 256 -> u8 x = x.
Proof. apply Z.mod_small. Qed.

(** A permission byte with an empty A field, combined with a matching mode. *)
Lemma cfg_byte (perm mode : Z) :
  0 <= perm < 256 -> Z.land perm PMP_A = 0 ->
  mode = PMP_TOR \/ mode = PMP_NA4 \/ mode = PMP_NAPOT ->
  u8 (Z.lor perm mode) = Z.lor perm mode /\
  cfg_mode (Z.lor perm mode) = mode /\
  perm_r (Z.lor perm mode) = perm_r perm /\
  perm_w (Z.lor perm mode) = perm_w perm /\
  perm_x (Z.lor perm mode) = perm_x perm /\
  perm_locked (Z.lor perm mode) = perm_locked perm.
Proof.
  intros Hp HA Hm.
  assert (H255 : Z.land perm 255 = perm).
  { rewrite <- u8_land. apply u8_small. assumption. }
  unfold cfg_mode, perm_r, perm_w, perm_x, perm_locked.
  rewrite u8_land, !Z.land_lor_distr_l, H255, HA.
  destruct Hm as [-> | [-> | ->]]; cbn;
    rewrite ?Z.lor_0_r; repeat split; reflexivity.
Qed.

(** ** The dump, entry by entry *)

Lemma print_pmp_entry_tor (index : nat) (pmp_addr pmp_n_cfg : list Z)
    (a cfg s : Z) :
  pmp_n_cfg !! index = Some cfg -> pmp_addr !! index = Some a ->
  cfg_mode cfg = PMP_TOR ->
  match index with
  | O => s = 0
  | S j => exists p, pmp_addr !! j = Some p /\ s = ulong (Z.shiftl p 2)
  end ->
  ulong (ulong (Z.shiftl a 2) - 1) <> 0 ->
  print_pmp_entry index pmp_addr pmp_n_cfg =
    Ret (LineRange index a cfg s (ulong (ulong (Z.shiftl a 2) - 1))
           (perm_r cfg) (perm_w cfg) (perm_x cfg) (perm_locked cfg)).
Proof.
  intros Hc Ha Hm Hs He. unfold print_pmp_entry.
  rewrite (load_lookup _ _ _ Hc), (load_lookup _ _ _ Ha). simpl.
  unfold cfg_mode in Hm. rewrite Hm. simpl.
  destruct index as [|j].
  - subst s. simpl. apply Z.eqb_neq in He. rewrite He. reflexivity.
  - destruct Hs as (p & Hp & ->). simpl. rewrite Nat.sub_0_r.
    rewrite (load_lookup _ _ _ Hp). simpl.
    apply Z.eqb_neq in He. rewrite He. reflexivity.
Qed.

Lemma print_pmp_entry_na4 (index : nat) (pmp_addr pmp_n_cfg : list Z)
    (a cfg : Z) :
  pmp_n_cfg !! index = Some cfg -> pmp_addr !! index = Some a ->
  cfg_mode cfg = PMP_NA4 ->
  ulong (ulong (Z.shiftl a 2) + 3) <> 0 ->
  print_pmp_entry index pmp_addr pmp_n_cfg =
    Ret (LineRange index a cfg (ulong (Z.shiftl a 2))
           (ulong (ulong (Z.shiftl a 2) + 3))
           (perm_r cfg) (perm_w cfg) (perm_x cfg) (perm_locked cfg)).
Proof.
  intros Hc Ha Hm He. unfold print_pmp_entry.
  rewrite (load_lookup _ _ _ Hc), (load_lookup _ _ _ Ha). simpl.
  unfold cfg_mode in Hm. rewrite Hm. simpl.
  apply Z.eqb_neq in He. rewrite He. reflexivity.
Qed.

Lemma print_pmp_entry_napot (index : nat) (pmp_addr pmp_n_cfg : list Z)
    (a cfg : Z) :
  pmp_n_cfg !! index = Some cfg -> pmp_addr !! index = Some a ->
  cfg_mode cfg = PMP_NAPOT ->
  let tmp := Z.lor (ulong (Z.shiftl a 2)) 3 in
  Z.lor tmp (ulong (tmp + 1)) <> 0 ->
  print_pmp_entry index pmp_addr pmp_n_cfg =
    Ret (LineRange index a cfg (Z.land tmp (ulong (tmp + 1)))
           (Z.lor tmp (ulong (tmp + 1)))
           (perm_r cfg) (perm_w cfg) (perm_x cfg) (perm_locked cfg)).
Proof.
  intros Hc Ha Hm tmp He. unfold print_pmp_entry.
  rewrite (load_lookup _ _ _ Hc), (load_lookup _ _ _ Ha). simpl.
  unfold cfg_mode in Hm. rewrite Hm. simpl.
  apply Z.eqb_neq in He. fold tmp. rewrite He. reflexivity.
Qed.

Lemma print_pmp_entry_off (index : nat) (pmp_addr pmp_n_cfg : list Z) (a : Z) :
  pmp_n_cfg !! index = Some 0 -> pmp_addr !! index = Some a ->
  print_pmp_entry index pmp_addr pmp_n_cfg = Ret (LineRaw index a 0).
Proof.
  intros Hc Ha. unfold print_pmp_entry.
  rewrite (load_lookup _ _ _ Hc), (load_lookup _ _ _ Ha). reflexivity.
Qed.

(** What the dump reads back from a top-of-range address register. *)
Lemma tor_end (start size : Z) :
  start mod 4 = 0 -> size mod 4 = 0 ->
  ulong (ulong (Z.shiftl (PMP_ADDR (ulong (start + size))) 2) - 1)
    = ulong (start + size - 1) /\
  ulong (start + size - 1) <> 0.
Proof.
  intros Hs Hz.
  assert (H4 : ulong (start + size) mod 4 = 0).
  { rewrite ulong_mod4. rewrite Z.add_mod, Hs, Hz by lia. reflexivity. }
  rewrite PMP_ADDR_shiftl by (auto using ulong_range).
  split.
  - unfold ulong. apply Zminus_mod_idemp_l.
  - intros H0. pose proof (ulong_mod4 (start + size - 1)) as Hm.
    rewrite H0 in Hm. change (0 mod 4) with 0 in Hm.
    clear - Hs Hz Hm. Z.div_mod_to_equations. lia.
Qed.

(** ** The region encoder *)

Lemma chains_prev (index : nat) (start : Z) (pmp_addr : list Z) (v : Z) :
  0 <= start < 2 ^ XLEN -> start mod 4 = 0 ->
  chains index start pmp_addr ->
  match index with
  | O => start = 0
  | S j => exists p, (<[index := v]> pmp_addr) !! j = Some p /\
                     start = ulong (Z.shiftl p 2)
  end.
Proof.
  intros Hs Ha [[-> ->] | [Hi Hl]]; [reflexivity|].
  destruct index as [|j]; [contradiction|].
  simpl in Hl. rewrite Nat.sub_0_r in Hl.
  exists (PMP_ADDR start). split.
  - rewrite list_lookup_insert_ne by lia. exact Hl.
  - symmetry. apply PMP_ADDR_shiftl; assumption.
Qed.

(** C1: for a permission byte and a 4-byte-aligned region of nonzero size,
    the slots a successful [set_pmp_entry] call produced are shown by the
    dump of [print_pmp_entries] as exactly one range, which starts at
    [start], ends (inclusively) at [start + size - 1] in [ulong_t]
    arithmetic, and carries the permission flags passed in; the end is the
    mathematical [start + size - 1] whenever the region does not run past
    the end of the address space. *)
Theorem set_pmp_entry_roundtrip (index : nat) (perm start size : Z)
    (pmp_addr pmp_n_cfg : list Z) (index_limit index' : nat)
    (pmp_addr' pmp_n_cfg' : list Z) :
  0 <= perm < 256 -> Z.land perm PMP_A = 0 ->
  0 <= start < 2 ^ XLEN -> 0 < size < 2 ^ XLEN ->
  start mod 4 = 0 -> size mod 4 = 0 ->
  set_pmp_entry index perm start size pmp_addr pmp_n_cfg index_limit
    = Ret (true, index', pmp_addr', pmp_n_cfg') ->
  decoded_ranges index index' pmp_addr' pmp_n_cfg' =
    Ret [Build_pmp_range start (ulong (start + size - 1))
           (perm_r perm) (perm_w perm) (perm_x perm) (perm_locked perm)]
  /\ (start + size <= 2 ^ XLEN -> ulong (start + size - 1) = start + size - 1).
Proof.
  intros Hperm HA Hs Hz Has Haz H.
  split; [| intros; apply ulong_small; lia].
  apply set_pmp_entry_true in H as (Hlt & Hla & Hlc & Hcases).
  destruct (tor_end start size Has Haz) as [He Hne].
  destruct (cfg_byte perm PMP_TOR Hperm HA ltac:(auto))
    as (Hu & Hm & Hr & Hw & Hx & Hl).
  unfold decoded_ranges, print_pmp_entries.
  destruct Hcases as [(Hch & -> & -> & ->) | [(Hn & Hnp & -> & -> & ->)
                     | (Hn & Hnp & Hlt' & Hla' & Hlc' & -> & -> & ->)]].
  - (* one top-of-range entry *)
    replace (index + 1 - index)%nat with 1%nat by lia. cbn [print_pmp_loop].
    rewrite (print_pmp_entry_tor index _ _ (PMP_ADDR (ulong (start + size)))
               (Z.lor perm PMP_TOR) start).
    + simpl. rewrite He, Hr, Hw, Hx, Hl. reflexivity.
    + rewrite Hu. apply list_lookup_insert_eq; assumption.
    + apply list_lookup_insert_eq; assumption.
    + exact Hm.
    + apply chains_prev; assumption.
    + rewrite He. exact Hne.
  - (* one naturally aligned entry *)
    replace (index + 1 - index)%nat with 1%nat by lia. cbn [print_pmp_loop].
    apply napot_test_spec in Hnp; [| lia | lia].
    destruct Hnp as [[Hp2 Hmod] | [_ ->]]; [| lia].
    destruct (pow2_aligned size Hp2 Haz) as (k & Hk & ->).
    destruct (Z.eq_dec k 2) as [-> | Hk3].
    + change (2 ^ 2) with 4 in *. change (4 =? 4) with true. cbv iota.
      destruct (cfg_byte perm PMP_NA4 Hperm HA ltac:(auto))
        as (Hu' & Hm' & Hr' & Hw' & Hx' & Hl').
      rewrite na4_addr by assumption.
      assert (Hsh : ulong (Z.shiftl (PMP_ADDR start) 2) = start)
        by (apply PMP_ADDR_shiftl; assumption).
      assert (He4 : ulong (start + 3) = ulong (start + 4 - 1)) by (f_equal; lia).
      rewrite (print_pmp_entry_na4 index _ _ (PMP_ADDR start) (Z.lor perm PMP_NA4)).
      * simpl. rewrite Hsh, He4, Hr', Hw', Hx', Hl'. reflexivity.
      * rewrite Hu'. apply list_lookup_insert_eq; assumption.
      * apply list_lookup_insert_eq; assumption.
      * exact Hm'.
      * rewrite Hsh, He4. exact Hne.
    + assert (H8 : 2 ^ 3 <= 2 ^ k) by (apply Z.pow_le_mono_r; lia).
      change (2 ^ 3) with 8 in H8.
      replace (2 ^ k =? 4) with false by (symmetry; apply Z.eqb_neq; lia).
      destruct (cfg_byte perm PMP_NAPOT Hperm HA ltac:(auto))
        as (Hu' & Hm' & Hr' & Hw' & Hx' & Hl').
      destruct (napot_roundtrip start k ltac:(lia) Hs ltac:(lia) Hmod) as [Hst Hen].
      pose proof (aligned_block_fits start k ltac:(lia) Hs ltac:(lia) Hmod) as Hfit.
      rewrite (print_pmp_entry_napot index _ _ (PMP_ADDR_NAPOT start (2 ^ k))
                 (Z.lor perm PMP_NAPOT)).
      * simpl. rewrite Hst, Hen, Hr', Hw', Hx', Hl'.
        rewrite (ulong_small (start + 2 ^ k - 1)) by lia. reflexivity.
      * rewrite Hu'. apply list_lookup_insert_eq; assumption.
      * apply list_lookup_insert_eq; assumption.
      * exact Hm'.
      * cbv zeta. rewrite Hen. lia.
  - (* a range-start marker and a top-of-range entry *)
    replace (index + 2 - index)%nat with 2%nat by lia. cbn [print_pmp_loop].
    rewrite (print_pmp_entry_off index _ _ (PMP_ADDR start)).
    + rewrite (print_pmp_entry_tor (S index) _ _ (PMP_ADDR (ulong (start + size)))
                 (Z.lor perm PMP_TOR) start).
      * simpl. rewrite He, Hr, Hw, Hx, Hl. reflexivity.
      * rewrite Hu. replace (S index) with (index + 1)%nat by lia.
        apply list_lookup_insert_eq. rewrite length_insert. assumption.
      * replace (S index) with (index + 1)%nat by lia.
        apply list_lookup_insert_eq. rewrite length_insert. assumption.
      * exact Hm.
      * exists (PMP_ADDR start). split.
        -- rewrite list_lookup_insert_ne by lia.
           apply list_lookup_insert_eq; assumption.
        -- symmetry. apply PMP_ADDR_shiftl; assumption.
      * rewrite He. exact Hne.
    + rewrite list_lookup_insert_ne by lia.
      apply list_lookup_insert_eq; assumption.
    + rewrite list_lookup_insert_ne by lia.
      apply list_lookup_insert_eq; assumption.
Qed.

(** C9: a call that returns [false] has run out of slots, in the one-slot
    or in the two-slot case, and hands back the cursor and both shadow
    arrays exactly as it received them. *)
Theorem set_pmp_entry_failure_atomic (index : nat) (perm start size : Z)
    (pmp_addr pmp_n_cfg : list Z) (index_limit index' : nat)
    (pmp_addr' pmp_n_cfg' : list Z) :
  set_pmp_entry index perm start size pmp_addr pmp_n_cfg index_limit
    = Ret (false, index', pmp_addr', pmp_n_cfg') ->
  (index' = index /\ pmp_addr' = pmp_addr /\ pmp_n_cfg' = pmp_n_cfg) /\
  ((index_limit <= index)%nat \/
   (~ chains index start pmp_addr /\ napot_test start size = false /\
    (index_limit <= index + 1)%nat)).
Proof.
  intros H. apply set_pmp_entry_false in H as (-> & -> & -> & Hwhy).
  auto.
Qed.

(** C2 (as amended): a successful call on a 4-byte-aligned region advances
    the cursor by exactly 1 when the chaining test of the code passes (the
    cursor is 0 and [start = 0], or the address register of the preceding
    slot holds [start >> 2]; the end of the prior region is in that register
    only if the region was encoded as a top-of-range entry), when its size
    is a power of two (4, through the NA4 variant, or at least 8, through
    the NAPOT variant) to which the start is aligned, and for the sentinel
    [start = 0, size = 0]; for every other aligned region it advances the
    cursor by exactly 2. *)
Theorem set_pmp_entry_slots (index : nat) (perm start size : Z)
    (pmp_addr pmp_n_cfg : list Z) (index_limit index' : nat)
    (pmp_addr' pmp_n_cfg' : list Z) :
  0 <= start < 2 ^ XLEN -> 0 <= size < 2 ^ XLEN ->
  start mod 4 = 0 -> size mod 4 = 0 ->
  set_pmp_entry index perm start size pmp_addr pmp_n_cfg index_limit
    = Ret (true, index', pmp_addr', pmp_n_cfg') ->
  (chains index start pmp_addr -> index' = (index + 1)%nat) /\
  (~ chains index start pmp_addr -> naturally_aligned start size ->
     index' = (index + 1)%nat /\
     ((size = 4 /\ pmp_n_cfg' !! index = Some (u8 (Z.lor perm PMP_NA4))) \/
      (8 <= size /\ pmp_n_cfg' !! index = Some (u8 (Z.lor perm PMP_NAPOT))))) /\
  (~ chains index start pmp_addr -> start = 0 /\ size = 0 ->
     index' = (index + 1)%nat) /\
  (~ chains index start pmp_addr -> ~ naturally_aligned start size ->
     ~ (start = 0 /\ size = 0) -> index' = (index + 2)%nat).
Proof.
  intros Hs Hz Has Haz H.
  apply set_pmp_entry_true in H as (Hlt & Hla & Hlc & Hcases).
  pose proof (napot_test_spec start size Hs Hz) as Hspec.
  destruct Hcases as [(Hch & -> & -> & ->) | [(Hn & Hnp & -> & -> & ->)
                     | (Hn & Hnp & Hlt' & Hla' & Hlc' & -> & -> & ->)]].
  - repeat split; intros; solve [reflexivity | contradiction].
  - split; [reflexivity|]. split; [|split].
    + intros _ [Hp2 Hmod]. split; [reflexivity|].
      destruct (pow2_aligned size Hp2 Haz) as (k & Hk & ->).
      rewrite list_lookup_insert_eq by assumption.
      destruct (Z.eq_dec k 2) as [-> | Hk3].
      * left. split; reflexivity.
      * right. assert (H8 : 2 ^ 3 <= 2 ^ k) by (apply Z.pow_le_mono_r; lia).
        change (2 ^ 3) with 8 in H8.
        replace (2 ^ k =? 4) with false by (symmetry; apply Z.eqb_neq; lia).
        split; [assumption | reflexivity].
    + reflexivity.
    + intros _ Hna Hsent. apply Hspec in Hnp. tauto.
  - split; [contradiction|]. split; [|split].
    + intros _ Hna. assert (napot_test start size = true) by (apply Hspec; auto).
      congruence.
    + intros _ Hsent. assert (napot_test start size = true) by (apply Hspec; auto).
      congruence.
    + reflexivity.
Qed.

(** What the dump reads back from the address register the second rule
    writes for the sentinel. *)
Lemma sentinel_napot :
  PMP_ADDR_NAPOT 0 0 = 2 ^ (XLEN - 3) - 1 /\
  let tmp := Z.lor (ulong (Z.shiftl (PMP_ADDR_NAPOT 0 0) 2)) 3 in
  Z.land tmp (ulong (tmp + 1)) = 0 /\
  Z.lor tmp (ulong (tmp + 1)) = 2 ^ XLEN - 1.
Proof.
  unfold PMP_ADDR_NAPOT, NAPOT_RANGE, PMP_ADDR, ulong, XLEN.
  destruct CONFIG_64BIT; vm_compute; auto.
Qed.

(** C3: with a free slot at the cursor, the sentinel call
    [start = 0, size = 0] succeeds and consumes exactly one slot.  Where
    the chaining test does not pass, the entry is the NAPOT entry with
    address [2 ^ (XLEN - 3) - 1], which the dump decodes to the whole
    address space, from 0 to [2 ^ XLEN - 1], as the claim and the doc
    comment of [set_pmp_entry] say.  Where the chaining test passes
    (cursor 0, or a preceding address register holding 0), the code never
    reaches the power-of-two rule: it writes a top-of-range entry whose own
    address register is 0, the top of an empty range, and this is where
    the code parts from the claim and from its own doc comment. *)
Theorem set_pmp_entry_sentinel (index : nat) (perm : Z)
    (pmp_addr pmp_n_cfg : list Z) (index_limit : nat) :
  0 <= perm < 256 -> Z.land perm PMP_A = 0 ->
  (index < index_limit)%nat ->
  (index_limit <= length pmp_addr)%nat ->
  (index_limit <= length pmp_n_cfg)%nat ->
  exists a cfg,
    set_pmp_entry index perm 0 0 pmp_addr pmp_n_cfg index_limit
      = Ret (true, (index + 1)%nat, <[index := a]> pmp_addr,
             <[index := cfg]> pmp_n_cfg) /\
    (chains index 0 pmp_addr ->
       cfg_mode cfg = PMP_TOR /\ cfg_mode cfg <> PMP_NAPOT /\ a = 0) /\
    (~ chains index 0 pmp_addr ->
       cfg_mode cfg = PMP_NAPOT /\ a = 2 ^ (XLEN - 3) - 1 /\
       decoded_ranges index (index + 1) (<[index := a]> pmp_addr)
           (<[index := cfg]> pmp_n_cfg) =
         Ret [Build_pmp_range 0 (2 ^ XLEN - 1)
                (perm_r perm) (perm_w perm) (perm_x perm) (perm_locked perm)]).
Proof.
  intros Hperm HA Hlt Hla Hlc.
  assert (Hprev : exists b : bool,
    (if (index =? 0)%nat then Ret (0 =? 0)
     else p <- load pmp_addr (index - 1) ;; Ret (p =? PMP_ADDR 0)) = Ret b).
  { destruct (index =? 0)%nat; [eauto|].
    destruct (lookup_lt_is_Some_2 pmp_addr (index - 1) ltac:(lia)) as [p Hp].
    rewrite (load_lookup _ _ _ Hp). simpl. eauto. }
  destruct Hprev as [b Hb]. pose proof (chains_dec _ _ _ _ Hb) as Hch.
  assert (Hl0 : ulong (0 + 0) = 0) by reflexivity.
  unfold decoded_ranges, print_pmp_entries.
  replace (index + 1 - index)%nat with 1%nat by lia. cbn [print_pmp_loop].
  destruct b.
  - (* chaining: a top-of-range entry *)
    destruct (cfg_byte perm PMP_TOR Hperm HA ltac:(auto))
      as (Hu & Hm & Hr & Hw & Hx & Hl).
    assert (Hc : chains index 0 pmp_addr) by (apply Hch; reflexivity).
    exists 0, (Z.lor perm PMP_TOR). split; [|split].
    + unfold set_pmp_entry. change (Z.land 0 3 =? 0) with true.
      rewrite !ASSERT_true. cbn [res_bind].
      destruct (Nat.leb_spec index_limit index); [lia|].
      rewrite Hb. cbn [res_bind]. rewrite Hl0, Hu.
      rewrite !store_lt by lia. reflexivity.
    + intros _. split; [exact Hm|]. split; [|reflexivity].
      rewrite Hm. discriminate.
    + intros Hn. contradiction.
  - (* no chaining: a NAPOT entry *)
    destruct (cfg_byte perm PMP_NAPOT Hperm HA ltac:(auto))
      as (Hu & Hm & Hr & Hw & Hx & Hl).
    assert (Hn : ~ chains index 0 pmp_addr)
      by (intros Hc; apply Hch in Hc; discriminate).
    destruct sentinel_napot as (Haddr & Hst & Hen).
    exists (PMP_ADDR_NAPOT 0 0), (Z.lor perm PMP_NAPOT).
    split; [|split].
    + unfold set_pmp_entry. change (Z.land 0 3 =? 0) with true.
      rewrite !ASSERT_true. cbn [res_bind].
      destruct (Nat.leb_spec index_limit index); [lia|].
      rewrite Hb. cbn [res_bind]. change (0 =? 4) with false. cbv iota.
      rewrite Hu. rewrite !store_lt by lia. reflexivity.
    + intros Hc. contradiction.
    + intros _. split; [exact Hm|]. split; [exact Haddr|].
      rewrite (print_pmp_entry_napot index _ _ (PMP_ADDR_NAPOT 0 0)
                 (Z.lor perm PMP_NAPOT)).
      * simpl. rewrite Hst, Hen, Hr, Hw, Hx, Hl. reflexivity.
      * apply list_lookup_insert_eq; lia.
      * apply list_lookup_insert_eq; lia.
      * exact Hm.
      * cbv zeta. rewrite Hen. pose proof pow2_XLEN. lia.
Qed.

(** ** The register writer *)

Ltac div_lia := zify; Z.to_euclidean_division_equations; lia.

Lemma trailing_step (index : nat) :
  (index mod PMPCFG_STRIDE)%nat <> 0%nat ->
  (trailing (index + 1) + 1 = trailing index)%nat.
Proof. unfold trailing, PMPCFG_STRIDE. destruct CONFIG_64BIT; div_lia. Qed.

Lemma trailing_0 (index : nat) :
  (index mod PMPCFG_STRIDE)%nat = 0%nat -> trailing index = 0%nat.
Proof. unfold trailing, PMPCFG_STRIDE. destruct CONFIG_64BIT; div_lia. Qed.

Lemma trailing_lt (index : nat) : (trailing index < PMPCFG_STRIDE)%nat.
Proof. unfold trailing, PMPCFG_STRIDE. destruct CONFIG_64BIT; div_lia. Qed.

Lemma trailing_boundary (index : nat) :
  ((index + trailing index) mod PMPCFG_STRIDE)%nat = 0%nat.
Proof. unfold trailing, PMPCFG_STRIDE. destruct CONFIG_64BIT; div_lia. Qed.

Lemma trailing_inside (index j : nat) :
  (index <= j < index + trailing index)%nat ->
  (j mod PMPCFG_STRIDE)%nat <> 0%nat.
Proof. unfold trailing, PMPCFG_STRIDE. destruct CONFIG_64BIT; div_lia. Qed.

Lemma room_for_byte (index len : nat) :
  (index <= len)%nat -> (len mod PMPCFG_STRIDE)%nat = 0%nat ->
  (index mod PMPCFG_STRIDE)%nat <> 0%nat -> (index < len)%nat.
Proof.
  intros Hle Hl Hi. destruct (Nat.eq_dec index len) as [->|]; [contradiction | lia].
Qed.

Lemma before_boundary_trailing (end_ i : nat) :
  before_boundary end_ i <-> (end_ <= i < end_ + trailing end_)%nat.
Proof.
  unfold before_boundary. split.
  - intros [Hle Hall]. split; [assumption|].
    destruct (Nat.lt_ge_cases i (end_ + trailing end_)) as [|Hge]; [assumption|].
    exfalso. apply (Hall (end_ + trailing end_)%nat); [lia|].
    apply trailing_boundary.
  - intros [Hle Hlt]. split; [assumption|].
    intros j Hj. apply (trailing_inside end_). lia.
Qed.

Lemma clear_trailing_spec (fuel : nat) :
  forall (index : nat) (pmp_n_cfg : list Z),
    (trailing index <= fuel)%nat ->
    (index <= length pmp_n_cfg)%nat ->
    (length pmp_n_cfg mod PMPCFG_STRIDE)%nat = 0%nat ->
    exists cfg' : list Z,
      clear_trailing fuel index pmp_n_cfg = Ret cfg' /\
      length cfg' = length pmp_n_cfg /\
      forall i : nat,
        cfg' !! i = if decide (index <= i < index + trailing index)%nat
                    then Some 0 else pmp_n_cfg !! i.
Proof.
  induction fuel as [|fuel IH]; intros index cfg Hfuel Hlen Hmul.
  - assert (Ht : trailing index = 0%nat) by lia.
    assert (Hb : (index mod PMPCFG_STRIDE)%nat = 0%nat).
    { pose proof (trailing_boundary index) as Hb. rewrite Ht, Nat.add_0_r in Hb.
      exact Hb. }
    exists cfg. simpl. rewrite Hb. simpl. repeat split.
    intros i. rewrite Ht. destruct (decide _); [lia | reflexivity].
  - simpl. destruct (Nat.eqb_spec (index mod PMPCFG_STRIDE) 0) as [Hb|Hb].
    + exists cfg. repeat split. intros i. rewrite (trailing_0 _ Hb).
      destruct (decide _); [lia | reflexivity].
    + pose proof (trailing_step index Hb) as Hstep.
      pose proof (room_for_byte index _ Hlen Hmul Hb) as Hroom.
      rewrite store_lt by assumption. cbn [res_bind].
      destruct (IH (index + 1)%nat (<[index := 0]> cfg)) as (cfg' & Hrun & Hl & Hlook).
      * lia.
      * rewrite length_insert. lia.
      * rewrite length_insert. assumption.
      * exists cfg'. rewrite length_insert in Hl. repeat split; try assumption.
        intros i. rewrite Hlook.
        destruct (Nat.eq_dec i index) as [->|Hne].
        -- rewrite list_lookup_insert_eq by assumption.
           repeat destruct (decide _); try reflexivity; lia.
        -- rewrite list_lookup_insert_ne by lia.
           repeat destruct (decide _); try reflexivity; lia.
Qed.

(** [PMPCFG_STRIDE] iterations are enough for the trailing-clear loop. *)
Lemma clear_trailing_fuel (fuel : nat) :
  forall (index : nat) (pmp_n_cfg : list Z),
    (trailing index <= fuel)%nat ->
    clear_trailing fuel index pmp_n_cfg <> Abort OutOfFuel.
Proof.
  induction fuel as [|fuel IH]; intros index cfg Hfuel; simpl.
  - destruct (Nat.eqb_spec (index mod PMPCFG_STRIDE) 0) as [Hb|Hb];
      [discriminate|].
    pose proof (trailing_step index Hb). lia.
  - destruct (Nat.eqb_spec (index mod PMPCFG_STRIDE) 0) as [Hb|Hb];
      [discriminate|].
    pose proof (trailing_step index Hb) as Hstep.
    unfold store. destruct (decide (index < length cfg)%nat); [|discriminate].
    cbn [res_bind]. apply IH. lia.
Qed.

Lemma clear_trailing_stride (index : nat) (pmp_n_cfg : list Z) :
  clear_trailing PMPCFG_STRIDE index pmp_n_cfg <> Abort OutOfFuel.
Proof. apply clear_trailing_fuel. pose proof (trailing_lt index). lia. Qed.

Lemma write_pmp_entries_panic (start end_ : nat) (clear : bool)
    (pmp_addr pmp_n_cfg : list Z) (index_limit : nat) (log : list event) :
  ~ (start < end_ <= index_limit)%nat ->
  write_pmp_entries start end_ clear pmp_addr pmp_n_cfg index_limit log
    = (Abort Panic, log).
Proof.
  intros Hbad. unfold write_pmp_entries, M_bind, M_lift, __ASSERT, k_panic, M_lift.
  destruct (CONFIG_ASSERT && _); [reflexivity|].
  destruct ((end_ <=? start)%nat || (index_limit <? end_)%nat) eqn:Hf.
  - reflexivity.
  - exfalso. apply Hbad.
    apply orb_false_iff in Hf as [H1 H2].
    apply Nat.leb_gt in H1. apply Nat.ltb_ge in H2. lia.
Qed.

Lemma write_pmp_entries_ok (start end_ : nat) (clear : bool)
    (pmp_addr pmp_n_cfg : list Z) (index_limit : nat) (log : list event) :
  (start < end_ <= index_limit)%nat ->
  (CONFIG_ASSERT = true -> (index_limit <= CONFIG_PMP_SLOTS)%nat) ->
  (clear = true -> (end_ <= length pmp_n_cfg)%nat /\
                   (length pmp_n_cfg mod PMPCFG_STRIDE)%nat = 0%nat) ->
  exists cfg' : list Z,
    write_pmp_entries start end_ clear pmp_addr pmp_n_cfg index_limit log
      = (Ret cfg', log ++ [EvHwWrite start end_ clear pmp_addr cfg']) /\
    length cfg' = length pmp_n_cfg /\
    (clear = true ->
       forall i : nat,
         cfg' !! i = if decide (end_ <= i < end_ + trailing end_)%nat
                     then Some 0 else pmp_n_cfg !! i) /\
    (clear = false -> cfg' = pmp_n_cfg).
Proof.
  intros Hrange Hassert Harr.
  unfold write_pmp_entries, M_bind, M_lift, __ASSERT, z_riscv_write_pmp_entries,
    emit, M_ret.
  assert (Ha : CONFIG_ASSERT
               && negb ((start <? end_)%nat && (end_ <=? index_limit)%nat
                        && (index_limit <=? CONFIG_PMP_SLOTS)%nat) = false).
  { destruct CONFIG_ASSERT; [|reflexivity]. simpl.
    specialize (Hassert eq_refl).
    destruct (Nat.ltb_spec start end_); [|lia].
    destruct (Nat.leb_spec end_ index_limit); [|lia].
    destruct (Nat.leb_spec index_limit CONFIG_PMP_SLOTS); [reflexivity|lia]. }
  rewrite Ha.
  assert (Hb : (end_ <=? start)%nat || (index_limit <? end_)%nat = false).
  { apply orb_false_iff. split; [apply Nat.leb_gt | apply Nat.ltb_ge]; lia. }
  rewrite Hb. destruct clear.
  - destruct (Harr eq_refl) as [Hlen Hmul].
    destruct (clear_trailing_spec PMPCFG_STRIDE end_ pmp_n_cfg)
      as (cfg' & Hrun & Hl & Hlook); try assumption.
    { pose proof (trailing_lt end_). lia. }
    rewrite Hrun. exists cfg'. repeat split; try assumption.
    + intros _. exact Hlook.
    + discriminate.
  - exists pmp_n_cfg. split; [reflexivity|]. split; [reflexivity|].
    split; [discriminate | reflexivity].
Qed.

(** C7 (as amended): whenever [start < end <= index_limit] is violated,
    [write_pmp_entries] panics, with assertions compiled in or out, and the
    hardware write primitive is not called; when it holds (and, with
    assertions compiled in, [index_limit <= CONFIG_PMP_SLOTS] holds as
    well, which the assertion also checks), the function proceeds to the
    hardware write; with assertions compiled in, an [index_limit] above
    [CONFIG_PMP_SLOTS] makes it panic before the hardware write. *)
Theorem write_pmp_entries_precondition (start end_ : nat) (clear : bool)
    (pmp_addr pmp_n_cfg : list Z) (index_limit : nat) (log : list event) :
  (~ (start < end_ <= index_limit)%nat ->
     write_pmp_entries start end_ clear pmp_addr pmp_n_cfg index_limit log
       = (Abort Panic, log)) /\
  ((start < end_ <= index_limit)%nat ->
     (CONFIG_ASSERT = true -> (index_limit <= CONFIG_PMP_SLOTS)%nat) ->
     (clear = true -> (end_ <= length pmp_n_cfg)%nat /\
                      (length pmp_n_cfg mod PMPCFG_STRIDE)%nat = 0%nat) ->
     exists cfg' : list Z,
       write_pmp_entries start end_ clear pmp_addr pmp_n_cfg index_limit log
         = (Ret cfg', log ++ [EvHwWrite start end_ clear pmp_addr cfg'])) /\
  (CONFIG_ASSERT = true -> ~ (index_limit <= CONFIG_PMP_SLOTS)%nat ->
     write_pmp_entries start end_ clear pmp_addr pmp_n_cfg index_limit log
       = (Abort Panic, log)).
Proof.
  split; [|split].
  - apply write_pmp_entries_panic.
  - intros Hrange Hassert Harr.
    destruct (write_pmp_entries_ok start end_ clear pmp_addr pmp_n_cfg
                index_limit log Hrange Hassert Harr) as (cfg' & Hrun & _).
    exists cfg'. exact Hrun.
  - intros Ha Hbig. unfold write_pmp_entries, M_bind, M_lift, __ASSERT.
    rewrite Ha. destruct (Nat.leb_spec index_limit CONFIG_PMP_SLOTS); [lia|].
    rewrite andb_false_r. reflexivity.
Qed.

(** C8: on a valid range, and with a config array made of whole register
    words that reaches [end], the shadow arrays handed to the hardware
    write primitive are as follows.  With [clear_trailing_entries] set,
    every config byte from [end] up to (excluding) the next register-word
    boundary is zero, and every other config byte, in particular every one
    below [end], and the whole address array are as they were; with
    [clear_trailing_entries] unset, both arrays are as they were. *)
Theorem write_pmp_entries_trailing_clear (start end_ : nat) (clear : bool)
    (pmp_addr pmp_n_cfg : list Z) (index_limit : nat) (log : list event) :
  (start < end_ <= index_limit)%nat ->
  (CONFIG_ASSERT = true -> (index_limit <= CONFIG_PMP_SLOTS)%nat) ->
  (end_ <= length pmp_n_cfg)%nat ->
  (length pmp_n_cfg mod PMPCFG_STRIDE)%nat = 0%nat ->
  exists cfg' : list Z,
    write_pmp_entries start end_ clear pmp_addr pmp_n_cfg index_limit log
      = (Ret cfg', log ++ [EvHwWrite start end_ clear pmp_addr cfg']) /\
    length cfg' = length pmp_n_cfg /\
    (clear = true ->
       (forall i : nat, before_boundary end_ i -> cfg' !! i = Some 0) /\
       (forall i : nat, ~ before_boundary end_ i -> cfg' !! i = pmp_n_cfg !! i) /\
       (forall i : nat, (i < end_)%nat -> cfg' !! i = pmp_n_cfg !! i)) /\
    (clear = false -> cfg' = pmp_n_cfg).
Proof.
  intros Hrange Hassert Hlen Hmul.
  destruct (write_pmp_entries_ok start end_ clear pmp_addr pmp_n_cfg
              index_limit log Hrange Hassert ltac:(auto))
    as (cfg' & Hrun & Hl & Hclear & Hkeep).
  exists cfg'. repeat split; try assumption.
  - intros i Hb. rewrite (Hclear H). apply before_boundary_trailing in Hb.
    destruct (decide _); [reflexivity | lia].
  - intros i Hb. rewrite (Hclear H).
    destruct (decide _) as [Hin|]; [|reflexivity].
    exfalso. apply Hb. apply before_boundary_trailing. exact Hin.
  - intros i Hi. rewrite (Hclear H).
    destruct (decide _); [lia | reflexivity].
Qed.

(** ** The partition loops *)

Lemma IS_WITHIN_spec (start size outer_start outer_size : Z) :
  0 <= start < 2 ^ XLEN -> 0 <= size < 2 ^ XLEN ->
  0 <= outer_start < 2 ^ XLEN -> 0 <= outer_size < 2 ^ XLEN ->
  IS_WITHIN start size outer_start outer_size = true <->
  inside start size outer_start outer_size.
Proof.
  intros Hs Hz Hos Hoz. unfold IS_WITHIN, inside.
  rewrite !andb_true_iff, !Z.leb_le. split.
  - intros [[H1 H2] H3]. rewrite !ulong_small in H3 by lia. lia.
  - intros [H1 H2]. rewrite !ulong_small by lia. lia.
Qed.

Lemma resync_loop_spec (parts : list k_mem_partition) :
  forall (n : nat) (st : nat * list Z * list Z),
    resync_loop parts n st =
      (st' <- resync_all (counted parts n) st ;;
       if (n <=? length (List.filter nonempty parts))%nat then Ret st'
       else Abort OutOfBounds).
Proof.
  unfold counted.
  induction parts as [|part rest IH]; intros n st.
  - destruct n; reflexivity.
  - destruct n as [|n]; [reflexivity|].
    cbn [resync_loop List.filter].
    destruct (part_size part =? 0) eqn:E;
      [ assert (Hne : nonempty part = false) by (unfold nonempty; rewrite E; reflexivity)
      | assert (Hne : nonempty part = true) by (unfold nonempty; rewrite E; reflexivity) ];
      rewrite Hne.
    + apply IH.
    + cbn [take resync_all length res_bind].
      destruct (resync_partition part st) as [st'|f]; cbn [res_bind]; [|reflexivity].
      rewrite IH. reflexivity.
Qed.

Lemma validate_loop_spec (start size write : Z) (parts : list k_mem_partition) :
  forall n : nat,
    validate_loop parts n start size write =
      match List.find (within_part start size) (counted parts n) with
      | Some part => Ret (if grants part write then 0 else -1)
      | None => if (n <=? length (List.filter nonempty parts))%nat then Ret (-1)
                else Abort OutOfBounds
      end.
Proof.
  unfold counted.
  induction parts as [|part rest IH]; intros n.
  - destruct n; reflexivity.
  - destruct n as [|n]; [reflexivity|].
    cbn [validate_loop List.filter].
    destruct (part_size part =? 0) eqn:E;
      [ assert (Hne : nonempty part = false) by (unfold nonempty; rewrite E; reflexivity)
      | assert (Hne : nonempty part = true) by (unfold nonempty; rewrite E; reflexivity) ];
      rewrite Hne.
    + apply IH.
    + cbn [take List.find length]. unfold within_part at 1.
      destruct (IS_WITHIN start size (part_start part) (part_size part));
        cbn [negb].
      * unfold grants. destruct (negb (Z.land _ _ =? 0)); reflexivity.
      * rewrite IH. reflexivity.
Qed.

Lemma find_first {A : Type} (f : A -> bool) (l : list A) (p : A) :
  List.find f l = Some p <->
  exists i : nat, l !! i = Some p /\ f p = true /\
    forall (j : nat) (q : A), (j < i)%nat -> l !! j = Some q -> f q = false.
Proof.
  induction l as [|x l IH]; cbn [List.find].
  - split; [discriminate | intros (i & Hi & _); discriminate].
  - destruct (f x) eqn:Hx.
    + split.
      * intros [= <-]. exists 0%nat. repeat split; [assumption | lia].
      * intros (i & Hi & Hp & Hbefore). destruct i as [|i].
        -- simpl in Hi. congruence.
        -- specialize (Hbefore 0%nat x ltac:(lia) eq_refl). congruence.
    + rewrite IH. split.
      * intros (i & Hi & Hp & Hbefore). exists (S i). repeat split; try assumption.
        intros [|j] q Hj Hq; [simpl in Hq; congruence|].
        apply (Hbefore j); [lia | exact Hq].
      * intros (i & Hi & Hp & Hbefore). destruct i as [|i].
        -- simpl in Hi. congruence.
        -- exists i. repeat split; try assumption.
           intros j q Hj Hq. apply (Hbefore (S j)); [lia | exact Hq].
Qed.

Lemma find_none {A : Type} (f : A -> bool) (l : list A) :
  List.find f l = None <->
  forall (i : nat) (q : A), l !! i = Some q -> f q = false.
Proof.
  induction l as [|x l IH]; cbn [List.find].
  - split; [intros _ i q Hq; discriminate | reflexivity].
  - destruct (f x) eqn:Hx.
    + split; [discriminate|]. intros H. specialize (H 0%nat x eq_refl). congruence.
    + rewrite IH. split.
      * intros H [|i] q Hq; [simpl in Hq; congruence | apply (H i); exact Hq].
      * intros H i q Hq. apply (H (S i)). exact Hq.
Qed.

Lemma Forall_counted (P : k_mem_partition -> Prop)
    (parts : list k_mem_partition) (n : nat) :
  Forall P parts -> Forall P (counted parts n).
Proof.
  intros H. unfold counted. apply Forall_take.
  induction H as [|x l Hx Hl IH]; cbn [List.filter]; [constructor|].
  destruct (nonempty x); [constructor|]; assumption.
Qed.

Lemma within_part_spec (start size : Z) (part : k_mem_partition) :
  0 <= start < 2 ^ XLEN -> 0 <= size < 2 ^ XLEN -> part_in_range part ->
  within_part start size part = true <-> inside_part start size part.
Proof. intros Hs Hz [H1 H2]. apply IS_WITHIN_spec; assumption. Qed.

Lemma validate_loop_verdict (domain : k_mem_domain) (addr size write : Z) :
  0 <= addr < 2 ^ XLEN -> 0 <= size < 2 ^ XLEN ->
  Forall part_in_range (partitions domain) ->
  (num_partitions domain <= length (List.filter nonempty (partitions domain)))%nat ->
  exists r : Z,
    validate_loop (partitions domain) (num_partitions domain) addr size write
      = Ret r /\
    (r = 0 \/ r = -1) /\
    (r = 0 <->
     first_match_grants (counted (partitions domain) (num_partitions domain))
       addr size write).
Proof.
  intros Ha Hz Hparts Hnum.
  pose proof (Forall_counted _ _ (num_partitions domain) Hparts) as Hps.
  rewrite validate_loop_spec. unfold first_match_grants.
  set (ps := counted (partitions domain) (num_partitions domain)) in *.
  assert (Hin : forall i q, ps !! i = Some q ->
            (within_part addr size q = true <-> inside_part addr size q)).
  { intros i q Hq. apply within_part_spec; try assumption.
    exact (Forall_lookup_1 _ _ _ _ Hps Hq). }
  apply Nat.leb_le in Hnum. rewrite Hnum.
  destruct (List.find (within_part addr size) ps) as [part|] eqn:Hfind.
  - apply find_first in Hfind as (i & Hi & Hp & Hbefore).
    destruct (grants part write) eqn:Hg.
    + exists 0. split; [reflexivity|]. split; [auto|]. split; [|reflexivity].
      intros _. exists i, part.
      split; [assumption|]. split; [|split; [assumption|]].
      * apply (Hin i); assumption.
      * intros j q Hj Hq Hc. apply (Hin j q Hq) in Hc.
        rewrite (Hbefore j q Hj Hq) in Hc. discriminate.
    + exists (-1). split; [reflexivity|]. split; [auto|]. split; [discriminate|].
      intros (i' & part' & Hi' & Hp' & Hg' & Hbefore'). exfalso.
      destruct (Nat.lt_trichotomy i i') as [Hlt | [Heq | Hgt]].
      * apply (Hbefore' i part Hlt Hi). apply (Hin i); assumption.
      * subst i'. congruence.
      * apply (Hin i' part' Hi') in Hp'.
        rewrite (Hbefore i' part' Hgt Hi') in Hp'. discriminate.
  - exists (-1). split; [reflexivity|]. split; [auto|]. split; [discriminate|].
    intros (i' & part' & Hi' & Hp' & Hg' & Hbefore'). exfalso.
    apply (Hin i' part' Hi') in Hp'.
    rewrite (proj1 (find_none _ _) Hfind i' part' Hi') in Hp'. discriminate.
Qed.

(** The verdict of [arch_buffer_validate], in terms of regions. *)
Lemma arch_buffer_validate_first_match (current : k_thread)
    (domain : k_mem_domain) (ro_start ro_size addr size write : Z) :
  0 <= addr < 2 ^ XLEN -> 0 <= size < 2 ^ XLEN ->
  0 <= stack_info_start current < 2 ^ XLEN ->
  0 <= stack_info_size current < 2 ^ XLEN ->
  0 <= ro_start < 2 ^ XLEN -> 0 <= ro_size < 2 ^ XLEN ->
  Forall part_in_range (partitions domain) ->
  (num_partitions domain <= length (List.filter nonempty (partitions domain)))%nat ->
  exists r : Z,
    arch_buffer_validate current domain ro_start ro_size addr size write = Ret r /\
    (r = 0 \/ r = -1) /\
    (r = 0 <->
     inside addr size (stack_info_start current) (stack_info_size current) \/
     (write = 0 /\ inside addr size ro_start ro_size) \/
     first_match_grants (counted (partitions domain) (num_partitions domain))
       addr size write).
Proof.
  intros Ha Hz Hss Hsz Hrs Hrz Hparts Hnum.
  unfold arch_buffer_validate.
  pose proof (IS_WITHIN_spec addr size _ _ Ha Hz Hss Hsz) as Hstack.
  pose proof (IS_WITHIN_spec addr size _ _ Ha Hz Hrs Hrz) as Hrom.
  destruct (IS_WITHIN addr size (stack_info_start current) (stack_info_size current)).
  { exists 0. split; [reflexivity|]. split; [auto|]. split; [|reflexivity].
    intros _. left. apply Hstack. reflexivity. }
  assert (Hns : ~ inside addr size (stack_info_start current) (stack_info_size current))
    by (intros H; apply Hstack in H; discriminate).
  destruct (validate_loop_verdict domain addr size write Ha Hz Hparts Hnum)
    as (r & Hrun & Hr & Hiff).
  destruct ((write =? 0) && IS_WITHIN addr size ro_start ro_size) eqn:Hro.
  { apply andb_true_iff in Hro as [Hw Hi]. apply Z.eqb_eq in Hw.
    exists 0. split; [reflexivity|]. split; [auto|]. split; [|reflexivity].
    intros _. right; left. split; [assumption|]. apply Hrom. exact Hi. }
  assert (Hnr : ~ (write = 0 /\ inside addr size ro_start ro_size)).
  { intros [Hw Hi]. apply Hrom in Hi. apply Z.eqb_eq in Hw.
    rewrite Hw, Hi in Hro. discriminate. }
  exists r. split; [exact Hrun|]. split; [exact Hr|]. rewrite Hiff. tauto.
Qed.

Lemma res_bind_Ret_r {A : Type} (m : res A) : res_bind m (fun a => Ret a) = m.
Proof. destruct m; reflexivity. Qed.

Lemma first_match_unique (ps : list k_mem_partition) (addr size write : Z) :
  (forall (i j : nat) (p q : k_mem_partition),
     ps !! i = Some p -> ps !! j = Some q ->
     inside_part addr size p -> inside_part addr size q -> i = j) ->
  first_match_grants ps addr size write <->
  exists (i : nat) (part : k_mem_partition),
    ps !! i = Some part /\ inside_part addr size part /\
    grants part write = true.
Proof.
  intros Huniq. unfold first_match_grants. split.
  - intros (i & part & Hi & Hp & Hg & _). eauto.
  - intros (i & part & Hi & Hp & Hg). exists i, part.
    split; [assumption|]. split; [assumption|]. split; [assumption|].
    intros j q Hj Hq Hc. specialize (Huniq i j part q Hi Hq Hp Hc). lia.
Qed.

(** C4 (as amended): the loop of [arch_buffer_validate] looks at the first
    [num_partitions] partitions of nonzero size of the array, in array
    order, and at no other; the array holds at least that many.
    [arch_buffer_validate] returns 0 exactly when the range lies inside the
    current thread's stack region, or the access is a read and the range
    lies inside the read-only image, or the first of the partitions looked
    at that contains the whole range grants the requested permission bit;
    otherwise it returns -1.  When no two of the partitions looked at
    contain the range, the last alternative is the same as: one of them
    contains the whole range and grants the requested permission bit.  In
    the example
    configuration a write to [0x1000, +0x500) is allowed, a write to
    [0x2400, +0x400) is denied, and a read of [0x1F00, +0x200) is denied
    (whenever the read-only image does not contain it). *)
Theorem arch_buffer_validate_spec :
  (forall (current : k_thread) (domain : k_mem_domain)
          (ro_start ro_size addr size write : Z),
     0 <= addr < 2 ^ XLEN -> 0 <= size < 2 ^ XLEN ->
     0 <= stack_info_start current < 2 ^ XLEN ->
     0 <= stack_info_size current < 2 ^ XLEN ->
     0 <= ro_start < 2 ^ XLEN -> 0 <= ro_size < 2 ^ XLEN ->
     Forall part_in_range (partitions domain) ->
     (num_partitions domain
        <= length (List.filter nonempty (partitions domain)))%nat ->
     let ps := counted (partitions domain) (num_partitions domain) in
     exists r : Z,
       arch_buffer_validate current domain ro_start ro_size addr size write
         = Ret r /\
       (r = 0 \/ r = -1) /\
       (r = 0 <->
        inside addr size (stack_info_start current) (stack_info_size current) \/
        (write = 0 /\ inside addr size ro_start ro_size) \/
        first_match_grants ps addr size write) /\
       ((forall (i j : nat) (p q : k_mem_partition),
           ps !! i = Some p -> ps !! j = Some q ->
           inside_part addr size p -> inside_part addr size q -> i = j) ->
        (r = 0 <->
         inside addr size (stack_info_start current) (stack_info_size current) \/
         (write = 0 /\ inside addr size ro_start ro_size) \/
         exists (i : nat) (part : k_mem_partition),
           ps !! i = Some part /\ inside_part addr size part /\
           grants part write = true))) /\
  (forall ro_start ro_size : Z,
     arch_buffer_validate example_thread example_domain ro_start ro_size
       0x1000 0x500 1 = Ret 0) /\
  (forall ro_start ro_size : Z,
     arch_buffer_validate example_thread example_domain ro_start ro_size
       0x2400 0x400 1 = Ret (-1)) /\
  (forall ro_start ro_size : Z,
     IS_WITHIN 0x1F00 0x200 ro_start ro_size = false ->
     arch_buffer_validate example_thread example_domain ro_start ro_size
       0x1F00 0x200 0 = Ret (-1)).
Proof.
  split; [|split; [|split]].
  - intros current domain ro_start ro_size addr size write
      Ha Hz Hss Hsz Hrs Hrz Hparts Hnum ps.
    destruct (arch_buffer_validate_first_match current domain ro_start ro_size
                addr size write Ha Hz Hss Hsz Hrs Hrz Hparts Hnum)
      as (r & Hrun & Hr & Hiff).
    exists r. split; [exact Hrun|]. split; [exact Hr|]. split; [exact Hiff|].
    intros Huniq. rewrite Hiff. subst ps.
    rewrite (first_match_unique _ addr size write Huniq). reflexivity.
  - intros ro_start ro_size.
    unfold arch_buffer_validate, example_thread, example_domain, validate_loop,
      IS_WITHIN, ulong, XLEN; cbn [stack_info_start stack_info_size partitions
      num_partitions part_start part_size part_pmp_attr example_rw example_ro].
    destruct CONFIG_64BIT; reflexivity.
  - intros ro_start ro_size.
    unfold arch_buffer_validate, example_thread, example_domain, validate_loop,
      IS_WITHIN, ulong, XLEN; cbn [stack_info_start stack_info_size partitions
      num_partitions part_start part_size part_pmp_attr example_rw example_ro].
    destruct CONFIG_64BIT; reflexivity.
  - intros ro_start ro_size Hro.
    unfold arch_buffer_validate. rewrite Hro.
    unfold example_thread, example_domain, validate_loop,
      IS_WITHIN, ulong, XLEN; cbn [stack_info_start stack_info_size partitions
      num_partitions part_start part_size part_pmp_attr example_rw example_ro].
    destruct CONFIG_64BIT; reflexivity.
Qed.

(** C10 (as amended): the loop of [resync_pmp_domain] runs its body on the
    first [num_partitions] partitions of nonzero size, once each and in
    array order, and, unless a body has aborted before, then stops inside
    the array if the array holds at least [num_partitions] partitions of
    nonzero size and reads past its end otherwise; so it completes only
    under that precondition.  For the loop of [arch_buffer_validate] the
    precondition is sufficient but not necessary: the loop stops at the
    first partition of nonzero size that contains the range, and reads past
    the end of the array only when there is none among fewer than
    [num_partitions] partitions of nonzero size. *)
Theorem partition_loops_bounds (parts : list k_mem_partition) (n : nat) :
  (forall st : nat * list Z * list Z,
     resync_loop parts n st =
       (st' <- resync_all (counted parts n) st ;;
        if (n <=? length (List.filter nonempty parts))%nat then Ret st'
        else Abort OutOfBounds)) /\
  (forall st : nat * list Z * list Z,
     (n <= length (List.filter nonempty parts))%nat ->
     resync_loop parts n st = resync_all (counted parts n) st) /\
  (forall st st' : nat * list Z * list Z,
     resync_loop parts n st = Ret st' ->
     (n <= length (List.filter nonempty parts))%nat) /\
  (forall start size write : Z,
     (n <= length (List.filter nonempty parts))%nat ->
     validate_loop parts n start size write =
       Ret (match List.find (within_part start size) (counted parts n) with
            | Some part => if grants part write then 0 else -1
            | None => -1
            end)) /\
  (forall start size write : Z,
     ~ (n <= length (List.filter nonempty parts))%nat ->
     validate_loop parts n start size write =
       match List.find (within_part start size) (List.filter nonempty parts) with
       | Some part => Ret (if grants part write then 0 else -1)
       | None => Abort OutOfBounds
       end).
Proof.
  split; [|split; [|split; [|split]]].
  - intros st. apply resync_loop_spec.
  - intros st Hn. rewrite resync_loop_spec.
    apply Nat.leb_le in Hn. rewrite Hn. apply res_bind_Ret_r.
  - intros st st' H. rewrite resync_loop_spec in H.
    destruct (Nat.leb_spec n (length (List.filter nonempty parts)));
      [assumption|].
    destruct (resync_all (counted parts n) st); discriminate.
  - intros start size write Hn. rewrite validate_loop_spec.
    apply Nat.leb_le in Hn. rewrite Hn.
    destruct (List.find _ _); reflexivity.
  - intros start size write Hn. rewrite validate_loop_spec.
    unfold counted. rewrite take_ge by lia.
    destruct (Nat.leb_spec n (length (List.filter nonempty parts))); [lia|].
    reflexivity.
Qed.

(** ** The memory-domain synchronizer *)

Lemma resync_count_app (l l' : list event) :
  resync_count (l ++ l') = (resync_count l + resync_count l')%nat.
Proof. unfold resync_count. rewrite List.filter_app, length_app. reflexivity. Qed.

(** [write_pmp_entries] leaves the log alone or appends one hardware write. *)
Lemma write_pmp_entries_log (start end_ : nat) (clear : bool)
    (pmp_addr pmp_n_cfg : list Z) (index_limit : nat) (log : list event) :
  (exists f, write_pmp_entries start end_ clear pmp_addr pmp_n_cfg index_limit log
             = (Abort f, log)) \/
  (exists cfg', write_pmp_entries start end_ clear pmp_addr pmp_n_cfg index_limit log
                = (Ret cfg', log ++ [EvHwWrite start end_ clear pmp_addr cfg']) /\
                (start < end_ <= index_limit)%nat).
Proof.
  destruct (decide (start < end_ <= index_limit)%nat) as [Hr|Hr].
  - unfold write_pmp_entries, M_bind, M_lift, __ASSERT, z_riscv_write_pmp_entries,
      emit, M_ret, k_panic, M_lift.
    destruct (CONFIG_ASSERT && _); [left; eauto|].
    destruct ((end_ <=? start)%nat || (index_limit <? end_)%nat); [left; eauto|].
    destruct (if clear then clear_trailing PMPCFG_STRIDE end_ pmp_n_cfg
              else Ret pmp_n_cfg) as [cfg'|f]; [right; eauto | left; eauto].
  - left. exists Panic. apply write_pmp_entries_panic. exact Hr.
Qed.

Lemma write_pmp_entries_resyncs (start end_ : nat) (clear : bool)
    (pmp_addr pmp_n_cfg : list Z) (index_limit : nat) (log : list event) :
  resync_count
    (snd (write_pmp_entries start end_ clear pmp_addr pmp_n_cfg index_limit log))
  = resync_count log.
Proof.
  destruct (write_pmp_entries_log start end_ clear pmp_addr pmp_n_cfg
              index_limit log) as [(f & ->) | (cfg' & -> & _)]; cbn [snd].
  - reflexivity.
  - rewrite resync_count_app. cbn. lia.
Qed.


Lemma enable_tail_cases (g : pmp_globals) (thread : k_thread) (log : list event) :
  (exists f log', enable_tail g thread log = (Abort f, log') /\
                  resync_count log' = resync_count log) \/
  (exists cfg' log', enable_tail g thread log = (Ret (with_cfg thread cfg'), log') /\
                     resync_count log' = resync_count log /\
                     (global_pmp_end_index g < u_mode_pmp_end_index thread)%nat).
Proof.
  unfold enable_tail, M_bind.
  set (log1 := snd ((if CONFIG_PMP_STACK_GUARD then emit (EvCsrClear MSTATUS_MPRV)
                     else M_ret tt) log)).
  assert (H1 : (if CONFIG_PMP_STACK_GUARD then emit (EvCsrClear MSTATUS_MPRV)
                else M_ret tt) log = (Ret tt, log1)).
  { unfold log1. destruct CONFIG_PMP_STACK_GUARD; reflexivity. }
  assert (Hc1 : resync_count log1 = resync_count log).
  { unfold log1. destruct CONFIG_PMP_STACK_GUARD; cbn [snd emit M_ret];
      [rewrite resync_count_app; cbn; lia | reflexivity]. }
  rewrite H1.
  destruct (write_pmp_entries_log (global_pmp_end_index g)
              (u_mode_pmp_end_index thread) true (u_mode_pmpaddr_regs thread)
              (u_mode_pmpcfg_regs thread) CONFIG_PMP_SLOTS log1)
    as [(f & ->) | (cfg' & -> & Hrange)].
  - left. exists f, log1. auto.
  - right. eexists cfg', _. split; [reflexivity|]. split; [|lia].
    rewrite resync_count_app. cbn. lia.
Qed.

Lemma resync_pmp_domain_update_nr (thread thread' : k_thread)
    (domain : k_mem_domain) :
  resync_pmp_domain thread domain = Ret thread' ->
  u_mode_pmp_update_nr thread' = pmp_update_nr domain.
Proof.
  unfold resync_pmp_domain. intros H. inv_res H.
  destruct x as [[index addr] cfg]. injection H as <-. reflexivity.
Qed.

(** The number of resynchronizations a call of
    [z_riscv_pmp_usermode_enable] performs. *)
Lemma usermode_enable_resyncs (g : pmp_globals) (thread : k_thread)
    (domain : k_mem_domain) (log : list event) :
  resync_count (snd (z_riscv_pmp_usermode_enable g thread domain log)) =
    (resync_count log +
     if (u_mode_pmp_end_index thread =? 0)%nat then 0
     else if (u_mode_pmp_update_nr thread =? pmp_update_nr domain)%Z then 0
          else 1)%nat.
Proof.
  unfold z_riscv_pmp_usermode_enable. fold (enable_tail g).
  destruct (u_mode_pmp_end_index thread =? 0)%nat;
    [unfold M_ret; cbn [snd]; lia|].
  destruct (u_mode_pmp_update_nr thread =? pmp_update_nr domain); cbn [negb].
  - unfold M_bind at 1. cbn [M_ret].
    destruct (enable_tail_cases g thread log)
      as [(f & log' & -> & Hc) | (cfg' & log' & -> & Hc & _)]; cbn [snd]; lia.
  - unfold M_bind at 1 2. unfold emit, M_lift.
    destruct (resync_pmp_domain thread domain) as [thread1|f].
    + destruct (enable_tail_cases g thread1 (log ++ [EvResync]))
        as [(f & log' & -> & Hc) | (cfg' & log' & -> & Hc & _)]; cbn [snd];
        rewrite Hc, resync_count_app; cbn; lia.
    + cbn [snd]. rewrite resync_count_app. cbn. lia.
Qed.

(** A call that returns leaves the thread in step with its domain, and
    prepared. *)
Lemma usermode_enable_Ret (g : pmp_globals) (thread thread' : k_thread)
    (domain : k_mem_domain) (log log' : list event) :
  u_mode_pmp_end_index thread <> 0%nat ->
  z_riscv_pmp_usermode_enable g thread domain log = (Ret thread', log') ->
  u_mode_pmp_update_nr thread' = pmp_update_nr domain /\
  u_mode_pmp_end_index thread' <> 0%nat.
Proof.
  intros Hprep. unfold z_riscv_pmp_usermode_enable. fold (enable_tail g).
  destruct (Nat.eqb_spec (u_mode_pmp_end_index thread) 0); [contradiction|].
  destruct (Z.eqb_spec (u_mode_pmp_update_nr thread) (pmp_update_nr domain))
    as [Heq|Hne]; cbn [negb].
  - unfold M_bind at 1. cbn [M_ret].
    destruct (enable_tail_cases g thread log)
      as [(f & log1 & -> & Hc) | (cfg' & log1 & -> & Hc & Hlt)]; [discriminate|].
    intros [= <- <-]. cbn. split; [assumption | lia].
  - unfold M_bind at 1 2. unfold emit, M_lift.
    destruct (resync_pmp_domain thread domain) as [thread1|f] eqn:Hres;
      [|discriminate].
    destruct (enable_tail_cases g thread1 (log ++ [EvResync]))
      as [(f & log1 & -> & Hc) | (cfg' & log1 & -> & Hc & Hlt)]; [discriminate|].
    intros [= <- <-]. cbn. split; [|lia].
    apply (resync_pmp_domain_update_nr thread). exact Hres.
Qed.

Lemma u32_succ_neq (x : Z) : u32 (x + 1) <> x.
Proof. unfold u32. Z.div_mod_to_equations. lia. Qed.

(** C6: for a prepared thread, a call of [z_riscv_pmp_usermode_enable]
    enters [resync_pmp_domain] exactly once if the thread's last-synced
    generation differs from the generation of its domain and not at all if
    the two are equal; the resync makes them equal.  Hence, after a call
    that returned, a further call with the domain unchanged resyncs zero
    times, and a call after one partition was added or removed resyncs
    exactly once. *)
Theorem usermode_enable_resync_iff_stale (g : pmp_globals) (thread : k_thread)
    (domain : k_mem_domain) (log : list event) :
  u_mode_pmp_end_index thread <> 0%nat ->
  (u_mode_pmp_update_nr thread <> pmp_update_nr domain ->
     resync_count (snd (z_riscv_pmp_usermode_enable g thread domain log))
       = S (resync_count log)) /\
  (u_mode_pmp_update_nr thread = pmp_update_nr domain ->
     resync_count (snd (z_riscv_pmp_usermode_enable g thread domain log))
       = resync_count log) /\
  (forall thread' : k_thread,
     resync_pmp_domain thread domain = Ret thread' ->
     u_mode_pmp_update_nr thread' = pmp_update_nr domain) /\
  (forall (thread' : k_thread) (log' : list event),
     z_riscv_pmp_usermode_enable g thread domain log = (Ret thread', log') ->
     u_mode_pmp_update_nr thread' = pmp_update_nr domain /\
     resync_count (snd (z_riscv_pmp_usermode_enable g thread' domain log'))
       = resync_count log' /\
     (forall partition_id : Z,
        resync_count
          (snd (z_riscv_pmp_usermode_enable g thread'
                  (arch_mem_domain_partition_add domain partition_id) log'))
          = S (resync_count log')) /\
     (forall partition_id : Z,
        resync_count
          (snd (z_riscv_pmp_usermode_enable g thread'
                  (arch_mem_domain_partition_remove domain partition_id) log'))
          = S (resync_count log'))).
Proof.
  intros Hprep.
  assert (Hcount : forall th d l, u_mode_pmp_end_index th <> 0%nat ->
    resync_count (snd (z_riscv_pmp_usermode_enable g th d l)) =
      (resync_count l +
       if (u_mode_pmp_update_nr th =? pmp_update_nr d)%Z then 0 else 1)%nat).
  { intros th d l Hp. rewrite usermode_enable_resyncs.
    destruct (Nat.eqb_spec (u_mode_pmp_end_index th) 0); [contradiction|].
    reflexivity. }
  split; [|split; [|split]].
  - intros Hstale. rewrite Hcount by assumption.
    destruct (Z.eqb_spec (u_mode_pmp_update_nr thread) (pmp_update_nr domain));
      [contradiction | lia].
  - intros Hsync. rewrite Hcount by assumption.
    destruct (Z.eqb_spec (u_mode_pmp_update_nr thread) (pmp_update_nr domain));
      [lia | contradiction].
  - intros thread'. apply resync_pmp_domain_update_nr.
  - intros thread' log' Hrun.
    destruct (usermode_enable_Ret g thread thread' domain log log' Hprep Hrun)
      as [Hnr Hprep'].
    split; [exact Hnr|]. split; [|split].
    + rewrite Hcount by assumption. rewrite Hnr, Z.eqb_refl. lia.
    + intros partition_id. rewrite Hcount by assumption.
      cbn [arch_mem_domain_partition_add pmp_update_nr]. rewrite Hnr.
      destruct (Z.eqb_spec (pmp_update_nr domain) (u32 (pmp_update_nr domain + 1)))
        as [Heq|]; [|lia].
      exfalso. apply (u32_succ_neq (pmp_update_nr domain)). congruence.
    + intros partition_id. rewrite Hcount by assumption.
      cbn [arch_mem_domain_partition_remove pmp_update_nr]. rewrite Hnr.
      destruct (Z.eqb_spec (pmp_update_nr domain) (u32 (pmp_update_nr domain + 1)))
        as [Heq|]; [|lia].
      exfalso. apply (u32_succ_neq (pmp_update_nr domain)). congruence.
Qed.

(** What [z_riscv_pmp_usermode_prepare] leaves in the thread: the
    last-synced generation is the constant 0, so that the first
    [z_riscv_pmp_usermode_enable] resyncs exactly when the generation of
    the domain is not 0. *)
Lemma usermode_prepare_first_enable (g : pmp_globals) (thread thread' : k_thread)
    (domain : k_mem_domain) (log : list event) :
  z_riscv_pmp_usermode_prepare g thread = Ret thread' ->
  u_mode_pmp_update_nr thread' = 0 /\
  (u_mode_pmp_end_index thread' <> 0%nat ->
   resync_count (snd (z_riscv_pmp_usermode_enable g thread' domain log)) =
     (resync_count log + if (pmp_update_nr domain =? 0)%Z then 0 else 1)%nat).
Proof.
  unfold z_riscv_pmp_usermode_prepare. intros H. inv_res H.
  destruct x0 as [[[ok index] addr] cfg]. injection H as <-.
  split; [reflexivity|]. cbn [u_mode_pmp_end_index]. intros Hprep.
  rewrite usermode_enable_resyncs. cbn [u_mode_pmp_end_index u_mode_pmp_update_nr].
  destruct (Nat.eqb_spec index 0); [contradiction|].
  rewrite Z.eqb_sym. reflexivity.
Qed.

(** ** Further properties of the region encoder *)

(** The chaining test never faults when the slot before the cursor exists. *)
Lemma chain_test_Ret (index : nat) (start : Z) (pmp_addr : list Z) :
  (index <= length pmp_addr)%nat ->
  exists b : bool,
    (if (index =? 0)%nat then Ret (start =? 0)
     else p <- load pmp_addr (index - 1) ;; Ret (p =? PMP_ADDR start)) = Ret b.
Proof.
  intros Hlen. destruct (Nat.eqb_spec index 0) as [|Hi]; [eauto|].
  destruct (lookup_lt_is_Some_2 pmp_addr (index - 1) ltac:(lia)) as [p Hp].
  rewrite (load_lookup _ _ _ Hp). cbn [res_bind]. eauto.
Qed.

Lemma ASSERT_Ret (test : bool) :
  (CONFIG_ASSERT = true -> test = true) -> __ASSERT test = Ret tt.
Proof.
  intros H. unfold __ASSERT. destruct CONFIG_ASSERT; [|reflexivity].
  rewrite (H eq_refl). reflexivity.
Qed.

Lemma ASSERT_Abort (test : bool) :
  CONFIG_ASSERT = true -> test = false -> __ASSERT test = Abort Panic.
Proof. intros Ha ->. unfold __ASSERT. rewrite Ha. reflexivity. Qed.

(** What a call that returns has done to the cursor and to the arrays. *)
Lemma set_pmp_entry_effect (index : nat) (perm start size : Z)
    (pmp_addr pmp_n_cfg : list Z) (index_limit : nat) (ok : bool)
    (index' : nat) (pmp_addr' pmp_n_cfg' : list Z) :
  set_pmp_entry index perm start size pmp_addr pmp_n_cfg index_limit
    = Ret (ok, index', pmp_addr', pmp_n_cfg') ->
  (index <= index' <= index + 2)%nat /\
  (ok = true -> (index < index' <= index_limit)%nat /\
                (index' <= length pmp_addr)%nat /\
                (index' <= length pmp_n_cfg)%nat) /\
  (ok = false -> index' = index) /\
  length pmp_addr' = length pmp_addr /\
  length pmp_n_cfg' = length pmp_n_cfg /\
  forall i : nat, (i < index \/ index' <= i)%nat ->
    pmp_addr' !! i = pmp_addr !! i /\ pmp_n_cfg' !! i = pmp_n_cfg !! i.
Proof.
  intros H. destruct ok.
  - apply set_pmp_entry_true in H as (Hlt & Hla & Hlc & Hcases).
    destruct Hcases as [(Hch & -> & -> & ->) | [(Hn & Hnp & -> & -> & ->)
                       | (Hn & Hnp & Hlt' & Hla' & Hlc' & -> & -> & ->)]];
      rewrite ?length_insert;
      (split; [lia|]); (split; [intros _; lia|]); (split; [discriminate|]);
      (split; [reflexivity|]); (split; [reflexivity|]);
      intros i Hi; rewrite ?list_lookup_insert_ne by lia; auto.
  - apply set_pmp_entry_false in H as (-> & -> & -> & _).
    split; [lia|]. split; [discriminate|]. auto.
Qed.

(** The result of a call on arrays that reach [index_limit]. *)
Lemma set_pmp_entry_total (index : nat) (perm start size : Z)
    (pmp_addr pmp_n_cfg : list Z) (index_limit : nat) :
  (index_limit <= length pmp_addr)%nat ->
  (index_limit <= length pmp_n_cfg)%nat ->
  (CONFIG_ASSERT = true -> Z.land start 3 = 0 /\ Z.land size 3 = 0) ->
  exists (ok : bool) (index' : nat) (pmp_addr' pmp_n_cfg' : list Z),
    set_pmp_entry index perm start size pmp_addr pmp_n_cfg index_limit
      = Ret (ok, index', pmp_addr', pmp_n_cfg') /\
    (ok = true <->
     (index < index_limit)%nat /\
     (chains index start pmp_addr \/ napot_test start size = true \/
      (index + 1 < index_limit)%nat)).
Proof.
  intros Hla Hlc Hal. unfold set_pmp_entry.
  rewrite !ASSERT_Ret
    by (intros Ha; destruct (Hal Ha) as [H1 H2]; apply Z.eqb_eq; assumption).
  cbn [res_bind].
  destruct (Nat.leb_spec index_limit index) as [Hle|Hlt].
  { eexists _, _, _, _. split; [reflexivity|]. split; [discriminate | lia]. }
  destruct (chain_test_Ret index start pmp_addr ltac:(lia)) as [b Hb].
  pose proof (chains_dec _ _ _ _ Hb) as Hch. rewrite Hb. cbn [res_bind].
  destruct b.
  - rewrite !store_lt by lia. cbn [res_bind].
    eexists _, _, _, _. split; [reflexivity|].
    split; [intros _|reflexivity]. split; [lia|]. left. apply Hch. reflexivity.
  - assert (Hn : ~ chains index start pmp_addr)
      by (intros Hc; apply Hch in Hc; discriminate).
    fold (napot_test start size). destruct (napot_test start size) eqn:Hnp.
    + rewrite !store_lt by lia. cbn [res_bind].
      eexists _, _, _, _. split; [reflexivity|].
      split; [intros _|reflexivity]. split; [lia|]. auto.
    + destruct (Nat.leb_spec index_limit (index + 1)) as [Hle'|Hlt'].
      * eexists _, _, _, _. split; [reflexivity|]. split; [discriminate|].
        intros [_ [Hc | [Hc | Hc]]]; [contradiction | discriminate | lia].
      * rewrite (store_lt pmp_addr) by lia. cbn [res_bind].
        rewrite (store_lt pmp_n_cfg) by lia. cbn [res_bind].
        rewrite !store_lt by (rewrite length_insert; lia). cbn [res_bind].
        eexists _, _, _, _. split; [reflexivity|].
        split; [intros _|reflexivity]. split; [lia|]. auto.
Qed.

(** X1: on arrays that reach [index_limit], and with aligned arguments
    whenever assertions are compiled in, [set_pmp_entry] returns without
    any out-of-bounds access, and it succeeds exactly when the cursor is
    below [index_limit] and either the region takes one slot (it chains, or
    passes the power-of-two test) or a second slot is free as well. *)
Theorem set_pmp_entry_success_iff (index : nat) (perm start size : Z)
    (pmp_addr pmp_n_cfg : list Z) (index_limit : nat) :
  (index_limit <= length pmp_addr)%nat ->
  (index_limit <= length pmp_n_cfg)%nat ->
  (CONFIG_ASSERT = true -> Z.land start 3 = 0 /\ Z.land size 3 = 0) ->
  exists (ok : bool) (index' : nat) (pmp_addr' pmp_n_cfg' : list Z),
    set_pmp_entry index perm start size pmp_addr pmp_n_cfg index_limit
      = Ret (ok, index', pmp_addr', pmp_n_cfg') /\
    length pmp_addr' = length pmp_addr /\
    length pmp_n_cfg' = length pmp_n_cfg /\
    (ok = true <->
     (index < index_limit)%nat /\
     (chains index start pmp_addr \/ napot_test start size = true \/
      (index + 1 < index_limit)%nat)).
Proof.
  intros Hla Hlc Hal.
  destruct (set_pmp_entry_total index perm start size pmp_addr pmp_n_cfg
              index_limit Hla Hlc Hal) as (ok & index' & a' & c' & Hrun & Hiff).
  destruct (set_pmp_entry_effect _ _ _ _ _ _ _ _ _ _ _ Hrun)
    as (_ & _ & _ & Hl1 & Hl2 & _).
  exists ok, index', a', c'. auto.
Qed.

(** X2: a call that returns, successful or not, moves the cursor forward
    by at most 2 and never past [index_limit] on success, keeps the length
    of both arrays, and leaves every slot below the old cursor and every
    slot from the new cursor on as it was. *)
Theorem set_pmp_entry_frame (index : nat) (perm start size : Z)
    (pmp_addr pmp_n_cfg : list Z) (index_limit : nat) (ok : bool)
    (index' : nat) (pmp_addr' pmp_n_cfg' : list Z) :
  set_pmp_entry index perm start size pmp_addr pmp_n_cfg index_limit
    = Ret (ok, index', pmp_addr', pmp_n_cfg') ->
  (index <= index' <= index + 2)%nat /\
  (ok = true -> (index < index' <= index_limit)%nat) /\
  (ok = false -> index' = index) /\
  length pmp_addr' = length pmp_addr /\
  length pmp_n_cfg' = length pmp_n_cfg /\
  forall i : nat, (i < index \/ index' <= i)%nat ->
    pmp_addr' !! i = pmp_addr !! i /\ pmp_n_cfg' !! i = pmp_n_cfg !! i.
Proof.
  intros H.
  destruct (set_pmp_entry_effect _ _ _ _ _ _ _ _ _ _ _ H)
    as (H1 & H2 & H3 & H4 & H5 & H6).
  split; [exact H1|]. split; [intros Hok; apply (H2 Hok)|]. auto.
Qed.

(** X3: with assertions compiled in, a call whose start or size is not a
    multiple of 4 panics; with assertions compiled out no call panics (the
    only fault left is an access outside the arrays). *)
Theorem set_pmp_entry_misaligned (index : nat) (perm start size : Z)
    (pmp_addr pmp_n_cfg : list Z) (index_limit : nat) :
  (CONFIG_ASSERT = true -> Z.land start 3 <> 0 \/ Z.land size 3 <> 0 ->
     set_pmp_entry index perm start size pmp_addr pmp_n_cfg index_limit
       = Abort Panic) /\
  (CONFIG_ASSERT = false ->
     set_pmp_entry index perm start size pmp_addr pmp_n_cfg index_limit
       <> Abort Panic /\
     set_pmp_entry index perm start size pmp_addr pmp_n_cfg index_limit
       <> Abort OutOfFuel).
Proof.
  split.
  - intros Ha Hmis. unfold set_pmp_entry.
    destruct (Z.eqb_spec (Z.land start 3) 0) as [Hs|Hs].
    + rewrite ASSERT_true. cbn [res_bind].
      destruct (Z.eqb_spec (Z.land size 3) 0) as [Hz|Hz]; [tauto|].
      rewrite ASSERT_Abort by auto. reflexivity.
    + rewrite ASSERT_Abort by auto. reflexivity.
  - intros Ha. unfold set_pmp_entry, __ASSERT. rewrite Ha. cbn [andb res_bind].
    unfold store, load.
    repeat match goal with
    | |- context [if ?b then _ else _] => destruct b
    | |- context [match ?o with Some _ => _ | None => _ end] => destruct o
    | |- context [res_bind _ _] => cbn [res_bind]
    | |- context [length (<[_ := _]> _)] => rewrite length_insert
    end; split; discriminate.
Qed.

(** X4: after a successful call that ended in a top-of-range entry (the
    region chained, or took two slots), a call for a region that starts
    where the first one ends chains: it succeeds with one more slot as long
    as one is free. *)
Theorem set_pmp_entry_chain_next (index : nat) (perm start size : Z)
    (pmp_addr pmp_n_cfg : list Z) (index_limit index' : nat)
    (pmp_addr' pmp_n_cfg' : list Z) (perm2 size2 : Z) :
  (index_limit <= length pmp_addr)%nat ->
  (index_limit <= length pmp_n_cfg)%nat ->
  start mod 4 = 0 -> size mod 4 = 0 -> size2 mod 4 = 0 ->
  set_pmp_entry index perm start size pmp_addr pmp_n_cfg index_limit
    = Ret (true, index', pmp_addr', pmp_n_cfg') ->
  chains index start pmp_addr \/ napot_test start size = false ->
  (index' < index_limit)%nat ->
  chains index' (ulong (start + size)) pmp_addr' /\
  exists pmp_addr'' pmp_n_cfg'' : list Z,
    set_pmp_entry index' perm2 (ulong (start + size)) size2
        pmp_addr' pmp_n_cfg' index_limit
      = Ret (true, (index' + 1)%nat, pmp_addr'', pmp_n_cfg'').
Proof.
  intros Hla Hlc Has Haz Haz2 Hrun Htor Hfree.
  pose proof (set_pmp_entry_effect _ _ _ _ _ _ _ _ _ _ _ Hrun)
    as (_ & _ & _ & Hl1 & Hl2 & _).
  assert (Hch : chains index' (ulong (start + size)) pmp_addr').
  { apply set_pmp_entry_true in Hrun as (Hlt & Hla' & Hlc' & Hcases).
    right.
    destruct Hcases as [(Hc & -> & -> & ->) | [(Hn & Hnp & -> & -> & ->)
                       | (Hn & Hnp & Hlt' & Hla2 & Hlc2 & -> & -> & ->)]].
    - split; [lia|]. replace (index + 1 - 1)%nat with index by lia.
      apply list_lookup_insert_eq. assumption.
    - destruct Htor as [Hc | Hf]; [contradiction | congruence].
    - split; [lia|]. replace (index + 2 - 1)%nat with (index + 1)%nat by lia.
      apply list_lookup_insert_eq. rewrite length_insert. assumption. }
  split; [exact Hch|].
  destruct (set_pmp_entry_total index' perm2 (ulong (start + size)) size2
              pmp_addr' pmp_n_cfg' index_limit)
    as (ok & i2 & a2 & c2 & Hrun2 & Hiff); [lia | lia | |].
  { intros _. rewrite !land_3_mod4, ulong_mod4.
    split; [|assumption]. rewrite Z.add_mod, Has, Haz by lia. reflexivity. }
  assert (Hok : ok = true) by (apply Hiff; auto). subst ok.
  exists a2, c2. rewrite Hrun2.
  apply set_pmp_entry_true in Hrun2 as (_ & _ & _ & Hcases).
  destruct Hcases as [(_ & -> & _) | [(Hn & _) | (Hn & _)]];
    [reflexivity | contradiction | contradiction].
Qed.

(** ** Further properties of the dump *)

Lemma print_pmp_entry_ext (index : nat) (a c a' c' : list Z) :
  (forall i : nat, (i <= index)%nat -> a' !! i = a !! i /\ c' !! i = c !! i) ->
  print_pmp_entry index a' c' = print_pmp_entry index a c.
Proof.
  intros H. unfold print_pmp_entry, load.
  destruct (H index ltac:(lia)) as [-> ->].
  destruct (H (index - 1)%nat ltac:(lia)) as [-> _]. reflexivity.
Qed.

Lemma print_pmp_loop_ext (n : nat) :
  forall (index : nat) (a c a' c' : list Z),
    (forall i : nat, (i < index + n)%nat ->
       a' !! i = a !! i /\ c' !! i = c !! i) ->
    print_pmp_loop index n a' c' = print_pmp_loop index n a c.
Proof.
  induction n as [|n IH]; intros index a c a' c' H; [reflexivity|].
  cbn [print_pmp_loop].
  rewrite (print_pmp_entry_ext index a c a' c') by (intros i Hi; apply H; lia).
  rewrite (IH (S index) a c a' c') by (intros i Hi; apply H; lia).
  reflexivity.
Qed.

Lemma print_pmp_loop_app (n m : nat) :
  forall (index : nat) (a c : list Z),
    print_pmp_loop index (n + m) a c =
      (l1 <- print_pmp_loop index n a c ;;
       l2 <- print_pmp_loop (index + n) m a c ;;
       Ret (l1 ++ l2)).
Proof.
  induction n as [|n IH]; intros index a c.
  - cbn [print_pmp_loop Nat.add res_bind]. rewrite Nat.add_0_r.
    destruct (print_pmp_loop index m a c); reflexivity.
  - cbn [print_pmp_loop Nat.add].
    destruct (print_pmp_entry index a c) as [l|f]; cbn [res_bind]; [|reflexivity].
    rewrite IH. replace (S index + n)%nat with (index + S n)%nat by lia.
    destruct (print_pmp_loop (S index) n a c) as [l1|f]; cbn [res_bind];
      [|reflexivity].
    destruct (print_pmp_loop (index + S n) m a c) as [l2|f]; reflexivity.
Qed.

Lemma decoded_ranges_ext (s e : nat) (a c a' c' : list Z) :
  (forall i : nat, (i < e)%nat -> a' !! i = a !! i /\ c' !! i = c !! i) ->
  decoded_ranges s e a' c' = decoded_ranges s e a c.
Proof.
  intros H. unfold decoded_ranges, print_pmp_entries.
  destruct (Nat.le_gt_cases s e) as [Hle|Hgt].
  - rewrite (print_pmp_loop_ext (e - s) s a c a' c'); [reflexivity|].
    intros i Hi. apply H. lia.
  - replace (e - s)%nat with 0%nat by lia. reflexivity.
Qed.

Lemma decoded_ranges_app (s m e : nat) (a c : list Z) :
  (s <= m <= e)%nat ->
  decoded_ranges s e a c =
    (r1 <- decoded_ranges s m a c ;;
     r2 <- decoded_ranges m e a c ;;
     Ret (r1 ++ r2)).
Proof.
  intros H. unfold decoded_ranges, print_pmp_entries.
  replace (e - s)%nat with ((m - s) + (e - m))%nat by lia.
  rewrite print_pmp_loop_app. replace (s + (m - s))%nat with m by lia.
  replace (m - s + (e - m) - (m - s))%nat with (e - m)%nat by lia.
  destruct (print_pmp_loop s (m - s) a c) as [l1|f]; cbn [res_bind]; [|reflexivity].
  destruct (print_pmp_loop m (e - m) a c) as [l2|f]; cbn [res_bind]; [|reflexivity].
  rewrite omap_app. reflexivity.
Qed.

Lemma print_pmp_entry_Ret (index : nat) (a c : list Z) :
  (index < length a)%nat -> (index < length c)%nat ->
  exists l : pmp_line, print_pmp_entry index a c = Ret l.
Proof.
  intros Ha Hc. unfold print_pmp_entry.
  destruct (lookup_lt_is_Some_2 c index Hc) as [cfg Hcfg].
  destruct (lookup_lt_is_Some_2 a index Ha) as [av Hav].
  rewrite (load_lookup _ _ _ Hcfg), (load_lookup _ _ _ Hav). cbn [res_bind].
  assert (Hprev : exists s, (if (index =? 0)%nat then Ret 0
             else p <- load a (index - 1) ;; Ret (ulong (Z.shiftl p 2))) = Ret s).
  { destruct (index =? 0)%nat; [eauto|].
    destruct (lookup_lt_is_Some_2 a (index - 1) ltac:(lia)) as [p Hp].
    rewrite (load_lookup _ _ _ Hp). cbn [res_bind]. eauto. }
  destruct Hprev as [s ->]. cbn [res_bind].
  destruct (Z.land cfg PMP_A =? PMP_TOR); cbn [res_bind];
    [|destruct (Z.land cfg PMP_A =? PMP_NA4); cbn [res_bind];
      [|destruct (Z.land cfg PMP_A =? PMP_NAPOT); cbn [res_bind]]];
    match goal with |- context [if ?b then _ else _] => destruct b end; eauto.
Qed.

(** X5: on arrays that reach [end], [print_pmp_entries] reads inside the
    arrays only and shows one line per slot of [start, end); and what it
    shows depends on the slots below [end] alone. *)
Theorem print_pmp_entries_lines (start end_ : nat) (pmp_addr pmp_n_cfg : list Z) :
  (end_ <= length pmp_addr)%nat -> (end_ <= length pmp_n_cfg)%nat ->
  (exists ls : list pmp_line,
     print_pmp_entries start end_ pmp_addr pmp_n_cfg = Ret ls /\
     length ls = (end_ - start)%nat) /\
  (forall pmp_addr' pmp_n_cfg' : list Z,
     (forall i : nat, (i < end_)%nat ->
        pmp_addr' !! i = pmp_addr !! i /\ pmp_n_cfg' !! i = pmp_n_cfg !! i) ->
     print_pmp_entries start end_ pmp_addr' pmp_n_cfg'
     = print_pmp_entries start end_ pmp_addr pmp_n_cfg).
Proof.
  intros Ha Hc. split.
  - unfold print_pmp_entries.
    assert (Hgen : forall n index, (index + n <= length pmp_addr)%nat ->
              (index + n <= length pmp_n_cfg)%nat ->
              exists ls, print_pmp_loop index n pmp_addr pmp_n_cfg = Ret ls /\
                         length ls = n).
    { induction n as [|n IH]; intros index H1 H2; [exists []; auto|].
      cbn [print_pmp_loop].
      destruct (print_pmp_entry_Ret index pmp_addr pmp_n_cfg) as [l ->]; [lia|lia|].
      destruct (IH (S index)) as (ls & -> & Hl); [lia|lia|].
      cbn [res_bind]. exists (l :: ls). split; [reflexivity|]. cbn. lia. }
    destruct (Nat.le_ge_cases start end_).
    + apply Hgen; lia.
    + replace (end_ - start)%nat with 0%nat by lia. exists []. auto.
  - intros a' c' H. unfold print_pmp_entries.
    destruct (Nat.le_gt_cases start end_) as [Hle|Hgt].
    + apply print_pmp_loop_ext. intros i Hi. apply H. lia.
    + replace (end_ - start)%nat with 0%nat by lia. reflexivity.
Qed.

(** ** Composition of the encoder and the dump *)

(** The ranges the dump shows for the slots of one successful call. *)
Lemma set_pmp_entry_decoded (index : nat) (perm start size : Z)
    (pmp_addr pmp_n_cfg : list Z) (index_limit index' : nat)
    (pmp_addr' pmp_n_cfg' : list Z) :
  0 <= perm < 256 -> Z.land perm PMP_A = 0 ->
  0 <= start < 2 ^ XLEN -> 0 < size < 2 ^ XLEN ->
  start mod 4 = 0 -> size mod 4 = 0 ->
  set_pmp_entry index perm start size pmp_addr pmp_n_cfg index_limit
    = Ret (true, index', pmp_addr', pmp_n_cfg') ->
  decoded_ranges index index' pmp_addr' pmp_n_cfg' =
    Ret [Build_pmp_range start (ulong (start + size - 1))
           (perm_r perm) (perm_w perm) (perm_x perm) (perm_locked perm)].
Proof.
  intros Hperm HA Hs Hz Has Haz H.
  apply set_pmp_entry_true in H as (Hlt & Hla & Hlc & Hcases).
  destruct (tor_end start size Has Haz) as [He Hne].
  destruct (cfg_byte perm PMP_TOR Hperm HA ltac:(auto))
    as (Hu & Hm & Hr & Hw & Hx & Hl).
  unfold decoded_ranges, print_pmp_entries.
  destruct Hcases as [(Hch & -> & -> & ->) | [(Hn & Hnp & -> & -> & ->)
                     | (Hn & Hnp & Hlt' & Hla' & Hlc' & -> & -> & ->)]].
  - (* one top-of-range entry *)
    replace (index + 1 - index)%nat with 1%nat by lia. cbn [print_pmp_loop].
    rewrite (print_pmp_entry_tor index _ _ (PMP_ADDR (ulong (start + size)))
               (Z.lor perm PMP_TOR) start).
    + simpl. rewrite He, Hr, Hw, Hx, Hl. reflexivity.
    + rewrite Hu. apply list_lookup_insert_eq; assumption.
    + apply list_lookup_insert_eq; assumption.
    + exact Hm.
    + apply chains_prev; assumption.
    + rewrite He. exact Hne.
  - (* one naturally aligned entry *)
    replace (index + 1 - index)%nat with 1%nat by lia. cbn [print_pmp_loop].
    apply napot_test_spec in Hnp; [| lia | lia].
    destruct Hnp as [[Hp2 Hmod] | [_ ->]]; [| lia].
    destruct (pow2_aligned size Hp2 Haz) as (k & Hk & ->).
    destruct (Z.eq_dec k 2) as [-> | Hk3].
    + change (2 ^ 2) with 4 in *. change (4 =? 4) with true. cbv iota.
      destruct (cfg_byte perm PMP_NA4 Hperm HA ltac:(auto))
        as (Hu' & Hm' & Hr' & Hw' & Hx' & Hl').
      rewrite na4_addr by assumption.
      assert (Hsh : ulong (Z.shiftl (PMP_ADDR start) 2) = start)
        by (apply PMP_ADDR_shiftl; assumption).
      assert (He4 : ulong (start + 3) = ulong (start + 4 - 1)) by (f_equal; lia).
      rewrite (print_pmp_entry_na4 index _ _ (PMP_ADDR start) (Z.lor perm PMP_NA4)).
      * simpl. rewrite Hsh, He4, Hr', Hw', Hx', Hl'. reflexivity.
      * rewrite Hu'. apply list_lookup_insert_eq; assumption.
      * apply list_lookup_insert_eq; assumption.
      * exact Hm'.
      * rewrite Hsh, He4. exact Hne.
    + assert (H8 : 2 ^ 3 <= 2 ^ k) by (apply Z.pow_le_mono_r; lia).
      change (2 ^ 3) with 8 in H8.
      replace (2 ^ k =? 4) with false by (symmetry; apply Z.eqb_neq; lia).
      destruct (cfg_byte perm PMP_NAPOT Hperm HA ltac:(auto))
        as (Hu' & Hm' & Hr' & Hw' & Hx' & Hl').
      destruct (napot_roundtrip start k ltac:(lia) Hs ltac:(lia) Hmod) as [Hst Hen].
      pose proof (aligned_block_fits start k ltac:(lia) Hs ltac:(lia) Hmod) as Hfit.
      rewrite (print_pmp_entry_napot index _ _ (PMP_ADDR_NAPOT start (2 ^ k))
                 (Z.lor perm PMP_NAPOT)).
      * simpl. rewrite Hst, Hen, Hr', Hw', Hx', Hl'.
        rewrite (ulong_small (start + 2 ^ k - 1)) by lia. reflexivity.
      * rewrite Hu'. apply list_lookup_insert_eq; assumption.
      * apply list_lookup_insert_eq; assumption.
      * exact Hm'.
      * cbv zeta. rewrite Hen. lia.
  - (* a range-start marker and a top-of-range entry *)
    replace (index + 2 - index)%nat with 2%nat by lia. cbn [print_pmp_loop].
    rewrite (print_pmp_entry_off index _ _ (PMP_ADDR start)).
    + rewrite (print_pmp_entry_tor (S index) _ _ (PMP_ADDR (ulong (start + size)))
                 (Z.lor perm PMP_TOR) start).
      * simpl. rewrite He, Hr, Hw, Hx, Hl. reflexivity.
      * rewrite Hu. replace (S index) with (index + 1)%nat by lia.
        apply list_lookup_insert_eq. rewrite length_insert. assumption.
      * replace (S index) with (index + 1)%nat by lia.
        apply list_lookup_insert_eq. rewrite length_insert. assumption.
      * exact Hm.
      * exists (PMP_ADDR start). split.
        -- rewrite list_lookup_insert_ne by lia.
           apply list_lookup_insert_eq; assumption.
        -- symmetry. apply PMP_ADDR_shiftl; assumption.
      * rewrite He. exact Hne.
    + rewrite list_lookup_insert_ne by lia.
      apply list_lookup_insert_eq; assumption.
    + rewrite list_lookup_insert_ne by lia.
      apply list_lookup_insert_eq; assumption.
Qed.

(** ** Further properties of the synchronizer *)

Lemma set_pmp_entry_aligned (index : nat) (perm start size : Z)
    (pmp_addr pmp_n_cfg : list Z) (index_limit : nat)
    (r : bool * nat * list Z * list Z) :
  CONFIG_ASSERT = true ->
  set_pmp_entry index perm start size pmp_addr pmp_n_cfg index_limit = Ret r ->
  start mod 4 = 0 /\ size mod 4 = 0.
Proof.
  intros Ha H. rewrite <- !land_3_mod4.
  destruct (Z.eq_dec (Z.land start 3) 0) as [Hs|Hs];
    [destruct (Z.eq_dec (Z.land size 3) 0) as [Hz|Hz]; [auto|]|];
    exfalso; unfold set_pmp_entry in H.
  - apply Z.eqb_eq in Hs. rewrite Hs, ASSERT_true in H. cbn [res_bind] in H.
    apply Z.eqb_neq in Hz. rewrite ASSERT_Abort in H by auto. discriminate.
  - apply Z.eqb_neq in Hs. rewrite ASSERT_Abort in H by auto. discriminate.
Qed.

Lemma resync_partition_effect (part : k_mem_partition) (index : nat)
    (a c : list Z) (index' : nat) (a' c' : list Z) :
  resync_partition part (index, a, c) = Ret (index', a', c') ->
  (index <= index' <= index + 2)%nat /\
  ((index < index')%nat -> (index' <= CONFIG_PMP_SLOTS)%nat) /\
  length a' = length a /\ length c' = length c /\
  (forall i : nat, (i < index \/ index' <= i)%nat ->
     a' !! i = a !! i /\ c' !! i = c !! i) /\
  (CONFIG_ASSERT = true ->
     4 <= part_size part /\ part_start part mod 4 = 0 /\
     part_size part mod 4 = 0 /\
     set_pmp_entry index (part_pmp_attr part) (part_start part)
       (part_size part) a c CONFIG_PMP_SLOTS = Ret (true, index', a', c')).
Proof.
  unfold resync_partition. destruct (Z.ltb_spec (part_size part) 4) as [Hsmall|Hbig].
  - intros H. inv_res H. injection H as <- <- <-.
    split; [lia|]. split; [lia|]. split; [reflexivity|]. split; [reflexivity|].
    split; [auto|]. intros Ha. unfold __ASSERT in Hx. rewrite Ha in Hx.
    discriminate.
  - intros H. inv_res H. destruct x as [[[ok i1] a1] c1]. inv_res H.
    injection H as <- <- <-.
    destruct (set_pmp_entry_effect _ _ _ _ _ _ _ _ _ _ _ Hx)
      as (H1 & H2 & H3 & H4 & H5 & H6).
    split; [exact H1|]. split.
    { intros Hlt. destruct ok; [apply H2; reflexivity | specialize (H3 eq_refl); lia]. }
    split; [exact H4|]. split; [exact H5|]. split; [exact H6|].
    intros Ha. destruct (set_pmp_entry_aligned _ _ _ _ _ _ _ _ Ha Hx) as [Hs Hz].
    split; [lia|]. split; [exact Hs|]. split; [exact Hz|].
    destruct ok; [exact Hx|]. unfold __ASSERT in Hx0. rewrite Ha in Hx0.
    discriminate.
Qed.

Lemma resync_all_effect (ps : list k_mem_partition) :
  forall (index : nat) (a c : list Z) (index' : nat) (a' c' : list Z),
    resync_all ps (index, a, c) = Ret (index', a', c') ->
    (index <= index')%nat /\
    ((index < index')%nat -> (index' <= CONFIG_PMP_SLOTS)%nat) /\
    length a' = length a /\ length c' = length c /\
    (forall i : nat, (i < index)%nat -> a' !! i = a !! i /\ c' !! i = c !! i) /\
    (CONFIG_ASSERT = true -> (index + length ps <= index')%nat).
Proof.
  induction ps as [|part rest IH]; intros index a c index' a' c' H.
  - injection H as <- <- <-. repeat split; cbn; lia.
  - cbn [resync_all] in H. inv_res H. destruct x as [[i1 a1] c1].
    destruct (resync_partition_effect _ _ _ _ _ _ _ Hx)
      as (H1 & H2 & H3 & H4 & H5 & H6).
    destruct (IH _ _ _ _ _ _ H) as (K1 & K2 & K3 & K4 & K5 & K6).
    split; [lia|]. split.
    { intros Hlt. destruct (Nat.eq_dec i1 index') as [<-|]; [apply H2; lia|].
      apply K2. lia. }
    split; [congruence|]. split; [congruence|]. split.
    { intros i Hi. destruct (K5 i ltac:(lia)) as [-> ->]. apply H5. lia. }
    intros Ha. specialize (K6 Ha). destruct (H6 Ha) as (_ & _ & _ & Hset).
    destruct (set_pmp_entry_effect _ _ _ _ _ _ _ _ _ _ _ Hset) as (_ & Hok & _).
    specialize (Hok eq_refl). cbn [length]. lia.
Qed.

(** X6: a resync that returns keeps the thread's stack bounds and domain
    offset, takes over the generation of the domain, leaves every slot
    below the domain offset (the global entries and the thread's stack
    entry) as it was, keeps the length of both arrays, and ends with an end
    index that is at least the domain offset and, once anything was
    encoded, at most [CONFIG_PMP_SLOTS]. *)
Theorem resync_pmp_domain_frame (thread thread' : k_thread)
    (domain : k_mem_domain) :
  resync_pmp_domain thread domain = Ret thread' ->
  stack_info_start thread' = stack_info_start thread /\
  stack_info_size thread' = stack_info_size thread /\
  u_mode_pmp_domain_offset thread' = u_mode_pmp_domain_offset thread /\
  u_mode_pmp_update_nr thread' = pmp_update_nr domain /\
  (u_mode_pmp_domain_offset thread <= u_mode_pmp_end_index thread')%nat /\
  ((u_mode_pmp_domain_offset thread < u_mode_pmp_end_index thread')%nat ->
     (u_mode_pmp_end_index thread' <= CONFIG_PMP_SLOTS)%nat) /\
  length (u_mode_pmpaddr_regs thread') = length (u_mode_pmpaddr_regs thread) /\
  length (u_mode_pmpcfg_regs thread') = length (u_mode_pmpcfg_regs thread) /\
  forall i : nat, (i < u_mode_pmp_domain_offset thread)%nat ->
    u_mode_pmpaddr_regs thread' !! i = u_mode_pmpaddr_regs thread !! i /\
    u_mode_pmpcfg_regs thread' !! i = u_mode_pmpcfg_regs thread !! i.
Proof.
  unfold resync_pmp_domain. intros H. inv_res H.
  destruct x as [[index a] c]. injection H as <-.
  cbn [stack_info_start stack_info_size u_mode_pmp_domain_offset
       u_mode_pmp_update_nr u_mode_pmp_end_index u_mode_pmpaddr_regs
       u_mode_pmpcfg_regs].
  rewrite resync_loop_spec in Hx. inv_res Hx. destruct x as [[i1 a1] c1].
  destruct (num_partitions domain <=? _)%nat; [|discriminate].
  injection Hx as -> -> ->.
  destruct (resync_all_effect _ _ _ _ _ _ _ Hx0) as (K1 & K2 & K3 & K4 & K5 & _).
  repeat split; try reflexivity; try assumption; apply K5; assumption.
Qed.

Lemma resync_all_decoded (ps : list k_mem_partition) :
  CONFIG_ASSERT = true ->
  Forall part_encodable ps ->
  forall (index : nat) (a c : list Z) (index' : nat) (a' c' : list Z),
    resync_all ps (index, a, c) = Ret (index', a', c') ->
    decoded_ranges index index' a' c' = Ret (map part_range ps).
Proof.
  intros Ha Henc. induction Henc as [|part rest Hpart Hrest IH];
    intros index a c index' a' c' H.
  - injection H as <- <- <-. unfold decoded_ranges, print_pmp_entries.
    rewrite Nat.sub_diag. reflexivity.
  - cbn [resync_all] in H. inv_res H. destruct x as [[i1 a1] c1].
    destruct (resync_partition_effect _ _ _ _ _ _ _ Hx)
      as (H1 & _ & _ & _ & _ & H6).
    destruct (H6 Ha) as (Hsz & Hs4 & Hz4 & Hset).
    destruct Hpart as ([Hps Hpz] & Hattr & HA).
    assert (Hpos : 0 < part_size part < 2 ^ XLEN) by lia.
    pose proof (set_pmp_entry_decoded _ _ _ _ _ _ _ _ _ _ Hattr HA Hps
                  Hpos Hs4 Hz4 Hset) as Hdec.
    destruct (resync_all_effect _ _ _ _ _ _ _ H) as (K1 & _ & _ & _ & K5 & _).
    rewrite (decoded_ranges_app index i1 index') by lia.
    rewrite (decoded_ranges_ext index i1 a1 c1 a' c') by (intros i Hi; apply K5; lia).
    rewrite Hdec. cbn [res_bind]. rewrite (IH _ _ _ _ _ _ H). reflexivity.
Qed.

(** X7: with assertions compiled in and partitions whose attributes are
    permission bytes, a resync that returns has encoded every one of the
    [num_partitions] partitions of nonzero size: the dump of the slots from
    the domain offset to the new end index shows exactly their ranges and
    permissions, one per partition and in array order. *)
Theorem resync_pmp_domain_decoded (thread thread' : k_thread)
    (domain : k_mem_domain) :
  CONFIG_ASSERT = true ->
  Forall part_encodable (partitions domain) ->
  resync_pmp_domain thread domain = Ret thread' ->
  length (counted (partitions domain) (num_partitions domain))
    = num_partitions domain /\
  decoded_ranges (u_mode_pmp_domain_offset thread) (u_mode_pmp_end_index thread')
      (u_mode_pmpaddr_regs thread') (u_mode_pmpcfg_regs thread')
    = Ret (map part_range (counted (partitions domain) (num_partitions domain))).
Proof.
  intros Ha Henc. unfold resync_pmp_domain. intros H. inv_res H.
  destruct x as [[index a] c]. injection H as <-.
  cbn [u_mode_pmp_end_index u_mode_pmpaddr_regs u_mode_pmpcfg_regs].
  rewrite resync_loop_spec in Hx. inv_res Hx. destruct x as [[i1 a1] c1].
  destruct (Nat.leb_spec (num_partitions domain)
              (length (List.filter nonempty (partitions domain))));
    [|discriminate].
  injection Hx as -> -> ->. split.
  - unfold counted. rewrite length_take. lia.
  - apply (resync_all_decoded _ Ha) in Hx0; [exact Hx0|].
    apply Forall_counted. exact Henc.
Qed.

(** ** Capacity *)

(** X8: with assertions compiled in, a resync that returns for a thread
    whose stack entry lies after the global entries and inside the store
    has encoded [num_partitions] partitions, each in at least one slot, and
    that number is at most the estimate
    [CONFIG_PMP_SLOTS - global_pmp_end_index - 1] of
    [arch_mem_domain_max_partitions_get]: no resync returns for a domain
    whose [num_partitions] is above the estimate. *)
Theorem max_partitions_bound (g : pmp_globals) (thread thread' : k_thread)
    (domain : k_mem_domain) :
  CONFIG_ASSERT = true ->
  Z.of_nat CONFIG_PMP_SLOTS < 2 ^ 31 ->
  (global_pmp_end_index g < u_mode_pmp_domain_offset thread
     <= CONFIG_PMP_SLOTS)%nat ->
  resync_pmp_domain thread domain = Ret thread' ->
  (u_mode_pmp_domain_offset thread + num_partitions domain
     <= u_mode_pmp_end_index thread')%nat /\
  arch_mem_domain_max_partitions_get g
    = Z.of_nat CONFIG_PMP_SLOTS - Z.of_nat (global_pmp_end_index g) - 1 /\
  Z.of_nat (num_partitions domain) <= arch_mem_domain_max_partitions_get g.
Proof.
  intros Ha Hslots Hoff. unfold resync_pmp_domain. intros H. inv_res H.
  destruct x as [[index a] c]. injection H as <-. cbn [u_mode_pmp_end_index].
  rewrite resync_loop_spec in Hx. inv_res Hx. destruct x as [[i1 a1] c1].
  destruct (Nat.leb_spec (num_partitions domain)
              (length (List.filter nonempty (partitions domain)))) as [Hn|];
    [|discriminate].
  injection Hx as -> -> ->.
  destruct (resync_all_effect _ _ _ _ _ _ _ Hx0) as (K1 & K2 & _ & _ & _ & K6).
  specialize (K6 Ha). unfold counted in K6. rewrite length_take in K6.
  assert (Hest : arch_mem_domain_max_partitions_get g
            = Z.of_nat CONFIG_PMP_SLOTS - Z.of_nat (global_pmp_end_index g) - 1).
  { unfold arch_mem_domain_max_partitions_get, s32.
    assert (Hsm : forall x, - 2 ^ 31 <= x < 2 ^ 31 ->
              (x + 2 ^ 31) mod 2 ^ 32 - 2 ^ 31 = x).
    { intros x Hx. rewrite Z.mod_small by lia. lia. }
    rewrite (Hsm (Z.of_nat CONFIG_PMP_SLOTS)) by lia.
    rewrite (Hsm (Z.of_nat CONFIG_PMP_SLOTS - _)) by lia.
    apply Hsm. lia. }
  split; [lia|]. split; [exact Hest|]. rewrite Hest.
  destruct (Nat.eq_dec (num_partitions domain) 0%nat) as [Hz|Hnz]; [lia|].
  assert (Hlt : (u_mode_pmp_domain_offset thread < index)%nat) by lia.
  specialize (K2 Hlt). lia.
Qed.

Lemma ASSERT_off (test : bool) : CONFIG_ASSERT = false -> __ASSERT test = Ret tt.
Proof. intros Ha. apply ASSERT_Ret. rewrite Ha. discriminate. Qed.

Lemma resync_partition_total (part : k_mem_partition) (index : nat)
    (a c : list Z) :
  CONFIG_ASSERT = false ->
  (CONFIG_PMP_SLOTS <= length a)%nat -> (CONFIG_PMP_SLOTS <= length c)%nat ->
  exists (index' : nat) (a' c' : list Z),
    resync_partition part (index, a, c) = Ret (index', a', c') /\
    length a' = length a /\ length c' = length c.
Proof.
  intros Ha Hla Hlc. unfold resync_partition.
  destruct (part_size part <? 4).
  - rewrite ASSERT_off by assumption. cbn [res_bind]. eauto 10.
  - destruct (set_pmp_entry_total index (part_pmp_attr part) (part_start part)
                (part_size part) a c CONFIG_PMP_SLOTS Hla Hlc)
      as (ok & i1 & a1 & c1 & Hrun & _).
    { rewrite Ha. discriminate. }
    rewrite Hrun. cbn [res_bind]. rewrite ASSERT_off by assumption.
    cbn [res_bind].
    destruct (set_pmp_entry_effect _ _ _ _ _ _ _ _ _ _ _ Hrun)
      as (_ & _ & _ & H4 & H5 & _).
    eauto 10.
Qed.

Lemma resync_all_total (ps : list k_mem_partition) :
  CONFIG_ASSERT = false ->
  forall (index : nat) (a c : list Z),
    (CONFIG_PMP_SLOTS <= length a)%nat -> (CONFIG_PMP_SLOTS <= length c)%nat ->
    exists st' : nat * list Z * list Z, resync_all ps (index, a, c) = Ret st'.
Proof.
  intros Ha. induction ps as [|part rest IH]; intros index a c Hla Hlc.
  - eexists. reflexivity.
  - cbn [resync_all].
    destruct (resync_partition_total part index a c Ha Hla Hlc)
      as (i1 & a1 & c1 & -> & Hl1 & Hl2).
    cbn [res_bind]. apply IH; lia.
Qed.

(** X9: with assertions compiled out, a resync on shadow arrays of
    [CONFIG_PMP_SLOTS] entries and a partitions array that holds
    [num_partitions] partitions of nonzero size always returns: a partition
    smaller than 4 bytes is passed over with the cursor and the arrays
    untouched, and so is every partition met once the cursor has reached
    [CONFIG_PMP_SLOTS]. *)
Theorem resync_without_assertions (thread : k_thread) (domain : k_mem_domain) :
  CONFIG_ASSERT = false ->
  (CONFIG_PMP_SLOTS <= length (u_mode_pmpaddr_regs thread))%nat ->
  (CONFIG_PMP_SLOTS <= length (u_mode_pmpcfg_regs thread))%nat ->
  (num_partitions domain
     <= length (List.filter nonempty (partitions domain)))%nat ->
  (exists thread' : k_thread, resync_pmp_domain thread domain = Ret thread') /\
  (forall (part : k_mem_partition) (index : nat) (a c : list Z),
     part_size part < 4 ->
     resync_partition part (index, a, c) = Ret (index, a, c)) /\
  (forall (part : k_mem_partition) (index : nat) (a c : list Z),
     (CONFIG_PMP_SLOTS <= index)%nat ->
     resync_partition part (index, a, c) = Ret (index, a, c)).
Proof.
  intros Ha Hla Hlc Hn. split; [|split].
  - unfold resync_pmp_domain. rewrite resync_loop_spec.
    destruct (resync_all_total (counted (partitions domain) (num_partitions domain))
                Ha (u_mode_pmp_domain_offset thread) _ _ Hla Hlc) as [[[i1 a1] c1] ->].
    apply Nat.leb_le in Hn. rewrite Hn. cbn [res_bind]. eauto.
  - intros part index a c Hsmall. unfold resync_partition.
    apply Z.ltb_lt in Hsmall. rewrite Hsmall, ASSERT_off by assumption.
    reflexivity.
  - intros part index a c Hfull. unfold resync_partition, set_pmp_entry.
    destruct (part_size part <? 4);
      rewrite ?ASSERT_off by assumption; cbn [res_bind]; [reflexivity|].
    apply Nat.leb_le in Hfull. rewrite Hfull. cbn [res_bind].
    rewrite ASSERT_off by assumption. reflexivity.
Qed.

(** Two calls of the encoder on stores that agree on the slot before the
    cursor write the same slots. *)
Lemma set_pmp_entry_local (index : nat) (perm start size : Z)
    (a1 c1 a2 c2 : list Z) (index_limit : nat) :
  length a1 = length a2 -> length c1 = length c2 ->
  (index <> 0%nat -> a1 !! (index - 1)%nat = a2 !! (index - 1)%nat) ->
  match set_pmp_entry index perm start size a1 c1 index_limit,
        set_pmp_entry index perm start size a2 c2 index_limit with
  | Ret (ok1, i1, a1', c1'), Ret (ok2, i2, a2', c2') =>
      ok1 = ok2 /\ i1 = i2 /\
      forall j : nat, (index <= j < i1)%nat ->
        a1' !! j = a2' !! j /\ c1' !! j = c2' !! j
  | Abort f1, Abort f2 => f1 = f2
  | _, _ => False
  end.
Proof.
  intros Hla Hlc Hprev. unfold set_pmp_entry, store, load, __ASSERT.
  destruct (Nat.eqb_spec index 0) as [Hi|Hi]; [|rewrite <- (Hprev Hi)].
  all: repeat first
    [ progress cbn [res_bind]
    | rewrite length_insert
    | rewrite <- Hla
    | rewrite <- Hlc
    | match goal with
      | |- context [if ?b then _ else _] => destruct b
      | |- context [match ?o with Some _ => _ | None => _ end] => destruct o
      end ];
    try reflexivity;
    (split; [reflexivity|]); (split; [reflexivity|]);
    intros j Hj;
    repeat match goal with
    | |- context [<[?i := _]> _ !! j] =>
        destruct (Nat.eq_dec j i) as [->|];
        [ rewrite !list_lookup_insert_eq by (rewrite ?length_insert; lia)
        | rewrite !(list_lookup_insert_ne _ i j) by lia ]
    end; try (split; reflexivity); lia.
Qed.

Lemma resync_partition_local (part : k_mem_partition) (o i : nat)
    (a1 c1 a2 c2 : list Z) :
  (o <= i)%nat ->
  length a1 = length a2 -> length c1 = length c2 ->
  a1 !! (i - 1)%nat = a2 !! (i - 1)%nat ->
  (forall j : nat, (o <= j < i)%nat -> a1 !! j = a2 !! j /\ c1 !! j = c2 !! j) ->
  match resync_partition part (i, a1, c1), resync_partition part (i, a2, c2) with
  | Ret (i1, a1', c1'), Ret (i2, a2', c2') =>
      i1 = i2 /\ (i <= i1)%nat /\
      length a1' = length a2' /\ length c1' = length c2' /\
      a1' !! (i1 - 1)%nat = a2' !! (i1 - 1)%nat /\
      forall j : nat, (o <= j < i1)%nat ->
        a1' !! j = a2' !! j /\ c1' !! j = c2' !! j
  | Abort f1, Abort f2 => f1 = f2
  | _, _ => False
  end.
Proof.
  intros Hoi Hla Hlc Hprev Hag.
  destruct (resync_partition part (i, a1, c1)) as [[[i1 a1'] c1']|f1] eqn:H1;
    destruct (resync_partition part (i, a2, c2)) as [[[i2 a2'] c2']|f2] eqn:H2.
  - destruct (resync_partition_effect _ _ _ _ _ _ _ H1)
      as (E1 & _ & L1 & L1' & F1 & _).
    destruct (resync_partition_effect _ _ _ _ _ _ _ H2)
      as (E2 & _ & L2 & L2' & F2 & _).
    assert (Hnew : i1 = i2 /\ forall j : nat, (i <= j < i1)%nat ->
              a1' !! j = a2' !! j /\ c1' !! j = c2' !! j).
    { revert H1 H2. unfold resync_partition.
      pose proof (set_pmp_entry_local i (part_pmp_attr part) (part_start part)
                    (part_size part) a1 c1 a2 c2 CONFIG_PMP_SLOTS Hla Hlc
                    (fun _ => Hprev))
        as Hloc.
      destruct (part_size part <? 4).
      - destruct (__ASSERT false); cbn [res_bind]; [|discriminate].
        intros [= <- <- <-] [= <- <- <-]. split; [reflexivity|]. intros j Hj. lia.
      - destruct (set_pmp_entry i _ _ _ a1 c1 _) as [[[[ok1 j1] b1] d1]|];
          destruct (set_pmp_entry i _ _ _ a2 c2 _) as [[[[ok2 j2] b2] d2]|];
          cbn [res_bind]; try contradiction; try discriminate.
        destruct Hloc as (<- & <- & Hcells).
        destruct (__ASSERT ok1); cbn [res_bind]; [|discriminate].
        intros [= <- <- <-] [= <- <- <-]. split; [reflexivity | exact Hcells]. }
    destruct Hnew as [<- Hcells].
    assert (Hall : forall j : nat, (o <= j < i1)%nat ->
              a1' !! j = a2' !! j /\ c1' !! j = c2' !! j).
    { intros j Hj. destruct (Nat.lt_ge_cases j i) as [Hlt|Hge].
      - destruct (F1 j ltac:(lia)) as [-> ->].
        destruct (F2 j ltac:(lia)) as [-> ->]. apply Hag. lia.
      - apply Hcells. lia. }
    split; [reflexivity|]. split; [lia|]. split; [congruence|].
    split; [congruence|]. split; [|exact Hall].
    destruct (Nat.eq_dec i1 i) as [->|Hne].
    + destruct (F1 (i - 1)%nat ltac:(lia)) as [-> _].
      destruct (F2 (i - 1)%nat ltac:(lia)) as [-> _]. exact Hprev.
    + apply Hcells. lia.
  - exfalso. revert H1 H2. unfold resync_partition.
    pose proof (set_pmp_entry_local i (part_pmp_attr part) (part_start part)
                  (part_size part) a1 c1 a2 c2 CONFIG_PMP_SLOTS Hla Hlc
                    (fun _ => Hprev))
      as Hloc.
    destruct (part_size part <? 4).
    + destruct (__ASSERT false); cbn [res_bind]; discriminate.
    + destruct (set_pmp_entry i _ _ _ a1 c1 _) as [[[[ok1 j1] b1] d1]|];
        destruct (set_pmp_entry i _ _ _ a2 c2 _) as [[[[ok2 j2] b2] d2]|];
        cbn [res_bind]; try contradiction; try discriminate.
      destruct Hloc as (<- & _). destruct (__ASSERT ok1); cbn [res_bind];
        discriminate.
  - exfalso. revert H1 H2. unfold resync_partition.
    pose proof (set_pmp_entry_local i (part_pmp_attr part) (part_start part)
                  (part_size part) a1 c1 a2 c2 CONFIG_PMP_SLOTS Hla Hlc
                    (fun _ => Hprev))
      as Hloc.
    destruct (part_size part <? 4).
    + destruct (__ASSERT false); cbn [res_bind]; discriminate.
    + destruct (set_pmp_entry i _ _ _ a1 c1 _) as [[[[ok1 j1] b1] d1]|];
        destruct (set_pmp_entry i _ _ _ a2 c2 _) as [[[[ok2 j2] b2] d2]|];
        cbn [res_bind]; try contradiction; try discriminate.
      destruct Hloc as (<- & _). destruct (__ASSERT ok1); cbn [res_bind];
        discriminate.
  - revert H1 H2. unfold resync_partition.
    pose proof (set_pmp_entry_local i (part_pmp_attr part) (part_start part)
                  (part_size part) a1 c1 a2 c2 CONFIG_PMP_SLOTS Hla Hlc
                    (fun _ => Hprev))
      as Hloc.
    destruct (part_size part <? 4).
    + destruct (__ASSERT false); cbn [res_bind]; congruence.
    + destruct (set_pmp_entry i _ _ _ a1 c1 _) as [[[[ok1 j1] b1] d1]|];
        destruct (set_pmp_entry i _ _ _ a2 c2 _) as [[[[ok2 j2] b2] d2]|];
        cbn [res_bind]; try contradiction; try congruence.
      destruct Hloc as (<- & _). destruct (__ASSERT ok1); cbn [res_bind];
        congruence.
Qed.

Lemma resync_all_local (ps : list k_mem_partition) :
  forall (o i : nat) (a1 c1 a2 c2 : list Z),
    (o <= i)%nat ->
    length a1 = length a2 -> length c1 = length c2 ->
    a1 !! (i - 1)%nat = a2 !! (i - 1)%nat ->
    (forall j : nat, (o <= j < i)%nat ->
       a1 !! j = a2 !! j /\ c1 !! j = c2 !! j) ->
    match resync_all ps (i, a1, c1), resync_all ps (i, a2, c2) with
    | Ret (i1, a1', c1'), Ret (i2, a2', c2') =>
        i1 = i2 /\
        forall j : nat, (o <= j < i1)%nat ->
          a1' !! j = a2' !! j /\ c1' !! j = c2' !! j
    | Abort f1, Abort f2 => f1 = f2
    | _, _ => False
    end.
Proof.
  induction ps as [|part rest IH]; intros o i a1 c1 a2 c2 Hoi Hla Hlc Hprev Hag.
  - cbn [resync_all]. auto.
  - cbn [resync_all].
    pose proof (resync_partition_local part o i a1 c1 a2 c2 Hoi Hla Hlc Hprev Hag)
      as Hstep.
    destruct (resync_partition part (i, a1, c1)) as [[[i1 a1'] c1']|f1];
      destruct (resync_partition part (i, a2, c2)) as [[[i2 a2'] c2']|f2];
      cbn [res_bind]; try contradiction; [|exact Hstep].
    destruct Hstep as (<- & Hle & Hl1 & Hl2 & Hp & Hcells).
    apply IH; try assumption. lia.
Qed.

(** X10: two threads with the same domain offset, with shadow arrays of
    equal lengths that agree on the address slot before the offset, and
    resynchronized against the same domain, behave alike: both resyncs end
    in the same fault, or both return with the same end index and the same
    address and config slots from the domain offset up to it. *)
Theorem resync_pmp_domain_shared (thread1 thread2 : k_thread)
    (domain : k_mem_domain) :
  u_mode_pmp_domain_offset thread1 = u_mode_pmp_domain_offset thread2 ->
  length (u_mode_pmpaddr_regs thread1) = length (u_mode_pmpaddr_regs thread2) ->
  length (u_mode_pmpcfg_regs thread1) = length (u_mode_pmpcfg_regs thread2) ->
  u_mode_pmpaddr_regs thread1 !! (u_mode_pmp_domain_offset thread1 - 1)%nat
    = u_mode_pmpaddr_regs thread2 !! (u_mode_pmp_domain_offset thread1 - 1)%nat ->
  match resync_pmp_domain thread1 domain, resync_pmp_domain thread2 domain with
  | Ret thread1', Ret thread2' =>
      u_mode_pmp_end_index thread1' = u_mode_pmp_end_index thread2' /\
      u_mode_pmp_update_nr thread1' = u_mode_pmp_update_nr thread2' /\
      forall j : nat,
        (u_mode_pmp_domain_offset thread1 <= j < u_mode_pmp_end_index thread1')%nat ->
        u_mode_pmpaddr_regs thread1' !! j = u_mode_pmpaddr_regs thread2' !! j /\
        u_mode_pmpcfg_regs thread1' !! j = u_mode_pmpcfg_regs thread2' !! j
  | Abort f1, Abort f2 => f1 = f2
  | _, _ => False
  end.
Proof.
  intros Hoff Hla Hlc Hprev. unfold resync_pmp_domain. rewrite <- Hoff.
  rewrite !resync_loop_spec.
  pose proof (resync_all_local (counted (partitions domain) (num_partitions domain))
                (u_mode_pmp_domain_offset thread1) (u_mode_pmp_domain_offset thread1)
                _ _ _ _ (Nat.le_refl _) Hla Hlc Hprev ltac:(intros j Hj; lia))
    as Hloc.
  destruct (resync_all _ (_, u_mode_pmpaddr_regs thread1, _))
    as [[[i1 a1'] c1']|f1];
    destruct (resync_all _ (_, u_mode_pmpaddr_regs thread2, _))
      as [[[i2 a2'] c2']|f2];
    cbn [res_bind]; try contradiction; [|exact Hloc].
  destruct Hloc as [<- Hcells].
  destruct (num_partitions domain <=? _)%nat; cbn [res_bind]; [|reflexivity].
  cbn [u_mode_pmp_end_index u_mode_pmp_update_nr u_mode_pmpaddr_regs
       u_mode_pmpcfg_regs]. auto.
Qed.

(** ** Further properties of the switch path *)

Lemma hw_write_count_app (l l' : list event) :
  hw_write_count (l ++ l') = (hw_write_count l + hw_write_count l')%nat.
Proof. unfold hw_write_count. rewrite List.filter_app, length_app. reflexivity. Qed.

Lemma enable_tail_exact (g : pmp_globals) (thread : k_thread) (log : list event) :
  (exists f, enable_tail g thread log
             = (Abort f, log ++ (if CONFIG_PMP_STACK_GUARD
                                 then [EvCsrClear MSTATUS_MPRV] else []))) \/
  (exists cfg',
     enable_tail g thread log
       = (Ret (with_cfg thread cfg'),
          log ++ (if CONFIG_PMP_STACK_GUARD then [EvCsrClear MSTATUS_MPRV] else [])
              ++ [EvHwWrite (global_pmp_end_index g) (u_mode_pmp_end_index thread)
                    true (u_mode_pmpaddr_regs thread) cfg']) /\
     (global_pmp_end_index g < u_mode_pmp_end_index thread
        <= CONFIG_PMP_SLOTS)%nat).
Proof.
  unfold enable_tail, M_bind.
  set (csr := if CONFIG_PMP_STACK_GUARD then [EvCsrClear MSTATUS_MPRV] else []).
  assert (H1 : (if CONFIG_PMP_STACK_GUARD then emit (EvCsrClear MSTATUS_MPRV)
                else M_ret tt) log = (Ret tt, log ++ csr)).
  { unfold csr. destruct CONFIG_PMP_STACK_GUARD; cbn [emit M_ret];
      [reflexivity | rewrite app_nil_r; reflexivity]. }
  rewrite H1.
  destruct (write_pmp_entries_log (global_pmp_end_index g)
              (u_mode_pmp_end_index thread) true (u_mode_pmpaddr_regs thread)
              (u_mode_pmpcfg_regs thread) CONFIG_PMP_SLOTS (log ++ csr))
    as [(f & ->) | (cfg' & -> & Hrange)].
  - left. exists f. reflexivity.
  - right. exists cfg'. rewrite <- app_assoc. split; [reflexivity | exact Hrange].
Qed.

(** X11: what a call of [z_riscv_pmp_usermode_enable] does to the world.
    For a thread that is not prepared it does nothing.  For a prepared
    thread, a call that returns has appended to the log, in this order,
    the resync (if the thread was stale), the clearing of the bypass bit
    (if the stack guard is configured) and one hardware write of the slots
    from [global_pmp_end_index] to the thread's end index with trailing
    clear, handing over the arrays the thread is left with; and a call that
    aborts has made no hardware write. *)
Theorem usermode_enable_events (g : pmp_globals) (thread : k_thread)
    (domain : k_mem_domain) (log : list event) :
  (u_mode_pmp_end_index thread = 0%nat ->
     z_riscv_pmp_usermode_enable g thread domain log = (Ret thread, log)) /\
  (u_mode_pmp_end_index thread <> 0%nat ->
     forall (thread' : k_thread) (log' : list event),
       z_riscv_pmp_usermode_enable g thread domain log = (Ret thread', log') ->
       log' = log
              ++ (if u_mode_pmp_update_nr thread =? pmp_update_nr domain
                  then [] else [EvResync])
              ++ (if CONFIG_PMP_STACK_GUARD then [EvCsrClear MSTATUS_MPRV]
                  else [])
              ++ [EvHwWrite (global_pmp_end_index g)
                    (u_mode_pmp_end_index thread') true
                    (u_mode_pmpaddr_regs thread') (u_mode_pmpcfg_regs thread')]
       /\ (global_pmp_end_index g < u_mode_pmp_end_index thread'
             <= CONFIG_PMP_SLOTS)%nat) /\
  (forall (f : fault) (log' : list event),
     z_riscv_pmp_usermode_enable g thread domain log = (Abort f, log') ->
     hw_write_count log' = hw_write_count log).
Proof.
  unfold z_riscv_pmp_usermode_enable. fold (enable_tail g).
  split; [|split].
  - intros ->. reflexivity.
  - intros Hprep thread' log'.
    destruct (Nat.eqb_spec (u_mode_pmp_end_index thread) 0); [contradiction|].
    destruct (u_mode_pmp_update_nr thread =? pmp_update_nr domain); cbn [negb].
    + unfold M_bind at 1. cbn [M_ret].
      destruct (enable_tail_exact g thread log)
        as [(f & ->) | (cfg' & -> & Hrange)]; [discriminate|].
      intros [= <- <-]. cbn [with_cfg u_mode_pmp_end_index u_mode_pmpaddr_regs
        u_mode_pmpcfg_regs app]. auto.
    + unfold M_bind at 1 2. unfold emit, M_lift.
      destruct (resync_pmp_domain thread domain) as [thread1|f]; [|discriminate].
      destruct (enable_tail_exact g thread1 (log ++ [EvResync]))
        as [(f & ->) | (cfg' & -> & Hrange)]; [discriminate|].
      intros [= <- <-]. cbn [with_cfg u_mode_pmp_end_index u_mode_pmpaddr_regs
        u_mode_pmpcfg_regs]. rewrite <- !app_assoc. auto.
  - intros f log'.
    destruct (u_mode_pmp_end_index thread =? 0)%nat; [discriminate|].
    assert (Hcsr : forall l, hw_write_count
              (l ++ (if CONFIG_PMP_STACK_GUARD then [EvCsrClear MSTATUS_MPRV]
                     else [])) = hw_write_count l).
    { intros l. rewrite hw_write_count_app.
      destruct CONFIG_PMP_STACK_GUARD; cbn; lia. }
    destruct (negb _).
    + unfold M_bind at 1 2. unfold emit, M_lift.
      destruct (resync_pmp_domain thread domain) as [thread1|f1].
      * destruct (enable_tail_exact g thread1 (log ++ [EvResync]))
          as [(f2 & ->) | (cfg' & -> & Hrange)]; [|discriminate].
        intros [= <- <-]. rewrite Hcsr, hw_write_count_app. cbn. lia.
      * intros [= <- <-]. rewrite hw_write_count_app. cbn. lia.
    + unfold M_bind at 1. cbn [M_ret].
      destruct (enable_tail_exact g thread log)
        as [(f2 & ->) | (cfg' & -> & Hrange)]; [|discriminate].
      intros [= <- <-]. apply Hcsr.
Qed.

(** X12: for a prepared thread, [arch_mem_domain_thread_add] makes the
    next [z_riscv_pmp_usermode_enable] resync exactly when the generation
    of the domain is not 0; against a domain at generation 0 the thread
    keeps the entries it has. *)
Theorem thread_add_then_enable (g : pmp_globals) (thread : k_thread)
    (domain : k_mem_domain) (log : list event) :
  u_mode_pmp_end_index thread <> 0%nat ->
  resync_count
    (snd (z_riscv_pmp_usermode_enable g (arch_mem_domain_thread_add thread)
            domain log))
  = (resync_count log + if (pmp_update_nr domain =? 0)%Z then 0 else 1)%nat.
Proof.
  intros Hprep. rewrite usermode_enable_resyncs.
  cbn [arch_mem_domain_thread_add u_mode_pmp_end_index u_mode_pmp_update_nr].
  destruct (Nat.eqb_spec (u_mode_pmp_end_index thread) 0); [contradiction|].
  rewrite Z.eqb_sym. reflexivity.
Qed.

Lemma domain_mutations_spec (ms : list (bool * Z)) :
  forall domain : k_mem_domain,
    partitions (domain_mutations ms domain) = partitions domain /\
    num_partitions (domain_mutations ms domain) = num_partitions domain /\
    u32 (pmp_update_nr (domain_mutations ms domain))
      = u32 (pmp_update_nr domain + Z.of_nat (length ms)) /\
    (ms <> [] -> 0 <= pmp_update_nr (domain_mutations ms domain) < 2 ^ 32).
Proof.
  induction ms as [|[[|] id] rest IH]; intros domain.
  - cbn. rewrite Z.add_0_r. repeat split; congruence.
  - cbn [domain_mutations length].
    destruct (IH (arch_mem_domain_partition_add domain id)) as (H1 & H2 & H3 & H4).
    cbn [arch_mem_domain_partition_add partitions num_partitions pmp_update_nr]
      in H1, H2, H3.
    split; [exact H1|]. split; [exact H2|]. split.
    + rewrite H3. unfold u32. rewrite Zplus_mod_idemp_l. f_equal. lia.
    + intros _. destruct rest as [|m rest]; [|apply H4; discriminate].
      cbn. unfold u32. apply Z.mod_pos_bound. lia.
  - cbn [domain_mutations length].
    destruct (IH (arch_mem_domain_partition_remove domain id)) as (H1 & H2 & H3 & H4).
    cbn [arch_mem_domain_partition_remove partitions num_partitions pmp_update_nr]
      in H1, H2, H3.
    split; [exact H1|]. split; [exact H2|]. split.
    + rewrite H3. unfold u32. rewrite Zplus_mod_idemp_l. f_equal. lia.
    + intros _. destruct rest as [|m rest]; [|apply H4; discriminate].
      cbn. unfold u32. apply Z.mod_pos_bound. lia.
Qed.

(** X13: partition additions and removals only move the generation of the
    domain, by one each, modulo [2 ^ 32].  A prepared thread that is in
    step with the domain is therefore taken for stale after [n] of them
    exactly when [n] is not a multiple of [2 ^ 32]. *)
Theorem generation_counter_wraps (g : pmp_globals) (thread : k_thread)
    (domain : k_mem_domain) (ms : list (bool * Z)) (log : list event) :
  0 <= pmp_update_nr domain < 2 ^ 32 ->
  u_mode_pmp_end_index thread <> 0%nat ->
  u_mode_pmp_update_nr thread = pmp_update_nr domain ->
  partitions (domain_mutations ms domain) = partitions domain /\
  num_partitions (domain_mutations ms domain) = num_partitions domain /\
  pmp_update_nr (domain_mutations ms domain)
    = (pmp_update_nr domain + Z.of_nat (length ms)) mod 2 ^ 32 /\
  resync_count
    (snd (z_riscv_pmp_usermode_enable g thread (domain_mutations ms domain) log))
  = (resync_count log
     + if (Z.of_nat (length ms) mod 2 ^ 32 =? 0)%Z then 0 else 1)%nat.
Proof.
  intros Hgen Hprep Hsync.
  destruct (domain_mutations_spec ms domain) as (H1 & H2 & H3 & H4).
  assert (Hnr : pmp_update_nr (domain_mutations ms domain)
            = (pmp_update_nr domain + Z.of_nat (length ms)) mod 2 ^ 32).
  { destruct ms as [|m rest].
    - cbn. rewrite Z.add_0_r, Z.mod_small by lia. reflexivity.
    - specialize (H4 ltac:(discriminate)). unfold u32 in H3.
      rewrite Z.mod_small in H3 by lia. exact H3. }
  split; [exact H1|]. split; [exact H2|]. split; [exact Hnr|].
  rewrite usermode_enable_resyncs.
  destruct (Nat.eqb_spec (u_mode_pmp_end_index thread) 0); [contradiction|].
  rewrite Hsync, Hnr. f_equal.
  destruct (Z.eqb_spec (Z.of_nat (length ms) mod 2 ^ 32) 0) as [Hz|Hz].
  - replace (_ =? _) with true; [reflexivity|]. symmetry. apply Z.eqb_eq.
    rewrite Z.add_mod, Hz, Z.add_0_r, Z.mod_mod, Z.mod_small by lia. reflexivity.
  - replace (_ =? _) with false; [reflexivity|]. symmetry. apply Z.eqb_neq.
    intros Heq. apply Hz.
    revert Heq. generalize (Z.of_nat (length ms)). intros k Heq.
    Z.div_mod_to_equations. lia.
Qed.

(** ** Preparation of the user-mode store *)

Lemma word_bytes_length (w : Z) : length (word_bytes w) = PMPCFG_STRIDE.
Proof. unfold word_bytes. rewrite length_map, length_seq. reflexivity. Qed.

Lemma word_bytes_lookup (w : Z) (j : nat) :
  (j < PMPCFG_STRIDE)%nat ->
  word_bytes w !! j = Some (Z.land (Z.shiftr w (8 * Z.of_nat j)) 0xff).
Proof.
  intros Hj. unfold word_bytes. rewrite list_lookup_fmap.
  rewrite lookup_seq_lt by assumption. reflexivity.
Qed.

Lemma store_cfg_word0_spec (pmp_n_cfg : list Z) (w : Z) :
  (PMPCFG_STRIDE <= length pmp_n_cfg)%nat ->
  exists cfg' : list Z,
    store_cfg_word0 pmp_n_cfg w = Ret cfg' /\
    length cfg' = length pmp_n_cfg /\
    (forall j : nat, (j < PMPCFG_STRIDE)%nat ->
       cfg' !! j = Some (Z.land (Z.shiftr w (8 * Z.of_nat j)) 0xff)) /\
    (forall j : nat, (PMPCFG_STRIDE <= j)%nat -> cfg' !! j = pmp_n_cfg !! j).
Proof.
  intros Hlen. unfold store_cfg_word0.
  destruct (decide (PMPCFG_STRIDE <= length pmp_n_cfg)%nat); [|contradiction].
  eexists. split; [reflexivity|]. split; [|split].
  - rewrite length_app, word_bytes_length, length_drop. lia.
  - intros j Hj. rewrite lookup_app_l by (rewrite word_bytes_length; lia).
    apply word_bytes_lookup. assumption.
  - intros j Hj. rewrite lookup_app_r by (rewrite word_bytes_length; lia).
    rewrite word_bytes_length, lookup_drop. f_equal. lia.
Qed.

(** X14: on shadow arrays of [CONFIG_PMP_SLOTS] entries (and at least one
    config word), with a free slot after the global entries and an aligned
    stack of nonzero size, [z_riscv_pmp_usermode_prepare] returns a thread
    with the same stack bounds, last-synced generation 0 and end index
    equal to the domain offset, one or two slots after
    [global_pmp_end_index] (or none, when only one slot is free and the
    stack needs two); the config bytes of the global entries in the first
    config word are those of [global_pmp_cfg]; and when the stack took its
    slots the dump shows them as the stack region with read and write
    permission. *)
Theorem usermode_prepare_stack (g : pmp_globals) (thread : k_thread) :
  (global_pmp_end_index g < CONFIG_PMP_SLOTS)%nat ->
  (CONFIG_PMP_SLOTS <= length (u_mode_pmpaddr_regs thread))%nat ->
  (CONFIG_PMP_SLOTS <= length (u_mode_pmpcfg_regs thread))%nat ->
  (PMPCFG_STRIDE <= length (u_mode_pmpcfg_regs thread))%nat ->
  0 <= stack_info_start thread < 2 ^ XLEN ->
  0 < stack_info_size thread < 2 ^ XLEN ->
  stack_info_start thread mod 4 = 0 -> stack_info_size thread mod 4 = 0 ->
  exists thread' : k_thread,
    z_riscv_pmp_usermode_prepare g thread = Ret thread' /\
    stack_info_start thread' = stack_info_start thread /\
    stack_info_size thread' = stack_info_size thread /\
    u_mode_pmp_update_nr thread' = 0 /\
    u_mode_pmp_domain_offset thread' = u_mode_pmp_end_index thread' /\
    (global_pmp_end_index g <= u_mode_pmp_end_index thread'
       <= global_pmp_end_index g + 2)%nat /\
    (u_mode_pmp_end_index thread' <= CONFIG_PMP_SLOTS)%nat /\
    ((global_pmp_end_index g + 1 < CONFIG_PMP_SLOTS)%nat ->
       (global_pmp_end_index g < u_mode_pmp_end_index thread')%nat) /\
    (forall j : nat, (j < global_pmp_end_index g)%nat -> (j < PMPCFG_STRIDE)%nat ->
       u_mode_pmpcfg_regs thread' !! j
       = Some (Z.land (Z.shiftr (global_pmp_cfg g) (8 * Z.of_nat j)) 0xff)) /\
    ((global_pmp_end_index g < u_mode_pmp_end_index thread')%nat ->
       decoded_ranges (global_pmp_end_index g) (u_mode_pmp_end_index thread')
           (u_mode_pmpaddr_regs thread') (u_mode_pmpcfg_regs thread')
       = Ret [Build_pmp_range (stack_info_start thread)
                (ulong (stack_info_start thread + stack_info_size thread - 1))
                true true false false]).
Proof.
  intros Hfree Hla Hlc Hword Hs Hz Has Haz. unfold z_riscv_pmp_usermode_prepare.
  destruct (store_cfg_word0_spec (u_mode_pmpcfg_regs thread) (global_pmp_cfg g) Hword)
    as (cfg0 & -> & Hl0 & Hbytes & _).
  cbn [res_bind].
  destruct (set_pmp_entry_total (global_pmp_end_index g) (Z.lor PMP_R PMP_W)
              (stack_info_start thread) (stack_info_size thread)
              (u_mode_pmpaddr_regs thread) cfg0 CONFIG_PMP_SLOTS)
    as (ok & i1 & a1 & c1 & Hrun & Hiff); [lia | lia | |].
  { intros _. rewrite !land_3_mod4. auto. }
  rewrite Hrun. cbn [res_bind].
  destruct (set_pmp_entry_effect _ _ _ _ _ _ _ _ _ _ _ Hrun)
    as (E1 & E2 & E3 & E4 & E5 & E6).
  eexists. split; [reflexivity|].
  cbn [stack_info_start stack_info_size u_mode_pmp_update_nr
       u_mode_pmp_domain_offset u_mode_pmp_end_index u_mode_pmpaddr_regs
       u_mode_pmpcfg_regs].
  split; [reflexivity|]. split; [reflexivity|]. split; [reflexivity|].
  split; [reflexivity|]. split; [exact E1|]. split.
  { destruct ok; [apply E2; reflexivity | specialize (E3 eq_refl); lia]. }
  split.
  { intros Htwo. destruct ok; [apply E2; reflexivity|]. exfalso.
    assert (false = true); [|discriminate]. apply Hiff. split; [lia|]. auto. }
  split.
  { intros j Hj Hjs. destruct (E6 j ltac:(lia)) as [_ ->]. apply Hbytes. exact Hjs. }
  intros Hmoved. destruct ok; [|specialize (E3 eq_refl); lia].
  assert (Hperm : 0 <= Z.lor PMP_R PMP_W < 256) by (change (Z.lor PMP_R PMP_W) with 3; lia).
  exact (set_pmp_entry_decoded _ (Z.lor PMP_R PMP_W) _ _ _ _ _ _ _ _
           Hperm eq_refl Hs Hz Has Haz Hrun).
Qed.

(** ** The global entries *)

Lemma init_entries_spec (rom_region_start rom_region_size irq_stack : Z)
    (pmp_addr pmp_n_cfg : list Z) :
  (4 <= length pmp_addr)%nat -> (4 <= length pmp_n_cfg)%nat ->
  (CONFIG_ASSERT = true ->
     Z.land rom_region_start 3 = 0 /\ Z.land rom_region_size 3 = 0 /\
     (CONFIG_PMP_STACK_GUARD = true ->
        Z.land irq_stack 3 = 0 /\ Z.land Z_RISCV_STACK_GUARD_SIZE 3 = 0)) ->
  exists (i1 : nat) (a1 c1 : list Z) (index : nat) (a c : list Z),
    set_pmp_entry 0 (Z.lor (Z.lor PMP_R PMP_X) PMP_L)
        rom_region_start rom_region_size pmp_addr pmp_n_cfg 4
      = Ret (true, i1, a1, c1) /\
    (if CONFIG_PMP_STACK_GUARD
     then set_pmp_entry i1 PMP_NONE irq_stack Z_RISCV_STACK_GUARD_SIZE a1 c1 4
     else Ret (true, i1, a1, c1)) = Ret (true, index, a, c) /\
    init_entries rom_region_start rom_region_size irq_stack pmp_addr pmp_n_cfg
      = Ret (index, a, c) /\
    (1 <= i1 <= 2)%nat /\ (i1 <= index)%nat /\
    (index <= if CONFIG_PMP_STACK_GUARD then 4 else 2)%nat /\
    (CONFIG_PMP_STACK_GUARD = true -> (i1 < index)%nat) /\
    (CONFIG_PMP_STACK_GUARD = false -> index = i1) /\
    length a = length pmp_addr /\ length c = length pmp_n_cfg /\
    (forall j : nat, (j < i1)%nat -> a !! j = a1 !! j /\ c !! j = c1 !! j).
Proof.
  intros Hla Hlc Hal. unfold init_entries.
  destruct (set_pmp_entry_total 0 (Z.lor (Z.lor PMP_R PMP_X) PMP_L)
              rom_region_start rom_region_size pmp_addr pmp_n_cfg 4 Hla Hlc)
    as (ok1 & i1 & a1 & c1 & Hrun1 & Hiff1).
  { intros Ha. destruct (Hal Ha) as (H1 & H2 & _). auto. }
  assert (Hok1 : ok1 = true) by (apply Hiff1; split; [lia|]; right; right; lia).
  subst ok1.
  destruct (set_pmp_entry_effect _ _ _ _ _ _ _ _ _ _ _ Hrun1)
    as (E1 & E2 & _ & E4 & E5 & _).
  specialize (E2 eq_refl). rewrite Hrun1. cbn [res_bind].
  destruct CONFIG_PMP_STACK_GUARD eqn:Hguard.
  - destruct (set_pmp_entry_total i1 PMP_NONE irq_stack Z_RISCV_STACK_GUARD_SIZE
                a1 c1 4 ltac:(lia) ltac:(lia))
      as (ok2 & i2 & a2 & c2 & Hrun2 & Hiff2).
    { intros Ha. destruct (Hal Ha) as (_ & _ & H3). auto. }
    assert (Hok2 : ok2 = true) by (apply Hiff2; split; [lia|]; right; right; lia).
    subst ok2.
    destruct (set_pmp_entry_effect _ _ _ _ _ _ _ _ _ _ _ Hrun2)
      as (F1 & F2 & _ & F4 & F5 & F6).
    specialize (F2 eq_refl). rewrite Hrun2. cbn [res_bind].
    exists i1, a1, c1, i2, a2, c2.
    repeat (split; [first [reflexivity | lia | congruence | discriminate]|]).
    intros j Hj. apply F6. lia.
  - cbn [res_bind]. exists i1, a1, c1, i1, a1, c1.
    repeat (split; [first [reflexivity | lia | congruence | discriminate]|]).
    auto.
Qed.

Lemma trailing_first_word (index : nat) :
  (0 < index <= PMPCFG_STRIDE)%nat ->
  (index + trailing index = PMPCFG_STRIDE)%nat.
Proof. unfold trailing, PMPCFG_STRIDE. destruct CONFIG_64BIT; div_lia. Qed.

Lemma PMPCFG_STRIDE_ge : (4 <= PMPCFG_STRIDE)%nat.
Proof. unfold PMPCFG_STRIDE. destruct CONFIG_64BIT; lia. Qed.

Lemma load_cfg_word0_exact (pmp_n_cfg : list Z) :
  length pmp_n_cfg = PMPCFG_STRIDE ->
  load_cfg_word0 pmp_n_cfg = Ret (word_of_bytes pmp_n_cfg).
Proof.
  intros Hl. unfold load_cfg_word0.
  destruct (decide (PMPCFG_STRIDE <= length pmp_n_cfg)%nat); [|lia].
  rewrite take_ge by lia. reflexivity.
Qed.

(** What [z_riscv_pmp_init] does: the entries, the hardware write, and
    then the cross-check of SMP against the values of the first CPU. *)
Lemma z_riscv_pmp_init_run (g : pmp_globals)
    (rom_region_start rom_region_size irq_stack : Z)
    (pmp_addr pmp_n_cfg : list Z) (log : list event) :
  length pmp_addr = 4%nat -> length pmp_n_cfg = PMPCFG_STRIDE ->
  (CONFIG_ASSERT = true ->
     (4 <= CONFIG_PMP_SLOTS)%nat /\
     Z.land rom_region_start 3 = 0 /\ Z.land rom_region_size 3 = 0 /\
     (CONFIG_PMP_STACK_GUARD = true ->
        Z.land irq_stack 3 = 0 /\ Z.land Z_RISCV_STACK_GUARD_SIZE 3 = 0)) ->
  exists (index : nat) (a c cfg' : list Z),
    init_entries rom_region_start rom_region_size irq_stack pmp_addr pmp_n_cfg
      = Ret (index, a, c) /\
    z_riscv_pmp_init g rom_region_start rom_region_size irq_stack
        pmp_addr pmp_n_cfg log
      = (if CONFIG_SMP && negb (global_pmp_end_index g =? 0)%nat
            && CONFIG_ASSERT
            && negb ((global_pmp_end_index g =? index)%nat
                     && (global_pmp_cfg g =? word_of_bytes cfg'))
         then Abort Panic
         else Ret (Build_pmp_globals (word_of_bytes cfg') index),
         log ++ [EvHwWrite 0 index true a cfg']) /\
    length cfg' = PMPCFG_STRIDE /\
    (forall j : nat, (j < index)%nat -> cfg' !! j = c !! j) /\
    (forall j : nat, (index <= j < PMPCFG_STRIDE)%nat -> cfg' !! j = Some 0).
Proof.
  intros Hla Hlc Hal. pose proof PMPCFG_STRIDE_ge as Hstride.
  destruct (init_entries_spec rom_region_start rom_region_size irq_stack
              pmp_addr pmp_n_cfg ltac:(lia) ltac:(lia))
    as (i1 & a1 & c1 & index & a & c & _ & _ & Hent & Hi1 & Hle & Hmax & _ & _
        & Hl1 & Hl2 & _).
  { intros Ha. destruct (Hal Ha) as (_ & H). exact H. }
  assert (Hidx : (0 < index <= 4)%nat)
    by (destruct CONFIG_PMP_STACK_GUARD; lia).
  destruct (write_pmp_entries_ok 0 index true a c 4 log)
    as (cfg' & Hw & Hl' & Hclear & _).
  { lia. }
  { intros Ha. apply (Hal Ha). }
  { intros _. split; [lia|]. rewrite Hl2, Hlc. apply Nat.Div0.mod_same. }
  specialize (Hclear eq_refl).
  pose proof (trailing_first_word index ltac:(lia)) as Htr.
  exists index, a, c, cfg'. split; [exact Hent|]. split.
  - unfold z_riscv_pmp_init, M_bind, M_lift, M_ret. rewrite Hent, Hw.
    rewrite !load_cfg_word0_exact by congruence. cbn [res_bind].
    unfold __ASSERT.
    destruct (CONFIG_SMP && negb (global_pmp_end_index g =? 0)%nat);
      [|reflexivity].
    destruct CONFIG_ASSERT; cbn [andb res_bind]; [|reflexivity].
    destruct (global_pmp_end_index g =? index)%nat; cbn [negb andb res_bind];
      [|reflexivity].
    destruct (global_pmp_cfg g =? word_of_bytes cfg'); reflexivity.
  - split; [congruence|]. split.
    + intros j Hj. rewrite Hclear. destruct (decide _); [lia | reflexivity].
    + intros j Hj. rewrite Hclear. destruct (decide _); [reflexivity | lia].
Qed.

(** X15: the local arrays of [z_riscv_pmp_init] always have room: with
    aligned regions and at least 4 PMP slots (both only needed when
    assertions are compiled in), on the first CPU or without SMP, the call
    returns after exactly one hardware write of the slots from 0 to the new
    [global_pmp_end_index] with trailing clear; the index is 1 or 2 without
    the stack guard and between 2 and 4 with it; [global_pmp_cfg] is the
    config word written to the hardware, and its bytes from the index on
    are 0 whatever the local array held before. *)
Theorem z_riscv_pmp_init_spec (g : pmp_globals)
    (rom_region_start rom_region_size irq_stack : Z)
    (pmp_addr pmp_n_cfg : list Z) (log : list event) :
  length pmp_addr = 4%nat -> length pmp_n_cfg = PMPCFG_STRIDE ->
  (CONFIG_ASSERT = true ->
     (4 <= CONFIG_PMP_SLOTS)%nat /\
     Z.land rom_region_start 3 = 0 /\ Z.land rom_region_size 3 = 0 /\
     (CONFIG_PMP_STACK_GUARD = true ->
        Z.land irq_stack 3 = 0 /\ Z.land Z_RISCV_STACK_GUARD_SIZE 3 = 0)) ->
  CONFIG_SMP = false \/ global_pmp_end_index g = 0%nat ->
  exists (g' : pmp_globals) (addr' cfg' : list Z),
    z_riscv_pmp_init g rom_region_start rom_region_size irq_stack
        pmp_addr pmp_n_cfg log
      = (Ret g', log ++ [EvHwWrite 0 (global_pmp_end_index g') true addr' cfg']) /\
    ((if CONFIG_PMP_STACK_GUARD then 2 else 1) <= global_pmp_end_index g'
       <= (if CONFIG_PMP_STACK_GUARD then 4 else 2))%nat /\
    length cfg' = PMPCFG_STRIDE /\
    global_pmp_cfg g' = word_of_bytes cfg' /\
    (forall j : nat, (global_pmp_end_index g' <= j < PMPCFG_STRIDE)%nat ->
       cfg' !! j = Some 0).
Proof.
  intros Hla Hlc Hal Hfirst. pose proof PMPCFG_STRIDE_ge as Hstride.
  destruct (z_riscv_pmp_init_run g rom_region_start rom_region_size irq_stack
              pmp_addr pmp_n_cfg log Hla Hlc Hal)
    as (index & a & c & cfg' & Hent & Hrun & Hl & _ & Hzero).
  assert (Hsmp : CONFIG_SMP && negb (global_pmp_end_index g =? 0)%nat = false).
  { destruct Hfirst as [-> | ->]; [reflexivity|]. apply andb_false_r. }
  rewrite Hsmp in Hrun. cbn [andb] in Hrun.
  destruct (init_entries_spec rom_region_start rom_region_size irq_stack
              pmp_addr pmp_n_cfg ltac:(lia) ltac:(lia))
    as (i1 & a1 & c1 & index' & a' & c' & _ & _ & Hent' & Hi1 & Hle & Hmax & Hg1
        & Hg0 & _).
  { intros Ha. destruct (Hal Ha) as (_ & H). exact H. }
  rewrite Hent in Hent'. injection Hent' as <- <- <-.
  eexists _, a, cfg'. split; [exact Hrun|]. cbn [global_pmp_end_index global_pmp_cfg].
  split.
  { destruct CONFIG_PMP_STACK_GUARD; [specialize (Hg1 eq_refl) | specialize (Hg0 eq_refl)]; lia. }
  auto.
Qed.

(** X16: with regions in the address space, aligned and of nonzero size,
    the arrays [z_riscv_pmp_init] hands to the hardware decode, in the
    dump, to the read-only area with read, execute and lock, followed with
    [CONFIG_PMP_STACK_GUARD] by the guard of the interrupt stack with no
    permission at all. *)
Theorem z_riscv_pmp_init_decoded (g : pmp_globals)
    (rom_region_start rom_region_size irq_stack : Z)
    (pmp_addr pmp_n_cfg : list Z) (log : list event) :
  length pmp_addr = 4%nat -> length pmp_n_cfg = PMPCFG_STRIDE ->
  (CONFIG_ASSERT = true -> (4 <= CONFIG_PMP_SLOTS)%nat) ->
  CONFIG_SMP = false \/ global_pmp_end_index g = 0%nat ->
  0 <= rom_region_start < 2 ^ XLEN -> 0 < rom_region_size < 2 ^ XLEN ->
  rom_region_start mod 4 = 0 -> rom_region_size mod 4 = 0 ->
  (CONFIG_PMP_STACK_GUARD = true ->
     0 <= irq_stack < 2 ^ XLEN /\ 0 < Z_RISCV_STACK_GUARD_SIZE < 2 ^ XLEN /\
     irq_stack mod 4 = 0 /\ Z_RISCV_STACK_GUARD_SIZE mod 4 = 0) ->
  exists (g' : pmp_globals) (addr' cfg' : list Z),
    z_riscv_pmp_init g rom_region_start rom_region_size irq_stack
        pmp_addr pmp_n_cfg log
      = (Ret g', log ++ [EvHwWrite 0 (global_pmp_end_index g') true addr' cfg']) /\
    decoded_ranges 0 (global_pmp_end_index g') addr' cfg'
      = Ret (Build_pmp_range rom_region_start
               (ulong (rom_region_start + rom_region_size - 1))
               true false true true
             :: if CONFIG_PMP_STACK_GUARD
                then [Build_pmp_range irq_stack
                        (ulong (irq_stack + Z_RISCV_STACK_GUARD_SIZE - 1))
                        false false false false]
                else []).
Proof.
  intros Hla Hlc Hslots Hfirst Hrs Hrz Hra Hrza Hguard.
  pose proof PMPCFG_STRIDE_ge as Hstride.
  assert (Hal : CONFIG_ASSERT = true ->
     (4 <= CONFIG_PMP_SLOTS)%nat /\
     Z.land rom_region_start 3 = 0 /\ Z.land rom_region_size 3 = 0 /\
     (CONFIG_PMP_STACK_GUARD = true ->
        Z.land irq_stack 3 = 0 /\ Z.land Z_RISCV_STACK_GUARD_SIZE 3 = 0)).
  { intros Ha. rewrite !land_3_mod4. split; [auto|]. split; [auto|].
    split; [auto|]. intros Hg. apply Hguard in Hg. tauto. }
  destruct (z_riscv_pmp_init_run g rom_region_start rom_region_size irq_stack
              pmp_addr pmp_n_cfg log Hla Hlc Hal)
    as (index & a & c & cfg' & Hent & Hrun & Hl & Hkeep & _).
  assert (Hsmp : CONFIG_SMP && negb (global_pmp_end_index g =? 0)%nat = false).
  { destruct Hfirst as [-> | ->]; [reflexivity|]. apply andb_false_r. }
  rewrite Hsmp in Hrun. cbn [andb] in Hrun.
  destruct (init_entries_spec rom_region_start rom_region_size irq_stack
              pmp_addr pmp_n_cfg ltac:(lia) ltac:(lia))
    as (i1 & a1 & c1 & index' & a' & c' & Hset1 & Hset2 & Hent' & Hi1 & Hle & Hmax
        & Hg1 & Hg0 & _ & _ & Hbelow).
  { intros Ha. destruct (Hal Ha) as (_ & H). exact H. }
  rewrite Hent in Hent'. injection Hent' as <- <- <-.
  eexists _, a, cfg'. split; [exact Hrun|]. cbn [global_pmp_end_index].
  rewrite (decoded_ranges_ext 0 index a c a cfg')
    by (intros j Hj; split; [reflexivity | apply Hkeep; exact Hj]).
  assert (Hperm : 0 <= Z.lor (Z.lor PMP_R PMP_X) PMP_L < 256)
    by (change (Z.lor (Z.lor PMP_R PMP_X) PMP_L) with 0x85; lia).
  pose proof (set_pmp_entry_decoded _ _ _ _ _ _ _ _ _ _ Hperm eq_refl Hrs Hrz
                Hra Hrza Hset1) as Hrom.
  change (perm_r _) with true in Hrom. change (perm_w _) with false in Hrom.
  change (perm_x _) with true in Hrom. change (perm_locked _) with true in Hrom.
  rewrite (decoded_ranges_app 0 i1 index) by lia.
  rewrite (decoded_ranges_ext 0 i1 a1 c1 a c) by (intros j Hj; apply Hbelow; exact Hj).
  rewrite Hrom. cbn [res_bind].
  destruct CONFIG_PMP_STACK_GUARD.
  - destruct (Hguard eq_refl) as (Hs & Hz & Hsa & Hza).
    assert (Hnone : 0 <= PMP_NONE < 256) by (unfold PMP_NONE; lia).
    rewrite (set_pmp_entry_decoded _ _ _ _ _ _ _ _ _ _ Hnone eq_refl Hs Hz
               Hsa Hza Hset2).
    reflexivity.
  - injection Hset2 as <- <- <-.
    unfold decoded_ranges, print_pmp_entries. rewrite Nat.sub_diag. reflexivity.
Qed.

Lemma init_entries_local (rom_region_start rom_region_size irq_stack : Z)
    (pa1 pc1 pa2 pc2 : list Z) (i1 : nat) (a1 c1 : list Z) (i2 : nat)
    (a2 c2 : list Z) :
  length pa1 = length pa2 -> length pc1 = length pc2 ->
  init_entries rom_region_start rom_region_size irq_stack pa1 pc1
    = Ret (i1, a1, c1) ->
  init_entries rom_region_start rom_region_size irq_stack pa2 pc2
    = Ret (i2, a2, c2) ->
  i1 = i2 /\
  forall j : nat, (j < i1)%nat -> a1 !! j = a2 !! j /\ c1 !! j = c2 !! j.
Proof.
  intros Hla Hlc. unfold init_entries.
  pose proof (set_pmp_entry_local 0 (Z.lor (Z.lor PMP_R PMP_X) PMP_L)
                rom_region_start rom_region_size pa1 pc1 pa2 pc2 4 Hla Hlc
                ltac:(intros H; contradiction H; reflexivity)) as Hloc1.
  destruct (set_pmp_entry 0 _ _ _ pa1 pc1 4) as [[[[ok1 j1] b1] d1]|] eqn:S1;
    [|discriminate].
  destruct (set_pmp_entry 0 _ _ _ pa2 pc2 4) as [[[[ok2 j2] b2] d2]|] eqn:S2;
    [|contradiction].
  destruct Hloc1 as (_ & <- & Hcells1). cbn [res_bind].
  destruct (set_pmp_entry_effect _ _ _ _ _ _ _ _ _ _ _ S1)
    as (_ & _ & _ & L1 & L1' & _).
  destruct (set_pmp_entry_effect _ _ _ _ _ _ _ _ _ _ _ S2)
    as (_ & _ & _ & L2 & L2' & _).
  destruct CONFIG_PMP_STACK_GUARD.
  - assert (Hlb : length b1 = length b2) by (rewrite L1, L2; exact Hla).
    assert (Hld : length d1 = length d2) by (rewrite L1', L2'; exact Hlc).
    pose proof (set_pmp_entry_local j1 PMP_NONE irq_stack Z_RISCV_STACK_GUARD_SIZE
                  b1 d1 b2 d2 4 Hlb Hld) as Hloc2.
    destruct (set_pmp_entry j1 _ _ _ b1 d1 4) as [[[[ok3 j3] b3] d3]|] eqn:S3;
      [|discriminate].
    destruct (set_pmp_entry j1 _ _ _ b2 d2 4) as [[[[ok4 j4] b4] d4]|] eqn:S4;
      [|discriminate].
    cbn [res_bind]. intros [= <- <- <-] [= <- <- <-].
    destruct Hloc2 as (_ & <- & Hcells2).
    { intros Hne. apply Hcells1. lia. }
    split; [reflexivity|]. intros j Hj.
    destruct (set_pmp_entry_effect _ _ _ _ _ _ _ _ _ _ _ S3)
      as (_ & _ & _ & _ & _ & F3).
    destruct (set_pmp_entry_effect _ _ _ _ _ _ _ _ _ _ _ S4)
      as (_ & _ & _ & _ & _ & F4).
    destruct (Nat.lt_ge_cases j j1) as [Hlt|Hge].
    + destruct (F3 j ltac:(lia)) as [-> ->]. destruct (F4 j ltac:(lia)) as [-> ->].
      apply Hcells1. lia.
    + apply Hcells2. lia.
  - cbn [res_bind]. intros [= <- <- <-] [= <- <- <-].
    split; [reflexivity|]. intros j Hj. apply Hcells1. lia.
Qed.

(** X17: the outcome of [z_riscv_pmp_init] does not depend on what its
    uninitialized local arrays hold: two runs on the same regions store the
    same [global_pmp_end_index] and [global_pmp_cfg]; and a further CPU
    that runs it under SMP, with assertions compiled in, on the same
    regions and against these values passes the cross-check and leaves
    them as they are. *)
Theorem z_riscv_pmp_init_stable (g : pmp_globals)
    (rom_region_start rom_region_size irq_stack : Z)
    (pa1 pc1 pa2 pc2 : list Z) (log1 log2 : list event) :
  length pa1 = 4%nat -> length pc1 = PMPCFG_STRIDE ->
  length pa2 = 4%nat -> length pc2 = PMPCFG_STRIDE ->
  (CONFIG_ASSERT = true ->
     (4 <= CONFIG_PMP_SLOTS)%nat /\
     Z.land rom_region_start 3 = 0 /\ Z.land rom_region_size 3 = 0 /\
     (CONFIG_PMP_STACK_GUARD = true ->
        Z.land irq_stack 3 = 0 /\ Z.land Z_RISCV_STACK_GUARD_SIZE 3 = 0)) ->
  global_pmp_end_index g = 0%nat ->
  exists g' : pmp_globals,
    fst (z_riscv_pmp_init g rom_region_start rom_region_size irq_stack
           pa1 pc1 log1) = Ret g' /\
    fst (z_riscv_pmp_init g rom_region_start rom_region_size irq_stack
           pa2 pc2 log2) = Ret g' /\
    fst (z_riscv_pmp_init g' rom_region_start rom_region_size irq_stack
           pa2 pc2 log2) = Ret g'.
Proof.
  intros Hla1 Hlc1 Hla2 Hlc2 Hal Hfirst.
  destruct (z_riscv_pmp_init_run g rom_region_start rom_region_size irq_stack
              pa1 pc1 log1 Hla1 Hlc1 Hal)
    as (i1 & a1 & c1 & cfg1 & Hent1 & Hrun1 & Hl1 & Hkeep1 & Hzero1).
  destruct (z_riscv_pmp_init_run g rom_region_start rom_region_size irq_stack
              pa2 pc2 log2 Hla2 Hlc2 Hal)
    as (i2 & a2 & c2 & cfg2 & Hent2 & Hrun2 & Hl2 & Hkeep2 & Hzero2).
  assert (Hla : length pa1 = length pa2) by congruence.
  assert (Hlc : length pc1 = length pc2) by congruence.
  destruct (init_entries_local _ _ _ _ _ _ _ _ _ _ _ _ _ Hla Hlc Hent1 Hent2)
    as [<- Hcells].
  assert (Hcfg : cfg1 = cfg2).
  { apply list_eq. intros j.
    destruct (Nat.lt_ge_cases j i1) as [Hlt|Hge].
    - rewrite Hkeep1, Hkeep2 by assumption. apply Hcells. assumption.
    - destruct (Nat.lt_ge_cases j PMPCFG_STRIDE) as [Hlt'|Hge'].
      + rewrite Hzero1, Hzero2 by lia. reflexivity.
      + rewrite !lookup_ge_None_2 by lia. reflexivity. }
  subst cfg2.
  exists (Build_pmp_globals (word_of_bytes cfg1) i1).
  rewrite Hrun1, Hrun2, Hfirst. cbn [Nat.eqb negb andb fst].
  rewrite !andb_false_r. cbn [andb fst].
  split; [reflexivity|]. split; [reflexivity|].
  destruct (z_riscv_pmp_init_run (Build_pmp_globals (word_of_bytes cfg1) i1)
              rom_region_start rom_region_size irq_stack
              pa2 pc2 log2 Hla2 Hlc2 Hal)
    as (i3 & a3 & c3 & cfg3 & Hent3 & Hrun3 & Hl3 & Hkeep3 & Hzero3).
  rewrite Hent2 in Hent3. injection Hent3 as <- <- <-.
  assert (Hcfg3 : cfg3 = cfg1).
  { apply list_eq. intros j.
    destruct (Nat.lt_ge_cases j i1) as [Hlt|Hge].
    - rewrite Hkeep3, Hkeep2 by assumption. reflexivity.
    - destruct (Nat.lt_ge_cases j PMPCFG_STRIDE) as [Hlt'|Hge'].
      + rewrite Hzero3, Hzero2 by lia. reflexivity.
      + rewrite !lookup_ge_None_2 by lia. reflexivity. }
  subst cfg3. rewrite Hrun3. cbn [global_pmp_end_index global_pmp_cfg].
  rewrite Nat.eqb_refl, Z.eqb_refl. cbn [andb negb].
  rewrite !andb_false_r. reflexivity.
Qed.

(** ** The cached config word *)

Lemma word_of_bytes_nonneg (bs : list Z) :
  Forall (fun b => 0 <= b < 256) bs -> 0 <= word_of_bytes bs.
Proof.
  induction 1 as [|b rest Hb Hrest IH]; cbn [word_of_bytes]; [lia|].
  apply Z.lor_nonneg. split; [lia|]. apply Z.shiftl_nonneg. exact IH.
Qed.

Lemma word_of_bytes_byte (bs : list Z) :
  Forall (fun b => 0 <= b < 256) bs ->
  forall (j : nat) (b : Z), bs !! j = Some b ->
    Z.land (Z.shiftr (word_of_bytes bs) (8 * Z.of_nat j)) 0xff = b.
Proof.
  induction 1 as [|b0 rest Hb Hrest IH]; intros j b Hj; [discriminate|].
  cbn [word_of_bytes]. destruct j as [|j].
  - injection Hj as <-. cbn [Z.of_nat Z.mul]. rewrite Z.shiftr_0_r.
    rewrite Z.land_lor_distr_l.
    change 255 with (Z.ones 8). rewrite !Z.land_ones by lia.
    rewrite Z.shiftl_mul_pow2 by lia. rewrite Z.mod_mul by lia.
    rewrite Z.lor_0_r. apply Z.mod_small. lia.
  - cbn [lookup] in Hj. simpl in Hj.
    replace (8 * Z.of_nat (S j)) with (8 + 8 * Z.of_nat j) by lia.
    rewrite <- Z.shiftr_shiftr by lia.
    rewrite Z.shiftr_lor, Z.shiftr_shiftl_l by lia.
    replace (8 - 8) with 0 by lia. rewrite Z.shiftl_0_r.
    rewrite (Z.shiftr_div_pow2 b0) by lia. rewrite Z.div_small by lia.
    rewrite Z.lor_0_l. apply IH. exact Hj.
Qed.

(** X18: a config word read from bytes yields these bytes again when it is
    written: on a byte array [bs] of one register word,
    [pmp_cfg[0] = w] with [w] the word read from [bs] puts [bs] at the
    start of the target array and leaves the rest of it as it was. *)
Theorem cfg_word_roundtrip (bs pmp_n_cfg : list Z) :
  Forall (fun b => 0 <= b < 256) bs ->
  length bs = PMPCFG_STRIDE ->
  (PMPCFG_STRIDE <= length pmp_n_cfg)%nat ->
  load_cfg_word0 bs = Ret (word_of_bytes bs) /\
  store_cfg_word0 pmp_n_cfg (word_of_bytes bs)
    = Ret (bs ++ drop PMPCFG_STRIDE pmp_n_cfg).
Proof.
  intros Hbytes Hl Hlen. split; [apply load_cfg_word0_exact; exact Hl|].
  unfold store_cfg_word0.
  destruct (decide (PMPCFG_STRIDE <= length pmp_n_cfg)%nat); [|contradiction].
  f_equal. f_equal. apply list_eq. intros j.
  destruct (Nat.lt_ge_cases j PMPCFG_STRIDE) as [Hlt|Hge].
  - rewrite word_bytes_lookup by assumption.
    destruct (lookup_lt_is_Some_2 bs j ltac:(lia)) as [b Hb].
    rewrite Hb. f_equal. apply word_of_bytes_byte; assumption.
  - rewrite !lookup_ge_None_2; [reflexivity | lia |].
    rewrite word_bytes_length. lia.
Qed.

Lemma set_pmp_entry_cfg_bytes (index : nat) (perm start size : Z)
    (pmp_addr pmp_n_cfg : list Z) (index_limit : nat) (ok : bool)
    (index' : nat) (pmp_addr' pmp_n_cfg' : list Z) :
  set_pmp_entry index perm start size pmp_addr pmp_n_cfg index_limit
    = Ret (ok, index', pmp_addr', pmp_n_cfg') ->
  forall j : nat, (index <= j < index')%nat ->
    exists v : Z, pmp_n_cfg' !! j = Some v /\ 0 <= v < 256.
Proof.
  intros H j Hj. destruct ok.
  - assert (Hu8 : forall x, 0 <= u8 x < 256)
      by (intros x; unfold u8; apply Z.mod_pos_bound; lia).
    apply set_pmp_entry_true in H as (Hlt & Hla & Hlc & Hcases).
    destruct Hcases as [(Hch & -> & -> & ->) | [(Hn & Hnp & -> & -> & ->)
                       | (Hn & Hnp & Hlt' & Hla' & Hlc' & -> & -> & ->)]].
    + replace j with index by lia. eexists.
      split; [apply list_lookup_insert_eq; assumption | apply Hu8].
    + replace j with index by lia. eexists.
      split; [apply list_lookup_insert_eq; assumption | apply Hu8].
    + destruct (Nat.eq_dec j index) as [->|Hne].
      * exists 0. split; [|lia]. rewrite list_lookup_insert_ne by lia.
        apply list_lookup_insert_eq. assumption.
      * replace j with (index + 1)%nat by lia. eexists.
        split; [apply list_lookup_insert_eq; rewrite length_insert; assumption
               | apply Hu8].
  - apply set_pmp_entry_false in H as (-> & _). lia.
Qed.

Lemma init_entries_bytes (rom_region_start rom_region_size irq_stack : Z)
    (pmp_addr pmp_n_cfg : list Z) (index : nat) (a c : list Z) :
  init_entries rom_region_start rom_region_size irq_stack pmp_addr pmp_n_cfg
    = Ret (index, a, c) ->
  forall j : nat, (j < index)%nat ->
    exists v : Z, c !! j = Some v /\ 0 <= v < 256.
Proof.
  unfold init_entries. intros H. inv_res H.
  destruct x as [[[ok1 i1] a1] c1]. inv_res H.
  destruct x as [[[ok2 i2] a2] c2]. injection H as <- <- <-.
  pose proof (set_pmp_entry_cfg_bytes _ _ _ _ _ _ _ _ _ _ _ Hx) as B1.
  intros j Hj. destruct CONFIG_PMP_STACK_GUARD.
  - pose proof (set_pmp_entry_cfg_bytes _ _ _ _ _ _ _ _ _ _ _ Hx0) as B2.
    destruct (set_pmp_entry_effect _ _ _ _ _ _ _ _ _ _ _ Hx0)
      as (_ & _ & _ & _ & _ & F).
    destruct (Nat.lt_ge_cases j i1) as [Hlt|Hge].
    + destruct (F j ltac:(lia)) as [_ ->]. apply B1. lia.
    + apply B2. lia.
  - injection Hx0 as <- <- <- <-. apply B1. lia.
Qed.

(** X19: the global config bytes a thread starts from are the ones that
    went to the hardware: after [z_riscv_pmp_init] has returned with new
    globals, a [z_riscv_pmp_usermode_prepare] that returns leaves in the
    thread's config array, below [global_pmp_end_index], exactly the config
    bytes of the hardware write of [z_riscv_pmp_init]. *)
Theorem usermode_prepare_global_bytes (g g' : pmp_globals)
    (rom_region_start rom_region_size irq_stack : Z)
    (pmp_addr pmp_n_cfg : list Z) (log log' : list event)
    (thread thread' : k_thread) :
  length pmp_addr = 4%nat -> length pmp_n_cfg = PMPCFG_STRIDE ->
  (CONFIG_ASSERT = true ->
     (4 <= CONFIG_PMP_SLOTS)%nat /\
     Z.land rom_region_start 3 = 0 /\ Z.land rom_region_size 3 = 0 /\
     (CONFIG_PMP_STACK_GUARD = true ->
        Z.land irq_stack 3 = 0 /\ Z.land Z_RISCV_STACK_GUARD_SIZE 3 = 0)) ->
  z_riscv_pmp_init g rom_region_start rom_region_size irq_stack
      pmp_addr pmp_n_cfg log = (Ret g', log') ->
  z_riscv_pmp_usermode_prepare g' thread = Ret thread' ->
  exists addr' cfg' : list Z,
    log' = log ++ [EvHwWrite 0 (global_pmp_end_index g') true addr' cfg'] /\
    forall j : nat, (j < global_pmp_end_index g')%nat ->
      u_mode_pmpcfg_regs thread' !! j = cfg' !! j.
Proof.
  intros Hla Hlc Hal Hinit Hprep. pose proof PMPCFG_STRIDE_ge as Hstride.
  destruct (z_riscv_pmp_init_run g rom_region_start rom_region_size irq_stack
              pmp_addr pmp_n_cfg log Hla Hlc Hal)
    as (index & a & c & cfg' & Hent & Hrun & Hl & Hkeep & Hzero).
  rewrite Hrun in Hinit.
  destruct (_ && _ && _ && _) in Hinit; [discriminate|].
  injection Hinit as <- <-. cbn [global_pmp_end_index global_pmp_cfg] in *.
  exists a, cfg'. split; [reflexivity|].
  destruct (init_entries_spec rom_region_start rom_region_size irq_stack
              pmp_addr pmp_n_cfg ltac:(lia) ltac:(lia))
    as (i1 & a1 & c1 & index' & a' & c' & _ & _ & Hent' & _ & _ & Hmax & _).
  { intros Ha. destruct (Hal Ha) as (_ & H). exact H. }
  rewrite Hent in Hent'. injection Hent' as <- <- <-.
  assert (Hidx : (index <= 4)%nat) by (destruct CONFIG_PMP_STACK_GUARD; lia).
  assert (Hbytes : Forall (fun b => 0 <= b < 256) cfg').
  { apply Forall_lookup_2. intros j b Hb.
    destruct (Nat.lt_ge_cases j index) as [Hlt|Hge].
    - rewrite Hkeep in Hb by assumption.
      destruct (init_entries_bytes _ _ _ _ _ _ _ _ Hent j Hlt) as (v & Hv & Hr).
      congruence.
    - apply lookup_lt_Some in Hb as Hj. rewrite Hzero in Hb by lia.
      injection Hb as <-. lia. }
  unfold z_riscv_pmp_usermode_prepare in Hprep.
  cbn [global_pmp_end_index global_pmp_cfg] in Hprep. inv_res Hprep.
  destruct x0 as [[[ok i2] a2] c2]. injection Hprep as <-.
  cbn [u_mode_pmpcfg_regs].
  unfold store_cfg_word0 in Hx.
  destruct (decide (PMPCFG_STRIDE <= length (u_mode_pmpcfg_regs thread))%nat);
    [|discriminate].
  injection Hx as <-.
  destruct (set_pmp_entry_effect _ _ _ _ _ _ _ _ _ _ _ Hx0)
    as (_ & _ & _ & _ & _ & F).
  intros j Hj. destruct (F j ltac:(lia)) as [_ ->].
  rewrite lookup_app_l by (rewrite word_bytes_length; lia).
  rewrite word_bytes_lookup by lia.
  destruct (lookup_lt_is_Some_2 cfg' j ltac:(lia)) as [b Hb].
  rewrite Hb. f_equal. apply word_of_bytes_byte; assumption.
Qed.

(** ** The m-mode stack guard *)

Lemma fallback_line (i : nat) (v : Z) (a c : list Z) :
  v = PMP_ADDR_NAPOT 0 0 \/ v = ulong (-1) ->
  a !! i = Some v -> c !! i = Some 31 ->
  print_pmp_entry i a c
    = Ret (LineRange i v 31 0 (2 ^ XLEN - 1) true true true false).
Proof.
  intros Hv Ha Hc. unfold print_pmp_entry, load. rewrite Ha, Hc.
  cbn [res_bind].
  change (Z.land 31 PMP_A =? PMP_TOR) with false.
  change (Z.land 31 PMP_A =? PMP_NA4) with false.
  change (Z.land 31 PMP_A =? PMP_NAPOT) with true.
  cbn [res_bind].
  unfold PMP_ADDR_NAPOT, PMP_ADDR, NAPOT_RANGE, ulong, XLEN in *.
  destruct CONFIG_64BIT, Hv as [-> | ->]; reflexivity.
Qed.

Lemma guard_addr_nonzero (index : nat) (start size : Z)
    (pmp_addr pmp_n_cfg : list Z) (index_limit index' : nat)
    (pmp_addr' pmp_n_cfg' : list Z) :
  0 < start -> 0 < size -> start + size < 2 ^ XLEN ->
  start mod 4 = 0 -> size mod 4 = 0 ->
  set_pmp_entry index PMP_NONE start size pmp_addr pmp_n_cfg index_limit
    = Ret (true, index', pmp_addr', pmp_n_cfg') ->
  exists v : Z, pmp_addr' !! (index' - 1)%nat = Some v /\ v <> 0.
Proof.
  intros Hs Hz Hsum Hs4 Hz4 H.
  assert (Hge : 4 <= start) by div_lia.
  assert (Hsh : Z.shiftr start 2 <> 0).
  { rewrite Z.shiftr_div_pow2 by lia. change (2 ^ 2) with 4. div_lia. }
  apply set_pmp_entry_true in H as (Hlt & Hla & Hlc & Hcases).
  destruct Hcases as [(Hch & -> & -> & ->) | [(Hn & Hnp & -> & -> & ->)
                     | (Hn & Hnp & Hlt' & Hla' & Hlc' & -> & -> & ->)]].
  - replace (index + 1 - 1)%nat with index by lia. eexists.
    split; [apply list_lookup_insert_eq; assumption|].
    unfold PMP_ADDR. rewrite ulong_small by lia.
    rewrite Z.shiftr_div_pow2 by lia. change (2 ^ 2) with 4. div_lia.
  - replace (index + 1 - 1)%nat with index by lia. eexists.
    split; [apply list_lookup_insert_eq; assumption|].
    unfold PMP_ADDR_NAPOT, PMP_ADDR. rewrite Z.shiftr_lor.
    intros H0. apply Z.lor_eq_0_iff in H0 as [H0 _]. contradiction.
  - replace (index + 2 - 1)%nat with (index + 1)%nat by lia. eexists.
    split; [apply list_lookup_insert_eq; rewrite length_insert; assumption|].
    unfold PMP_ADDR. rewrite ulong_small by lia.
    rewrite Z.shiftr_div_pow2 by lia. change (2 ^ 2) with 4. div_lia.
Qed.

Lemma stackguard_prepare_run (g : pmp_globals) (thread : m_mode_thread) :
  (PMPCFG_STRIDE <= length (m_mode_pmpcfg_regs thread))%nat ->
  (length (m_mode_pmpaddr_regs thread)
     <= length (m_mode_pmpcfg_regs thread))%nat ->
  (global_pmp_end_index g + 3 <= length (m_mode_pmpaddr_regs thread))%nat ->
  0 < stack_bottom thread -> 0 < Z_RISCV_STACK_GUARD_SIZE ->
  stack_bottom thread + Z_RISCV_STACK_GUARD_SIZE < 2 ^ XLEN ->
  stack_bottom thread mod 4 = 0 -> Z_RISCV_STACK_GUARD_SIZE mod 4 = 0 ->
  exists (index : nat) (addr cfg : list Z),
    z_riscv_pmp_stackguard_prepare g thread
      = Ret (Build_m_mode_thread (m_stack_info_start thread)
               (priv_stack_start thread) (stack_is_user_capable thread)
               addr cfg index) /\
    (global_pmp_end_index g + 2 <= index <= global_pmp_end_index g + 3)%nat /\
    length addr = length (m_mode_pmpaddr_regs thread) /\
    length cfg = length (m_mode_pmpcfg_regs thread) /\
    decoded_ranges (global_pmp_end_index g) index addr cfg
      = Ret [guard_range thread; fallback_range] /\
    (forall j : nat, (j < global_pmp_end_index g)%nat ->
       addr !! j = m_mode_pmpaddr_regs thread !! j) /\
    (forall j : nat,
       (j < global_pmp_end_index g)%nat -> (j < PMPCFG_STRIDE)%nat ->
       cfg !! j
         = Some (Z.land (Z.shiftr (global_pmp_cfg g) (8 * Z.of_nat j)) 0xff)).
Proof.
  intros Hstride Hlen Hroom Hs Hz Hsum Hs4 Hz4.
  set (ge := global_pmp_end_index g) in *.
  set (a0 := m_mode_pmpaddr_regs thread) in *.
  destruct (store_cfg_word0_spec (m_mode_pmpcfg_regs thread)
              (global_pmp_cfg g) Hstride)
    as (c0 & Hst & Hlc0 & Hlow & Hhigh).
  assert (Hal : forall x, x mod 4 = 0 -> Z.land x 3 = 0).
  { intros x Hx. change 3 with (Z.ones 2). rewrite Z.land_ones by lia.
    exact Hx. }
  destruct (set_pmp_entry_total ge PMP_NONE (stack_bottom thread)
              Z_RISCV_STACK_GUARD_SIZE a0 c0 (length a0))
    as (ok1 & i1 & a1 & c1 & Hrun1 & Hok1); [lia | lia | auto |].
  assert (ok1 = true) as -> by (apply Hok1; lia).
  destruct (set_pmp_entry_effect _ _ _ _ _ _ _ _ _ _ _ Hrun1)
    as (Hi1 & Hi1' & _ & Hla1 & Hlc1 & F1).
  specialize (Hi1' eq_refl). destruct Hi1' as (Hi1lt & _ & _).
  pose proof (set_pmp_entry_decoded ge PMP_NONE (stack_bottom thread)
                Z_RISCV_STACK_GUARD_SIZE a0 c0 (length a0) i1 a1 c1
                ltac:(unfold PMP_NONE; lia) eq_refl ltac:(lia) ltac:(lia)
                Hs4 Hz4 Hrun1) as Hdec1.
  destruct (guard_addr_nonzero _ _ _ _ _ _ _ _ _ Hs Hz Hsum Hs4 Hz4 Hrun1)
    as (v & Hv & Hv0).
  destruct (set_pmp_entry_total i1 (Z.lor (Z.lor PMP_R PMP_W) PMP_X) 0 0
              a1 c1 (length a0))
    as (ok2 & i2 & a2 & c2 & Hrun2 & Hok2); [lia | lia | auto |].
  assert (Hnap : napot_test 0 0 = true) by reflexivity.
  assert (ok2 = true) as -> by (apply Hok2; split; [lia | right; left; exact Hnap]).
  pose proof Hrun2 as Hrun2'.
  apply set_pmp_entry_true in Hrun2' as (Hlt2 & Hla2 & Hlc2 & Hcases).
  assert (Hcase : i2 = (i1 + 1)%nat /\
                  a2 = <[i1 := PMP_ADDR_NAPOT 0 0]> a1 /\
                  c2 = <[i1 := 31]> c1).
  { destruct Hcases as [(Hch & _) | [(_ & _ & -> & -> & ->)
                       | (_ & Hnp & _)]].
    - destruct Hch as [(Hi & _) | (_ & Hp)]; [lia|].
      rewrite Hv in Hp. injection Hp as ->. exfalso. apply Hv0. reflexivity.
    - repeat split; reflexivity.
    - rewrite Hnap in Hnp. discriminate. }
  destruct Hcase as (-> & -> & ->).
  set (a3 := if CONFIG_QEMU_TARGET then <[i1 := ulong (-1)]> a1
             else <[i1 := PMP_ADDR_NAPOT 0 0]> a1).
  exists (i1 + 1)%nat, a3, (<[i1 := 31]> c1).
  assert (Hla3 : length a3 = length a0).
  { unfold a3. destruct CONFIG_QEMU_TARGET; rewrite length_insert; exact Hla1. }
  assert (Hlow3 : forall j : nat, (j < i1)%nat -> a3 !! j = a1 !! j).
  { intros j Hj. unfold a3.
    destruct CONFIG_QEMU_TARGET; apply list_lookup_insert_ne; lia. }
  split; [|split; [lia|split; [exact Hla3|split;
          [rewrite length_insert; lia|split; [|split]]]]].
  - unfold z_riscv_pmp_stackguard_prepare. fold ge a0. rewrite Hst.
    cbn [res_bind]. rewrite Hrun1. cbn [res_bind]. rewrite Hrun2.
    cbn [res_bind]. unfold a3. destruct CONFIG_QEMU_TARGET.
    + replace (i1 + 1 =? 0)%nat with false by (symmetry; apply Nat.eqb_neq; lia).
      replace (i1 + 1 - 1)%nat with i1 by lia. unfold store.
      rewrite length_insert.
      destruct (decide (i1 < length a1)%nat); [|lia].
      cbn [res_bind]. rewrite list_insert_insert_eq. reflexivity.
    + reflexivity.
  - rewrite (decoded_ranges_app ge i1 (i1 + 1)) by lia.
    rewrite (decoded_ranges_ext ge i1 a1 c1 a3 (<[i1 := 31]> c1)).
    2:{ intros j Hj. split; [apply Hlow3; exact Hj|].
        apply list_lookup_insert_ne. lia. }
    rewrite Hdec1. cbn [res_bind].
    unfold decoded_ranges, print_pmp_entries.
    replace (i1 + 1 - i1)%nat with 1%nat by lia. cbn [print_pmp_loop].
    rewrite (fallback_line i1 (if CONFIG_QEMU_TARGET then ulong (-1)
                               else PMP_ADDR_NAPOT 0 0)).
    + reflexivity.
    + destruct CONFIG_QEMU_TARGET; [right | left]; reflexivity.
    + unfold a3. destruct CONFIG_QEMU_TARGET;
        apply list_lookup_insert_eq; lia.
    + apply list_lookup_insert_eq. lia.
  - intros j Hj. rewrite Hlow3 by lia. apply F1. lia.
  - intros j Hj Hjs. rewrite list_lookup_insert_ne by lia.
    destruct (F1 j ltac:(lia)) as [_ ->]. apply Hlow. exact Hjs.
Qed.

Lemma stackguard_enable_run (g : pmp_globals) (thread : m_mode_thread)
    (log : list mstatus_event) :
  z_riscv_pmp_stackguard_enable g thread log =
    if (global_pmp_end_index g <? m_mode_pmp_end_index thread)%nat
       && (m_mode_pmp_end_index thread
             <=? length (m_mode_pmpaddr_regs thread))%nat
       && (negb CONFIG_ASSERT
           || (length (m_mode_pmpaddr_regs thread) <=? CONFIG_PMP_SLOTS)%nat)
    then (Ret thread,
          log ++ [EvPmp (EvCsrClear (Z.lor MSTATUS_MPRV MSTATUS_MPP));
                  EvPmp (EvHwWrite (global_pmp_end_index g)
                           (m_mode_pmp_end_index thread) false
                           (m_mode_pmpaddr_regs thread)
                           (m_mode_pmpcfg_regs thread));
                  EvCsrSet MSTATUS_MPRV])
    else (Abort Panic,
          log ++ [EvPmp (EvCsrClear (Z.lor MSTATUS_MPRV MSTATUS_MPP))]).
Proof.
  destruct thread as [ss ps uc a c e]. destruct g as [w ge].
  unfold z_riscv_pmp_stackguard_enable, write_pmp_entries,
    z_riscv_write_pmp_entries, k_panic, M_bind, M_lift, M_ret, emit, __ASSERT.
  cbn [global_pmp_end_index m_mode_pmp_end_index m_mode_pmpaddr_regs
       m_mode_pmpcfg_regs m_stack_info_start priv_stack_start
       stack_is_user_capable].
  destruct (Nat.ltb_spec ge e), (Nat.leb_spec e (length a)),
    (Nat.leb_spec (length a) CONFIG_PMP_SLOTS), CONFIG_ASSERT;
    cbn [andb orb negb];
    repeat match goal with
    | |- context [(?x <=? ?y)%nat] =>
        destruct (Nat.leb_spec x y); try lia
    | |- context [(?x <? ?y)%nat] =>
        destruct (Nat.ltb_spec x y); try lia
    end;
    cbn [andb orb negb map app]; rewrite ?app_nil_r, <- ?app_assoc;
    reflexivity.
Qed.

(** X20: what [z_riscv_pmp_stackguard_prepare] builds.  With three free
    slots after the global entries and a word-aligned guard region
    [stack_bottom, stack_bottom + Z_RISCV_STACK_GUARD_SIZE) that neither
    starts at 0 nor reaches the end of the address space, the function
    returns; the slots from [global_pmp_end_index] to the recorded end
    index (two or three of them) decode to the guard region without any
    permission, followed by the whole address space readable, writable
    and executable, with or without the QEMU workaround; the address
    slots of the global entries are kept, and the config bytes below the
    boundary are those of [global_pmp_cfg]. *)
Theorem stackguard_prepare_decoded (g : pmp_globals) (thread : m_mode_thread) :
  (PMPCFG_STRIDE <= length (m_mode_pmpcfg_regs thread))%nat ->
  (length (m_mode_pmpaddr_regs thread)
     <= length (m_mode_pmpcfg_regs thread))%nat ->
  (global_pmp_end_index g + 3 <= length (m_mode_pmpaddr_regs thread))%nat ->
  0 < stack_bottom thread -> 0 < Z_RISCV_STACK_GUARD_SIZE ->
  stack_bottom thread + Z_RISCV_STACK_GUARD_SIZE < 2 ^ XLEN ->
  stack_bottom thread mod 4 = 0 -> Z_RISCV_STACK_GUARD_SIZE mod 4 = 0 ->
  exists thread' : m_mode_thread,
    z_riscv_pmp_stackguard_prepare g thread = Ret thread' /\
    (global_pmp_end_index g + 2 <= m_mode_pmp_end_index thread'
       <= global_pmp_end_index g + 3)%nat /\
    decoded_ranges (global_pmp_end_index g) (m_mode_pmp_end_index thread')
        (m_mode_pmpaddr_regs thread') (m_mode_pmpcfg_regs thread')
      = Ret [guard_range thread; fallback_range] /\
    (forall j : nat, (j < global_pmp_end_index g)%nat ->
       m_mode_pmpaddr_regs thread' !! j = m_mode_pmpaddr_regs thread !! j) /\
    (forall j : nat,
       (j < global_pmp_end_index g)%nat -> (j < PMPCFG_STRIDE)%nat ->
       m_mode_pmpcfg_regs thread' !! j
         = Some (Z.land (Z.shiftr (global_pmp_cfg g) (8 * Z.of_nat j)) 0xff)).
Proof.
  intros Hstride Hlen Hroom Hs Hz Hsum Hs4 Hz4.
  destruct (stackguard_prepare_run g thread Hstride Hlen Hroom Hs Hz Hsum
              Hs4 Hz4)
    as (index & addr & cfg & Hrun & Hidx & _ & _ & Hdec & Ha & Hc).
  eexists. split; [exact Hrun|].
  cbn [m_mode_pmp_end_index m_mode_pmpaddr_regs m_mode_pmpcfg_regs].
  auto.
Qed.

(** X21: what [z_riscv_pmp_stackguard_enable] does to the machine.  For a
    thread whose recorded end index lies above [global_pmp_end_index] and
    within its address array (and, with assertions on, whose array is no
    longer than [CONFIG_PMP_SLOTS]), the function clears MPRV and MPP,
    hands the slots from the boundary to the end index to the hardware
    write without clearing of trailing entries, then sets MPRV, in this
    order, and leaves the thread as it was.  For any other thread it
    panics after the clearing: nothing is written and MPRV is not set. *)
Theorem stackguard_enable_events (g : pmp_globals) (thread : m_mode_thread)
    (log : list mstatus_event) :
  ((global_pmp_end_index g < m_mode_pmp_end_index thread
      <= length (m_mode_pmpaddr_regs thread))%nat ->
   (CONFIG_ASSERT = true ->
      (length (m_mode_pmpaddr_regs thread) <= CONFIG_PMP_SLOTS)%nat) ->
   z_riscv_pmp_stackguard_enable g thread log
     = (Ret thread,
        log ++ [EvPmp (EvCsrClear (Z.lor MSTATUS_MPRV MSTATUS_MPP));
                EvPmp (EvHwWrite (global_pmp_end_index g)
                         (m_mode_pmp_end_index thread) false
                         (m_mode_pmpaddr_regs thread)
                         (m_mode_pmpcfg_regs thread));
                EvCsrSet MSTATUS_MPRV])) /\
  ((m_mode_pmp_end_index thread <= global_pmp_end_index g)%nat \/
   (length (m_mode_pmpaddr_regs thread) < m_mode_pmp_end_index thread)%nat \/
   (CONFIG_ASSERT = true /\
    (CONFIG_PMP_SLOTS < length (m_mode_pmpaddr_regs thread))%nat) ->
   z_riscv_pmp_stackguard_enable g thread log
     = (Abort Panic,
        log ++ [EvPmp (EvCsrClear (Z.lor MSTATUS_MPRV MSTATUS_MPP))])).
Proof.
  rewrite stackguard_enable_run. split.
  - intros [H1 H2] H3.
    destruct (Nat.ltb_spec (global_pmp_end_index g)
                (m_mode_pmp_end_index thread)); [|lia].
    destruct (Nat.leb_spec (m_mode_pmp_end_index thread)
                (length (m_mode_pmpaddr_regs thread))); [|lia].
    destruct CONFIG_ASSERT; [|reflexivity].
    specialize (H3 eq_refl).
    destruct (Nat.leb_spec (length (m_mode_pmpaddr_regs thread))
                CONFIG_PMP_SLOTS); [reflexivity|lia].
  - intros H.
    destruct (Nat.ltb_spec (global_pmp_end_index g)
                (m_mode_pmp_end_index thread)); [|reflexivity].
    destruct (Nat.leb_spec (m_mode_pmp_end_index thread)
                (length (m_mode_pmpaddr_regs thread))); [|reflexivity].
    destruct H as [H | [H | [Ha H]]]; [lia | lia |].
    rewrite Ha.
    destruct (Nat.leb_spec (length (m_mode_pmpaddr_regs thread))
                CONFIG_PMP_SLOTS); [lia|reflexivity].
Qed.

(** X22: preparing, then enabling the stack guard.  Under the conditions
    of X20, and with an address array no longer than [CONFIG_PMP_SLOTS]
    when assertions are on, [z_riscv_pmp_stackguard_prepare] followed by
    [z_riscv_pmp_stackguard_enable] returns, and the one hardware write
    between the clearing and the setting of MPRV carries slots that decode
    to the guard region without permissions and the whole address space
    with all of them. *)
Theorem stackguard_prepare_then_enable (g : pmp_globals)
    (thread : m_mode_thread) (log : list mstatus_event) :
  (PMPCFG_STRIDE <= length (m_mode_pmpcfg_regs thread))%nat ->
  (length (m_mode_pmpaddr_regs thread)
     <= length (m_mode_pmpcfg_regs thread))%nat ->
  (global_pmp_end_index g + 3 <= length (m_mode_pmpaddr_regs thread))%nat ->
  (CONFIG_ASSERT = true ->
     (length (m_mode_pmpaddr_regs thread) <= CONFIG_PMP_SLOTS)%nat) ->
  0 < stack_bottom thread -> 0 < Z_RISCV_STACK_GUARD_SIZE ->
  stack_bottom thread + Z_RISCV_STACK_GUARD_SIZE < 2 ^ XLEN ->
  stack_bottom thread mod 4 = 0 -> Z_RISCV_STACK_GUARD_SIZE mod 4 = 0 ->
  exists (thread' : m_mode_thread) (end_ : nat) (addr cfg : list Z),
    z_riscv_pmp_stackguard_prepare g thread = Ret thread' /\
    z_riscv_pmp_stackguard_enable g thread' log
      = (Ret thread',
         log ++ [EvPmp (EvCsrClear (Z.lor MSTATUS_MPRV MSTATUS_MPP));
                 EvPmp (EvHwWrite (global_pmp_end_index g) end_ false
                          addr cfg);
                 EvCsrSet MSTATUS_MPRV]) /\
    decoded_ranges (global_pmp_end_index g) end_ addr cfg
      = Ret [guard_range thread; fallback_range].
Proof.
  intros Hstride Hlen Hroom Hslots Hs Hz Hsum Hs4 Hz4.
  destruct (stackguard_prepare_run g thread Hstride Hlen Hroom Hs Hz Hsum
              Hs4 Hz4)
    as (index & addr & cfg & Hrun & Hidx & Hla & _ & Hdec & _).
  eexists. exists index, addr, cfg. split; [exact Hrun|].
  split; [|exact Hdec].
  rewrite stackguard_enable_run.
  cbn [m_mode_pmp_end_index m_mode_pmpaddr_regs m_mode_pmpcfg_regs].
  rewrite Hla.
  destruct (Nat.ltb_spec (global_pmp_end_index g) index); [|lia].
  destruct (Nat.leb_spec index (length (m_mode_pmpaddr_regs thread))); [|lia].
  destruct CONFIG_ASSERT; [|reflexivity].
  specialize (Hslots eq_refl).
  destruct (Nat.leb_spec (length (m_mode_pmpaddr_regs thread))
              CONFIG_PMP_SLOTS); [reflexivity|lia].
Qed.

(** X23: a thread without room for its guard.  When the address array of
    the thread ends at or before [global_pmp_end_index],
    [z_riscv_pmp_stackguard_prepare] (without the QEMU workaround) still
    returns: it ignores that both entries were refused, changes no
    address slot and records the boundary as the end index.
    [z_riscv_pmp_stackguard_enable] on the result then panics after
    clearing MPRV and MPP, before any hardware write. *)
Theorem stackguard_prepare_no_room (g : pmp_globals) (thread : m_mode_thread)
    (log : list mstatus_event) :
  CONFIG_QEMU_TARGET = false ->
  (PMPCFG_STRIDE <= length (m_mode_pmpcfg_regs thread))%nat ->
  (length (m_mode_pmpaddr_regs thread) <= global_pmp_end_index g)%nat ->
  (CONFIG_ASSERT = true ->
     Z.land (stack_bottom thread) 3 = 0 /\
     Z.land Z_RISCV_STACK_GUARD_SIZE 3 = 0) ->
  exists thread' : m_mode_thread,
    z_riscv_pmp_stackguard_prepare g thread = Ret thread' /\
    m_mode_pmp_end_index thread' = global_pmp_end_index g /\
    m_mode_pmpaddr_regs thread' = m_mode_pmpaddr_regs thread /\
    z_riscv_pmp_stackguard_enable g thread' log
      = (Abort Panic,
         log ++ [EvPmp (EvCsrClear (Z.lor MSTATUS_MPRV MSTATUS_MPP))]).
Proof.
  intros Hq Hstride Hfull Hal.
  destruct (store_cfg_word0_spec (m_mode_pmpcfg_regs thread)
              (global_pmp_cfg g) Hstride) as (c0 & Hst & _).
  assert (Hrun : forall perm start size,
            (CONFIG_ASSERT = true ->
               Z.land start 3 = 0 /\ Z.land size 3 = 0) ->
            set_pmp_entry (global_pmp_end_index g) perm start size
              (m_mode_pmpaddr_regs thread) c0
              (length (m_mode_pmpaddr_regs thread))
            = Ret (false, global_pmp_end_index g,
                   m_mode_pmpaddr_regs thread, c0)).
  { intros perm start size Ha. unfold set_pmp_entry.
    rewrite !ASSERT_Ret.
    - cbn [res_bind].
      destruct (Nat.leb_spec (length (m_mode_pmpaddr_regs thread))
                  (global_pmp_end_index g)); [reflexivity|lia].
    - intros H. apply Z.eqb_eq. apply Ha. exact H.
    - intros H. apply Z.eqb_eq. apply Ha. exact H. }
  eexists. split.
  - unfold z_riscv_pmp_stackguard_prepare. rewrite Hst. cbn [res_bind].
    rewrite (Hrun _ _ _ Hal). cbn [res_bind].
    rewrite Hrun by (intros _; split; reflexivity). cbn [res_bind].
    rewrite Hq. cbn [res_bind]. reflexivity.
  - cbn [m_mode_pmp_end_index m_mode_pmpaddr_regs].
    split; [reflexivity|]. split; [reflexivity|].
    rewrite stackguard_enable_run. cbn [m_mode_pmp_end_index].
    rewrite Nat.ltb_irrefl. reflexivity.
Qed.

End Pmp.

(** * Concrete instances

    The statements above at concrete inputs, on a 32-bit build with 8 PMP
    slots, and the inputs at which the design document and the code part
    ways. *)

(** C1 at [start = 0x1000], [size = 0xC00], permission R|W, cursor 1: two
    slots, decoded to [0x1000, 0x1BFF]. *)
Lemma set_pmp_entry_roundtrip_witness :
  set_pmp_entry false false 1 3 0x1000 0xC00 [5; 0; 0; 0; 0; 0; 0; 0] slots8 8
    = Ret (true, 3%nat, [5; 0x400; 0x700; 0; 0; 0; 0; 0],
           [0; 0; 0x0b; 0; 0; 0; 0; 0]) /\
  decoded_ranges false 1 3 [5; 0x400; 0x700; 0; 0; 0; 0; 0]
      [0; 0; 0x0b; 0; 0; 0; 0; 0]
    = Ret [Build_pmp_range 0x1000 0x1BFF true true false false].
Proof.
  split; [reflexivity|].
  refine (proj1 (set_pmp_entry_roundtrip false false 1 3 0x1000 0xC00
                   [5; 0; 0; 0; 0; 0; 0; 0] slots8 8 3
                   [5; 0x400; 0x700; 0; 0; 0; 0; 0] [0; 0; 0x0b; 0; 0; 0; 0; 0]
                   _ _ _ _ _ _ _));
    first [reflexivity | unfold XLEN; lia].
Defined.

(** C2 at the same call: neither chained nor naturally aligned, two slots. *)
Lemma set_pmp_entry_slots_witness :
  set_pmp_entry false false 1 3 0x1000 0xC00 [5; 0; 0; 0; 0; 0; 0; 0] slots8 8
    = Ret (true, 3%nat, [5; 0x400; 0x700; 0; 0; 0; 0; 0],
           [0; 0; 0x0b; 0; 0; 0; 0; 0]) /\
  (3 = 1 + 2)%nat.
Proof.
  split; [reflexivity|].
  refine (proj2 (proj2 (proj2
            (set_pmp_entry_slots false false 1 3 0x1000 0xC00
               [5; 0; 0; 0; 0; 0; 0; 0] slots8 8 3
               [5; 0x400; 0x700; 0; 0; 0; 0; 0] [0; 0; 0x0b; 0; 0; 0; 0; 0]
               _ _ _ _ _))) _ _ _);
    try first [reflexivity | unfold XLEN; lia].
  - intros [[H _] | [_ H]]; [discriminate | vm_compute in H; discriminate].
  - intros [(k & Hk & H) Hm].
    assert (k < 12) by (apply (Z.pow_lt_mono_r_iff 2); lia).
    assert (11 < k) by (apply (Z.pow_lt_mono_r_iff 2); lia). lia.
Defined.

(** C2, the claim as stated, fails in two ways.  At the sentinel:
    [start = 0, size = 0] at cursor 1 behind an address register holding 1
    does not chain and is not a power-of-two region of size 4 or at least
    8, yet the call advances the cursor by 1, not by 2.  And behind a
    NAPOT entry: after [0x1000, 0x2000) was encoded in one NAPOT slot, the
    region [0x2000, +0xC00) starts at the end of the prior region, yet the
    preceding address register holds 0x5FF, not [0x2000 >> 2], the call
    does not chain and advances the cursor by 2, not by 1. *)
Lemma set_pmp_entry_slots_counterexample :
  (set_pmp_entry false false 1 7 0 0 [1; 0; 0; 0; 0; 0; 0; 0] slots8 8
     = Ret (true, 2%nat, [1; 0x1FFFFFFF; 0; 0; 0; 0; 0; 0],
            [0; 0x1f; 0; 0; 0; 0; 0; 0]) /\
   ~ chains 1 0 [1; 0; 0; 0; 0; 0; 0; 0] /\
   ~ naturally_aligned 0 0 /\
   0 mod 4 = 0 /\ (2 <> 1 + 2)%nat) /\
  (set_pmp_entry false false 1 3 0x1000 0x1000 [5; 0; 0; 0; 0; 0; 0; 0] slots8 8
     = Ret (true, 2%nat, [5; 0x5FF; 0; 0; 0; 0; 0; 0],
            [0; 0x1b; 0; 0; 0; 0; 0; 0]) /\
   set_pmp_entry false false 2 3 (0x1000 + 0x1000) 0xC00
       [5; 0x5FF; 0; 0; 0; 0; 0; 0] [0; 0x1b; 0; 0; 0; 0; 0; 0] 8
     = Ret (true, 4%nat, [5; 0x5FF; 0x800; 0xB00; 0; 0; 0; 0],
            [0; 0x1b; 0; 0x0b; 0; 0; 0; 0]) /\
   ~ chains 2 (0x1000 + 0x1000) [5; 0x5FF; 0; 0; 0; 0; 0; 0] /\
   (4 <> 2 + 1)%nat).
Proof.
  split.
  - split; [reflexivity|]. split; [|split; [|split; [reflexivity | lia]]].
    + intros [[H _] | [_ H]]; [discriminate | vm_compute in H; discriminate].
    + intros [(k & Hk & H) _]. pose proof (Z.pow_pos_nonneg 2 k). lia.
  - split; [reflexivity|]. split; [reflexivity|]. split; [|lia].
    intros [[H _] | [_ H]]; [discriminate | vm_compute in H; discriminate].
Qed.

(** C3 at its failing input, cursor 0 of an empty 8-slot store: the call
    chains and writes a top-of-range entry (config byte 0x0f) with address
    register 0, not a NAPOT entry.  And at cursor 2 behind an address
    register holding 0xD00: a NAPOT entry with address 0x1FFFFFFF, decoded
    to the whole address space. *)
Lemma set_pmp_entry_sentinel_witness :
  (exists a cfg : Z,
     set_pmp_entry false false 0 7 0 0 slots8 slots8 8
       = Ret (true, 1%nat, <[0%nat := a]> slots8, <[0%nat := cfg]> slots8) /\
     cfg_mode cfg = PMP_TOR /\ cfg_mode cfg <> PMP_NAPOT /\ a = 0) /\
  (exists a cfg : Z,
     set_pmp_entry false false 2 7 0 0 [0; 0xD00; 0; 0; 0; 0; 0; 0] slots8 8
       = Ret (true, 3%nat, <[2%nat := a]> [0; 0xD00; 0; 0; 0; 0; 0; 0],
              <[2%nat := cfg]> slots8) /\
     cfg_mode cfg = PMP_NAPOT /\ a = 0x1FFFFFFF /\
     decoded_ranges false 2 3 (<[2%nat := a]> [0; 0xD00; 0; 0; 0; 0; 0; 0])
         (<[2%nat := cfg]> slots8)
       = Ret [Build_pmp_range 0 0xFFFFFFFF true true true false]).
Proof.
  split.
  - destruct (set_pmp_entry_sentinel false false 0 7 slots8 slots8 8)
      as (a & cfg & Hrun & Htor & _);
      try first [reflexivity | lia | (cbn; lia)].
    exists a, cfg. split; [exact Hrun|]. apply Htor. left. split; reflexivity.
  - destruct (set_pmp_entry_sentinel false false 2 7
                [0; 0xD00; 0; 0; 0; 0; 0; 0] slots8 8)
      as (a & cfg & Hrun & _ & Hnapot);
      try first [reflexivity | lia | (cbn; lia)].
    exists a, cfg. split; [exact Hrun|]. apply Hnapot.
    intros [[H _] | [_ H]]; [discriminate | vm_compute in H; discriminate].
Defined.

(** C9 at a full store: the call fails and hands back its arguments. *)
Lemma set_pmp_entry_failure_atomic_witness :
  set_pmp_entry false false 8 3 0x1000 0xC00 slots8 slots8 8
    = Ret (false, 8%nat, slots8, slots8) /\
  set_pmp_entry false false 7 3 0x1000 0xC00 slots8 slots8 8
    = Ret (false, 7%nat, slots8, slots8) /\
  (8%nat = 8%nat /\ slots8 = slots8 /\ slots8 = slots8).
Proof.
  split; [reflexivity|]. split; [reflexivity|].
  refine (proj1 (set_pmp_entry_failure_atomic false false 8 3 0x1000 0xC00
                   slots8 slots8 8 8 slots8 slots8 _)).
  reflexivity.
Defined.

(** C7 at an inverted range (panic, nothing logged) and at the range
    [1, 2) of an 8-slot store (hardware write). *)
Lemma write_pmp_entries_precondition_witness :
  write_pmp_entries false 8 false 2 1 true slots8 ones8 8 [] = (Abort Panic, []) /\
  exists cfg' : list Z,
    write_pmp_entries false 8 false 1 2 true slots8 ones8 8 []
      = (Ret cfg', [] ++ [EvHwWrite 1 2 true slots8 cfg']).
Proof.
  pose proof (write_pmp_entries_precondition false 8 false 2 1 true slots8 ones8 8 [])
    as (Hbad & _ & _).
  pose proof (write_pmp_entries_precondition false 8 false 1 2 true slots8 ones8 8 [])
    as (_ & Hgood & _).
  split.
  - apply Hbad. lia.
  - apply Hgood; [lia | discriminate | intros _; split; [cbn; lia | reflexivity]].
Defined.

(** C7, the claim as stated, fails with assertions compiled in: the range
    [0, 1) satisfies [start < end <= index_limit] for [index_limit = 9],
    but the assertion also demands [index_limit <= CONFIG_PMP_SLOTS = 8],
    and the call aborts without a hardware write. *)
Lemma write_pmp_entries_precondition_counterexample :
  (0 < 1 <= 9)%nat /\
  write_pmp_entries false 8 true 0 1 false slots8 (repeat 0 16) 9 []
    = (Abort Panic, []).
Proof. split; [lia | reflexivity]. Qed.

(** C8 at the range [1, 2) of an 8-slot store of a 32-bit build: the config
    bytes 2 and 3 are cleared, the bytes 1 and 4 are kept. *)
Lemma write_pmp_entries_trailing_clear_witness :
  exists cfg' : list Z,
    write_pmp_entries false 8 false 1 2 true slots8 ones8 8 []
      = (Ret cfg', [] ++ [EvHwWrite 1 2 true slots8 cfg']) /\
    cfg' !! 2%nat = Some 0 /\ cfg' !! 3%nat = Some 0 /\
    cfg' !! 1%nat = Some 1 /\ cfg' !! 4%nat = Some 1.
Proof.
  destruct (write_pmp_entries_trailing_clear false 8 false 1 2 true slots8 ones8 8 [])
    as (cfg' & Hrun & _ & Hclear & _);
    [lia | discriminate | cbn; lia | reflexivity |].
  destruct (Hclear eq_refl) as (Hzero & Hkeep & Hbelow).
  exists cfg'. split; [exact Hrun|].
  assert (Hb : forall i : nat, (2 <= i <= 3)%nat -> before_boundary false 2 i).
  { intros i Hi. split; [lia|]. intros j Hj.
    assert (j = 2 \/ j = 3)%nat as [-> | ->] by lia; discriminate. }
  split; [apply Hzero, Hb; lia|]. split; [apply Hzero, Hb; lia|].
  split; [rewrite Hbelow by lia; reflexivity|].
  rewrite Hkeep; [reflexivity|].
  intros [_ Hall]. apply (Hall 4%nat); [lia | reflexivity].
Defined.

(** C4 in the example configuration: the write to [0x1000, +0x500) is
    allowed because the first partition that contains it grants W. *)
Lemma arch_buffer_validate_spec_witness :
  exists r : Z,
    arch_buffer_validate false example_thread example_domain 0 0 0x1000 0x500 1
      = Ret r /\ r = 0.
Proof.
  destruct (proj1 (arch_buffer_validate_spec false) example_thread example_domain
              0 0 0x1000 0x500 1) as (r & Hrun & _ & Hiff & _);
    try (unfold XLEN; cbn; lia).
  - repeat constructor; unfold XLEN; cbn; lia.
  - exists r. split; [exact Hrun|]. apply Hiff. right; right.
    exists 0%nat, example_rw. split; [reflexivity|].
    split; [split; cbn; lia|]. split; [reflexivity|].
    intros j q Hj. lia.
Defined.

(** C4, the claim as stated, fails because the first partition that
    contains the range decides.  (1) With a read-only and a read-write
    partition over the same region, in this order, a write is denied
    although the range lies inside a partition that grants W, and inside
    only one such.  (2) The same happens without any overlap for an empty
    range at the address where the read-only partition of the example
    begins and the read-write one ends, when the read-only one comes first.
    (3) In the order of the example that write is allowed although the
    range lies inside two partitions. *)
Lemma arch_buffer_validate_spec_counterexample :
  (arch_buffer_validate false example_thread
     (Build_k_mem_domain [overlap_ro; overlap_rw] 2 0) 0 0 0x1000 4 1 = Ret (-1) /\
   inside_part 0x1000 4 overlap_rw /\ grants overlap_rw 1 = true /\
   nonempty overlap_rw = true /\ grants overlap_ro 1 = false) /\
  (arch_buffer_validate false example_thread
     (Build_k_mem_domain [example_ro; example_rw] 2 0) 0 0 0x2000 0 1 = Ret (-1) /\
   inside_part 0x2000 0 example_rw /\ grants example_rw 1 = true /\
   nonempty example_rw = true /\ grants example_ro 1 = false) /\
  (arch_buffer_validate false example_thread example_domain 0 0 0x2000 0 1 = Ret 0 /\
   inside_part 0x2000 0 example_rw /\ inside_part 0x2000 0 example_ro).
Proof.
  unfold inside_part, inside. cbn.
  repeat split; try reflexivity; lia.
Qed.

(** C10 on the example domain: both partitions are counted, the loop of
    [resync_pmp_domain] runs its body on both, in order. *)
Lemma partition_loops_bounds_witness :
  resync_loop false 8 false [example_rw; example_ro] 2 (2%nat, slots8, slots8)
  = resync_all false 8 false [example_rw; example_ro] (2%nat, slots8, slots8).
Proof.
  refine (proj1 (proj2 (partition_loops_bounds false 8 false
                          [example_rw; example_ro] 2))
            (2%nat, slots8, slots8) _).
  cbn. lia.
Defined.

(** C10, the claim as stated, fails for the validator, which leaves the
    loop at the first match: with [num_partitions = 2] and a single
    partition in the array the call returns without reading past the array;
    and with more partitions of nonzero size than [num_partitions], the
    ones past the count are not visited. *)
Lemma partition_loops_bounds_counterexample :
  (validate_loop false [example_rw] 2 0x1000 4 1 = Ret 0 /\
   (length (List.filter nonempty [example_rw]) < 2)%nat) /\
  ((forall st : nat * list Z * list Z,
      resync_loop false 8 false [example_rw; example_ro] 1 st
      = resync_all false 8 false [example_rw] st) /\
   (1 <= length (List.filter nonempty [example_rw; example_ro]))%nat /\
   nonempty example_ro = true).
Proof.
  split; [split; [reflexivity | cbn; lia]|].
  split; [|split; [cbn; lia | reflexivity]].
  intros st. cbn [resync_loop resync_all]. cbn [part_size example_rw Z.eqb].
  destruct (resync_partition false 8 false example_rw st); reflexivity.
Qed.

(** C6 on a prepared thread at generation 0 and the example domain at
    generation 3: one resync; at equal generations: none. *)
Lemma usermode_enable_resync_iff_stale_witness :
  resync_count
    (snd (z_riscv_pmp_usermode_enable false 8 true true demo_globals demo_synced
            (Build_k_mem_domain [example_rw; example_ro] 2 3) [])) = 1%nat /\
  resync_count
    (snd (z_riscv_pmp_usermode_enable false 8 true true demo_globals demo_synced
            example_domain [])) = 0%nat.
Proof.
  pose proof (usermode_enable_resync_iff_stale false 8 true true demo_globals
                demo_synced (Build_k_mem_domain [example_rw; example_ro] 2 3) [])
    as Hstale.
  pose proof (usermode_enable_resync_iff_stale false 8 true true demo_globals
                demo_synced example_domain []) as Hsync.
  assert (Hprep : u_mode_pmp_end_index demo_synced <> 0%nat) by (cbn; lia).
  destruct (Hstale Hprep) as (H1 & _). destruct (Hsync Hprep) as (_ & H2 & _).
  split.
  - apply H1. cbn. lia.
  - apply H2. reflexivity.
Defined.

(** C5, the code at the failing input: a thread is prepared and then
    switched to with a domain fresh from [arch_mem_domain_init]; the
    last-synced generation 0 that [z_riscv_pmp_usermode_prepare] stores is
    the generation of that domain, and the first
    [z_riscv_pmp_usermode_enable] writes the registers without any
    resync. *)
Theorem usermode_prepare_fresh_domain_no_resync :
  exists (thread' thread'' : k_thread) (log : list event),
    z_riscv_pmp_usermode_prepare false 8 true demo_globals demo_thread
      = Ret thread' /\
    u_mode_pmp_end_index thread' <> 0%nat /\
    u_mode_pmp_update_nr thread'
      = pmp_update_nr (arch_mem_domain_init example_domain) /\
    z_riscv_pmp_usermode_enable false 8 true true demo_globals thread'
      (arch_mem_domain_init example_domain) [] = (Ret thread'', log) /\
    resync_count log = 0%nat /\ hw_write_count log = 1%nat.
Proof.
  eexists _, _, _.
  split; [vm_compute; reflexivity|].
  split; [cbn; lia|].
  split; [reflexivity|].
  split; [vm_compute; reflexivity|].
  split; reflexivity.
Qed.

(** ** Instances of the further properties *)

(** X1 at the call of the first instance: a region that neither chains
    nor is naturally aligned fits, since two slots are free. *)
Lemma set_pmp_entry_success_iff_witness :
  exists (ok : bool) (index' : nat) (a c : list Z),
    set_pmp_entry false false 1 3 0x1000 0xC00 [5; 0; 0; 0; 0; 0; 0; 0] slots8 8
      = Ret (ok, index', a, c) /\
    (ok = true <->
     (1 < 8)%nat /\
     (chains 1 0x1000 [5; 0; 0; 0; 0; 0; 0; 0] \/
      napot_test false 0x1000 0xC00 = true \/ (1 + 1 < 8)%nat)).
Proof.
  destruct (set_pmp_entry_success_iff false false 1 3 0x1000 0xC00
              [5; 0; 0; 0; 0; 0; 0; 0] slots8 8)
    as (ok & i & a & c & H & _ & _ & Hiff);
    [cbn; lia | cbn; lia | discriminate |].
  exists ok, i, a, c. split; assumption.
Defined.

(** X2 at the same call: slots 0 and 3 to 7 are untouched. *)
Lemma set_pmp_entry_frame_witness :
  set_pmp_entry false false 1 3 0x1000 0xC00 [5; 0; 0; 0; 0; 0; 0; 0] slots8 8
    = Ret (true, 3%nat, [5; 0x400; 0x700; 0; 0; 0; 0; 0],
           [0; 0; 0x0b; 0; 0; 0; 0; 0]) /\
  (1 <= 3 <= 1 + 2)%nat /\
  forall i : nat, (i < 1 \/ 3 <= i)%nat ->
    [5; 0x400; 0x700; 0; 0; 0; 0; 0] !! i = [5; 0; 0; 0; 0; 0; 0; 0] !! i /\
    [0; 0; 0x0b; 0; 0; 0; 0; 0] !! i = slots8 !! i.
Proof.
  split; [reflexivity|].
  destruct (set_pmp_entry_frame false false 1 3 0x1000 0xC00
              [5; 0; 0; 0; 0; 0; 0; 0] slots8 8 true 3
              [5; 0x400; 0x700; 0; 0; 0; 0; 0] [0; 0; 0x0b; 0; 0; 0; 0; 0])
    as (H1 & _ & _ & _ & _ & H2); [reflexivity|].
  split; assumption.
Defined.

(** X3 at a start address that is not a multiple of 4, assertions on. *)
Lemma set_pmp_entry_misaligned_witness :
  set_pmp_entry false true 1 3 0x1002 0xC00 [5; 0; 0; 0; 0; 0; 0; 0] slots8 8
    = Abort Panic.
Proof.
  apply (proj1 (set_pmp_entry_misaligned false true 1 3 0x1002 0xC00
                  [5; 0; 0; 0; 0; 0; 0; 0] slots8 8)); [reflexivity|].
  left. vm_compute. discriminate.
Defined.

(** X4 after the same call: the region that starts at [0x1C00] chains. *)
Lemma set_pmp_entry_chain_next_witness :
  chains 3 (ulong false (0x1000 + 0xC00)) [5; 0x400; 0x700; 0; 0; 0; 0; 0] /\
  exists a c : list Z,
    set_pmp_entry false false 3 1 (ulong false (0x1000 + 0xC00)) 0x400
        [5; 0x400; 0x700; 0; 0; 0; 0; 0] [0; 0; 0x0b; 0; 0; 0; 0; 0] 8
      = Ret (true, (3 + 1)%nat, a, c).
Proof.
  apply (set_pmp_entry_chain_next false false 1 3 0x1000 0xC00
           [5; 0; 0; 0; 0; 0; 0; 0] slots8 8 3
           [5; 0x400; 0x700; 0; 0; 0; 0; 0] [0; 0; 0x0b; 0; 0; 0; 0; 0]
           1 0x400);
    try first [reflexivity | (cbn; lia)].
  right. reflexivity.
Defined.

(** X5 on the same store: two lines for the slots 1 and 2. *)
Lemma print_pmp_entries_lines_witness :
  exists ls : list pmp_line,
    print_pmp_entries false 1 3 [5; 0x400; 0x700; 0; 0; 0; 0; 0]
        [0; 0; 0x0b; 0; 0; 0; 0; 0] = Ret ls /\
    length ls = (3 - 1)%nat.
Proof.
  apply (proj1 (print_pmp_entries_lines false 1 3
                  [5; 0x400; 0x700; 0; 0; 0; 0; 0]
                  [0; 0; 0x0b; 0; 0; 0; 0; 0]
                  ltac:(cbn; lia) ltac:(cbn; lia))).
Defined.

(** X6 for [demo_synced] in a domain of generation 3. *)
Lemma resync_pmp_domain_frame_witness :
  exists thread' : k_thread,
    resync_pmp_domain false 8 true demo_synced demo_domain = Ret thread' /\
    u_mode_pmp_update_nr thread' = 3 /\
    u_mode_pmpaddr_regs thread' !! 1%nat = Some 0xDFF /\
    u_mode_pmpcfg_regs thread' !! 1%nat = Some 0x1b.
Proof.
  eexists. split; [vm_compute; reflexivity|].
  match goal with
  | |- u_mode_pmp_update_nr ?t = _ /\ _ =>
      destruct (resync_pmp_domain_frame false 8 true demo_synced t demo_domain)
        as (_ & _ & _ & Hnr & _ & _ & _ & _ & Hlow); [reflexivity|]
  end.
  split; [exact Hnr|]. exact (Hlow 1%nat ltac:(cbn; lia)).
Defined.

(** X7 for the same resynchronization: the two partitions, decoded. *)
Lemma resync_pmp_domain_decoded_witness :
  exists thread' : k_thread,
    resync_pmp_domain false 8 true demo_synced demo_domain = Ret thread' /\
    decoded_ranges false 2 (u_mode_pmp_end_index thread')
        (u_mode_pmpaddr_regs thread') (u_mode_pmpcfg_regs thread')
      = Ret [part_range false example_rw; part_range false example_ro].
Proof.
  assert (He : Forall (part_encodable false) (partitions demo_domain)).
  { unfold demo_domain. cbn [partitions].
    constructor; [|constructor; [|constructor]];
      unfold part_encodable, part_in_range;
      (split; [split; split|split; [split|]]);
      vm_compute; first [reflexivity | discriminate]. }
  eexists. split; [vm_compute; reflexivity|].
  match goal with
  | |- decoded_ranges _ _ (u_mode_pmp_end_index ?t) _ _ = _ =>
      apply (proj2 (resync_pmp_domain_decoded false 8 true demo_synced t
                      demo_domain eq_refl He eq_refl))
  end.
Defined.

(** X8 for the same resynchronization: two partitions, six slots at most. *)
Lemma max_partitions_bound_witness :
  exists thread' : k_thread,
    resync_pmp_domain false 8 true demo_synced demo_domain = Ret thread' /\
    (2 + 2 <= u_mode_pmp_end_index thread')%nat /\
    arch_mem_domain_max_partitions_get 8 demo_globals = 8 - 1 - 1 /\
    2 <= arch_mem_domain_max_partitions_get 8 demo_globals.
Proof.
  eexists. split; [vm_compute; reflexivity|].
  match goal with
  | |- (_ <= u_mode_pmp_end_index ?t)%nat /\ _ =>
      apply (max_partitions_bound false 8 true demo_globals demo_synced t
               demo_domain eq_refl ltac:(cbn; lia) ltac:(cbn; lia) eq_refl)
  end.
Defined.

(** X9 for the same thread and domain, assertions off. *)
Lemma resync_without_assertions_witness :
  exists thread' : k_thread,
    resync_pmp_domain false 8 false demo_synced demo_domain = Ret thread'.
Proof.
  apply (proj1 (resync_without_assertions false 8 false demo_synced demo_domain
                  eq_refl ltac:(cbn; lia) ltac:(cbn; lia) ltac:(cbn; lia))).
Defined.

(** X10 for [demo_synced] and [demo_other], which differ in everything but
    the domain offset and the address slot before it. *)
Lemma resync_pmp_domain_shared_witness :
  match resync_pmp_domain false 8 true demo_synced demo_domain,
        resync_pmp_domain false 8 true demo_other demo_domain with
  | Ret thread1', Ret thread2' =>
      u_mode_pmp_end_index thread1' = u_mode_pmp_end_index thread2' /\
      u_mode_pmp_update_nr thread1' = u_mode_pmp_update_nr thread2' /\
      forall j : nat,
        (u_mode_pmp_domain_offset demo_synced <= j
           < u_mode_pmp_end_index thread1')%nat ->
        u_mode_pmpaddr_regs thread1' !! j = u_mode_pmpaddr_regs thread2' !! j /\
        u_mode_pmpcfg_regs thread1' !! j = u_mode_pmpcfg_regs thread2' !! j
  | Abort f1, Abort f2 => f1 = f2
  | _, _ => False
  end.
Proof.
  apply (resync_pmp_domain_shared false 8 true demo_synced demo_other
           demo_domain eq_refl eq_refl eq_refl eq_refl).
Defined.

(** X11 three times, with the stack guard configured and assertions on:
    for a thread that was never prepared nothing happens; for the stale
    [demo_synced] the call returns after the resync, the clearing of the
    bypass bit and one hardware write, in this order; and against a domain
    with a misaligned partition the call aborts in the resync, without a
    hardware write. *)
Lemma usermode_enable_events_witness :
  z_riscv_pmp_usermode_enable false 8 true true demo_globals example_thread
      demo_domain []
    = (Ret example_thread, []) /\
  (exists (thread' : k_thread) (log' : list event),
     z_riscv_pmp_usermode_enable false 8 true true demo_globals demo_synced
         demo_domain []
       = (Ret thread', log') /\
     log' = [EvResync; EvCsrClear MSTATUS_MPRV;
             EvHwWrite 1 (u_mode_pmp_end_index thread') true
               (u_mode_pmpaddr_regs thread') (u_mode_pmpcfg_regs thread')] /\
     (1 < u_mode_pmp_end_index thread' <= 8)%nat) /\
  (exists (f : fault) (log' : list event),
     z_riscv_pmp_usermode_enable false 8 true true demo_globals demo_synced
         (Build_k_mem_domain [Build_k_mem_partition 0x1002 0x1000 3] 1 3)
         [EvCsrClear 0]
       = (Abort f, log') /\
     hw_write_count log' = hw_write_count [EvCsrClear 0]).
Proof.
  split; [|split].
  - apply (proj1 (usermode_enable_events false 8 true true demo_globals
                    example_thread demo_domain [])).
    reflexivity.
  - eexists. eexists. split; [vm_compute; reflexivity|].
    match goal with
    | |- ?l = _ /\ (_ < u_mode_pmp_end_index ?t <= _)%nat =>
        apply (proj1 (proj2 (usermode_enable_events false 8 true true
                               demo_globals demo_synced demo_domain []))
                 ltac:(cbn; lia) t l)
    end.
    vm_compute. reflexivity.
  - eexists. eexists. split; [vm_compute; reflexivity|].
    match goal with
    | |- hw_write_count ?l = _ =>
        apply (proj2 (proj2 (usermode_enable_events false 8 true true
                               demo_globals demo_synced
                               (Build_k_mem_domain
                                  [Build_k_mem_partition 0x1002 0x1000 3] 1 3)
                               [EvCsrClear 0])) Panic l)
    end.
    vm_compute. reflexivity.
Defined.

(** X12 for [demo_synced] added to the domain of generation 3. *)
Lemma thread_add_then_enable_witness :
  resync_count
    (snd (z_riscv_pmp_usermode_enable false 8 true true demo_globals
            (arch_mem_domain_thread_add demo_synced) demo_domain []))
    = (resync_count [] + 1)%nat.
Proof.
  apply (thread_add_then_enable false 8 true true demo_globals demo_synced
           demo_domain []).
  cbn. lia.
Defined.

(** X13 for one addition and one removal on the example domain. *)
Lemma generation_counter_wraps_witness :
  pmp_update_nr (domain_mutations [(true, 0); (false, 0)] example_domain)
    = (0 + 2) mod 2 ^ 32 /\
  resync_count
    (snd (z_riscv_pmp_usermode_enable false 8 true true demo_globals
            demo_synced
            (domain_mutations [(true, 0); (false, 0)] example_domain) []))
    = (resync_count [] + 1)%nat.
Proof.
  destruct (generation_counter_wraps false 8 true true demo_globals
              demo_synced example_domain [(true, 0); (false, 0)] [])
    as (_ & _ & Hnr & Hcount);
    [cbn; lia | cbn; lia | reflexivity |].
  split; [exact Hnr | exact Hcount].
Defined.

(** X14 for [demo_thread] behind one global entry. *)
Lemma usermode_prepare_stack_witness :
  exists thread' : k_thread,
    z_riscv_pmp_usermode_prepare false 8 true demo_globals demo_thread
      = Ret thread' /\
    u_mode_pmp_domain_offset thread' = u_mode_pmp_end_index thread' /\
    (1 < u_mode_pmp_end_index thread')%nat /\
    u_mode_pmpcfg_regs thread' !! 0%nat = Some 0x8d.
Proof.
  destruct (usermode_prepare_stack false 8 true demo_globals demo_thread)
    as (thread' & Hrun & _ & _ & _ & Hoff & _ & _ & Hlt & Hcfg & _);
    try first [reflexivity | (cbn; lia)].
  exists thread'. split; [exact Hrun|]. split; [exact Hoff|].
  split; [apply Hlt; cbn; lia|].
  apply (Hcfg 0%nat); cbn; lia.
Defined.

(** X15 on a 32-bit build with the stack guard, one CPU: the read-only
    area [0, 0x10000) and the guard [0x20000, +0x40). *)
Lemma z_riscv_pmp_init_spec_witness :
  exists (g' : pmp_globals) (addr' cfg' : list Z),
    z_riscv_pmp_init false 8 true true false 0x40 boot_globals
        0 0x10000 0x20000 slots4 ones4 []
      = (Ret g', [] ++ [EvHwWrite 0 (global_pmp_end_index g') true addr' cfg']) /\
    (2 <= global_pmp_end_index g' <= 4)%nat /\
    global_pmp_cfg g' = word_of_bytes cfg'.
Proof.
  destruct (z_riscv_pmp_init_spec false 8 true true false 0x40 boot_globals
              0 0x10000 0x20000 slots4 ones4 [])
    as (g' & addr' & cfg' & Hrun & Hidx & _ & Hw & _);
    [reflexivity | reflexivity
    | intros _; repeat split; first [reflexivity | (cbn; lia)]
    | left; reflexivity |].
  exists g', addr', cfg'. split; [exact Hrun|]. split; [exact Hidx | exact Hw].
Defined.

(** X16 on the same build. *)
Lemma z_riscv_pmp_init_decoded_witness :
  exists (g' : pmp_globals) (addr' cfg' : list Z),
    z_riscv_pmp_init false 8 true true false 0x40 boot_globals
        0 0x10000 0x20000 slots4 ones4 []
      = (Ret g', [] ++ [EvHwWrite 0 (global_pmp_end_index g') true addr' cfg']) /\
    decoded_ranges false 0 (global_pmp_end_index g') addr' cfg'
      = Ret [Build_pmp_range 0 (ulong false (0 + 0x10000 - 1))
               true false true true;
             Build_pmp_range 0x20000 (ulong false (0x20000 + 0x40 - 1))
               false false false false].
Proof.
  apply (z_riscv_pmp_init_decoded false 8 true true false 0x40 boot_globals
           0 0x10000 0x20000 slots4 ones4 []);
    try first [reflexivity | (cbn; lia) | left; reflexivity].
Defined.

(** X17 on the same build: the locals do not matter. *)
Lemma z_riscv_pmp_init_stable_witness :
  exists g' : pmp_globals,
    fst (z_riscv_pmp_init false 8 true true true 0x40 boot_globals
           0 0x10000 0x20000 slots4 ones4 []) = Ret g' /\
    fst (z_riscv_pmp_init false 8 true true true 0x40 boot_globals
           0 0x10000 0x20000 ones4 slots4 []) = Ret g' /\
    fst (z_riscv_pmp_init false 8 true true true 0x40 g'
           0 0x10000 0x20000 ones4 slots4 []) = Ret g'.
Proof.
  apply (z_riscv_pmp_init_stable false 8 true true true 0x40 boot_globals
           0 0x10000 0x20000 slots4 ones4 ones4 slots4 [] []);
    try reflexivity.
  intros _. repeat split; first [reflexivity | (cbn; lia)].
Defined.

(** X18 for the config word [0x0000188d] of a 32-bit build. *)
Lemma cfg_word_roundtrip_witness :
  load_cfg_word0 false [0x8d; 0x18; 0; 0] = Ret (word_of_bytes [0x8d; 0x18; 0; 0]) /\
  store_cfg_word0 false ones8 (word_of_bytes [0x8d; 0x18; 0; 0])
    = Ret ([0x8d; 0x18; 0; 0] ++ drop (PMPCFG_STRIDE false) ones8).
Proof.
  apply (cfg_word_roundtrip false [0x8d; 0x18; 0; 0] ones8);
    [repeat constructor; lia | reflexivity | cbn; lia].
Defined.

(** X19 on the same build: the thread starts from the bytes that went to
    the hardware. *)
Lemma usermode_prepare_global_bytes_witness :
  exists (g' : pmp_globals) (log' : list event) (thread' : k_thread)
         (addr' cfg' : list Z),
    z_riscv_pmp_init false 8 true true false 0x40 boot_globals
        0 0x10000 0x20000 slots4 ones4 [] = (Ret g', log') /\
    z_riscv_pmp_usermode_prepare false 8 true g' demo_thread = Ret thread' /\
    log' = [] ++ [EvHwWrite 0 (global_pmp_end_index g') true addr' cfg'] /\
    forall j : nat, (j < global_pmp_end_index g')%nat ->
      u_mode_pmpcfg_regs thread' !! j = cfg' !! j.
Proof.
  eexists. eexists. eexists.
  match goal with
  | |- exists addr' cfg' : list Z, ?I = _ /\ ?P = _ /\ _ =>
      assert (Hi : I = ltac:(let v := eval vm_compute in I in exact v))
        by (vm_compute; reflexivity)
  end.
  match type of Hi with
  | _ = (Ret ?g', ?log') =>
      assert (Hp : z_riscv_pmp_usermode_prepare false 8 true g' demo_thread
                   = ltac:(let v := eval vm_compute in
                             (z_riscv_pmp_usermode_prepare false 8 true g'
                                demo_thread) in exact v))
        by (vm_compute; reflexivity);
      match type of Hp with
      | _ = Ret ?t =>
          destruct (usermode_prepare_global_bytes false 8 true true false 0x40
                      boot_globals g' 0 0x10000 0x20000 slots4 ones4 [] log'
                      demo_thread t)
            as (addr' & cfg' & Hlog & Hbytes);
            [reflexivity | reflexivity
            | intros _; repeat split; first [reflexivity | (cbn; lia)]
            | exact Hi | exact Hp |];
          exists addr', cfg'; split; [exact Hi|]; split; [exact Hp|];
          split; [exact Hlog | exact Hbytes]
      end
  end.
Defined.

(** X20 for a privileged thread with its stack at [0x4000], 0x40 bytes
    reserved below it and a guard of 0x40 bytes, behind one global
    entry. *)
Lemma stackguard_prepare_decoded_witness :
  exists thread' : m_mode_thread,
    z_riscv_pmp_stackguard_prepare false true 0x40 true true 0x40 0x80
        demo_globals demo_m_thread = Ret thread' /\
    decoded_ranges false 1 (m_mode_pmp_end_index thread')
        (m_mode_pmpaddr_regs thread') (m_mode_pmpcfg_regs thread')
      = Ret [Build_pmp_range 0x3FC0 0x3FFF false false false false;
             Build_pmp_range 0 0xFFFFFFFF true true true false].
Proof.
  destruct (stackguard_prepare_decoded false true 0x40 true true 0x40 0x80
              demo_globals demo_m_thread)
    as (thread' & Hrun & _ & Hdec & _);
    try first [reflexivity | (cbn; lia)].
  exists thread'. split; [exact Hrun | exact Hdec].
Defined.

(** X21 for a thread with two prepared slots behind one global entry, and
    for the unprepared [demo_m_thread]. *)
Lemma stackguard_enable_events_witness :
  z_riscv_pmp_stackguard_enable false 8 true demo_globals
      (Build_m_mode_thread 0x4000 0 false slots8 ones8 3) []
    = (Ret (Build_m_mode_thread 0x4000 0 false slots8 ones8 3),
       [] ++ [EvPmp (EvCsrClear (Z.lor MSTATUS_MPRV MSTATUS_MPP));
              EvPmp (EvHwWrite 1 3 false slots8 ones8);
              EvCsrSet MSTATUS_MPRV]) /\
  z_riscv_pmp_stackguard_enable false 8 true demo_globals demo_m_thread []
    = (Abort Panic,
       [] ++ [EvPmp (EvCsrClear (Z.lor MSTATUS_MPRV MSTATUS_MPP))]).
Proof.
  split.
  - apply (proj1 (stackguard_enable_events false 8 true demo_globals
                    (Build_m_mode_thread 0x4000 0 false slots8 ones8 3) []));
      [cbn; lia | intros _; cbn; lia].
  - apply (proj2 (stackguard_enable_events false 8 true demo_globals
                    demo_m_thread [])).
    left. cbn. lia.
Defined.

(** X22 for the thread of X20. *)
Lemma stackguard_prepare_then_enable_witness :
  exists (thread' : m_mode_thread) (end_ : nat) (addr cfg : list Z),
    z_riscv_pmp_stackguard_prepare false true 0x40 true true 0x40 0x80
        demo_globals demo_m_thread = Ret thread' /\
    z_riscv_pmp_stackguard_enable false 8 true demo_globals thread' []
      = (Ret thread',
         [] ++ [EvPmp (EvCsrClear (Z.lor MSTATUS_MPRV MSTATUS_MPP));
                EvPmp (EvHwWrite 1 end_ false addr cfg);
                EvCsrSet MSTATUS_MPRV]) /\
    decoded_ranges false 1 end_ addr cfg
      = Ret [Build_pmp_range 0x3FC0 0x3FFF false false false false;
             Build_pmp_range 0 0xFFFFFFFF true true true false].
Proof.
  apply (stackguard_prepare_then_enable false 8 true 0x40 true true 0x40 0x80
           demo_globals demo_m_thread []);
    try first [reflexivity | (cbn; lia) | (intros _; cbn; lia)].
Defined.

(** X23 for the same thread behind eight global entries. *)
Lemma stackguard_prepare_no_room_witness :
  exists thread' : m_mode_thread,
    z_riscv_pmp_stackguard_prepare false true 0x40 true false 0x40 0x80
        (Build_pmp_globals 0 8) demo_m_thread = Ret thread' /\
    m_mode_pmp_end_index thread' = 8%nat /\
    z_riscv_pmp_stackguard_enable false 8 true (Build_pmp_globals 0 8)
        thread' []
      = (Abort Panic,
         [] ++ [EvPmp (EvCsrClear (Z.lor MSTATUS_MPRV MSTATUS_MPP))]).
Proof.
  destruct (stackguard_prepare_no_room false 8 true 0x40 true false 0x40 0x80
              (Build_pmp_globals 0 8) demo_m_thread [])
    as (thread' & Hrun & Hidx & _ & Hen);
    [reflexivity | cbn; lia | cbn; lia
    | intros _; split; reflexivity |].
  exists thread'. split; [exact Hrun|]. split; [exact Hidx | exact Hen].
Defined.
